(** * BoomGhoom: ledger arithmetic, stores, forms and navigation

    A shallow embedding of the finance entities ([calculateWithdrawalBreakdown]
    and the business constants), of the Zustand finance store, of the OTP
    verification handler and of the wallet screen's withdraw guard, together
    with the properties the specification states about them; then of the
    notification, auth and event stores, of the login, OTP, event creation
    and event detail screens, of the wallet's transaction list and of the
    navigation of [App], with properties read off the code.

    JavaScript's [number] is IEEE 754 binary64 with round-to-nearest-even; it
    is modelled by Rocq's primitive [float], whose operations are specified by
    [SpecFloat] through [FloatAxioms].  Universally quantified facts are
    proved on the exact value of a double, taken as an integer multiple of
    [2^-1074], the least positive double. *)

From Stdlib Require Import ZArith Lia List String Bool Floats.
Import ListNotations.

Set Warnings "-inexact-float".

Local Open Scope Z_scope.

(* ================================================================= *)
(** * Definitions *)

(** ** Vocabulary for the rounding of [SpecFloat] *)

Section RoundingDefinitions.

Variables prec emax : Z.

(** [m2] is [m / 2^k] rounded to a nearest integer. *)
Definition round_cases (m k m2 : Z) : Prop :=
  (m2 = m / 2 ^ k /\ 2 * (m mod 2 ^ k) <= 2 ^ k) \/
  (m2 = m / 2 ^ k + 1 /\ 2 ^ k <= 2 * (m mod 2 ^ k)).

(** The last step of [binary_round_aux]: packing a shifted mantissa. *)
Definition finish (s : bool) (r : shr_record * Z) : spec_float :=
  let '(mrs, e) := r in
  match shr_m mrs with
  | Z0 => S754_zero s
  | Zpos m => if e <=? emax - prec then S754_finite s m e else S754_infinity s
  | Zneg _ => S754_nan
  end.

(** [J] is the magnitude, in units of [2^b], of the rounding [res] of the
    exact magnitude [A]: its shape, its error, and its position with respect
    to every representable magnitude. *)
Definition rounded_magnitude (s : bool) (b : Z) (res : spec_float) (A J : Z) : Prop :=
  0 <= J /\
  ((J = 0 /\ res = S754_zero s) \/
   (exists mf ef, J = Zpos mf * 2 ^ (ef - b) /\ SpecFloat.emin prec emax <= ef /\
      canonical_mantissa prec emax mf ef = true /\
      res = if ef <=? emax - prec then S754_finite s mf ef else S754_infinity s)) /\
  (2 ^ prec * Z.abs (J - A) <= A \/ 2 * Z.abs (J - A) <= 2 ^ (SpecFloat.emin prec emax - b)) /\
  (forall (my : positive) (ey : Z),
      SpecFloat.emin prec emax <= ey -> Zpos (digits2_pos my) <= prec ->
      (A <= Zpos my * 2 ^ (ey - b) -> J <= Zpos my * 2 ^ (ey - b)) /\
      (Zpos my * 2 ^ (ey - b) <= A -> Zpos my * 2 ^ (ey - b) <= J)).

(** Exact value of a finite float, in units of [2^emin]. *)
Definition SF2Z (x : spec_float) : Z :=
  match x with
  | S754_finite s m e => cond_Zopp s (Zpos m * 2 ^ (e - SpecFloat.emin prec emax))
  | _ => 0
  end.

(** Zero or finite non-zero: neither infinite nor NaN. *)
Definition SFfinite (x : spec_float) : bool :=
  match x with
  | S754_zero _ | S754_finite _ _ _ => true
  | _ => false
  end.

(** [r] is a rounding to nearest of the exact value [A / 2^sh]: relative error
    at most [2^-prec], or absolute error at most half a unit when the result
    is subnormal; and no representable number lies strictly between the exact
    value and [r]. *)
Definition rounds_to (sh A r : Z) : Prop :=
  (2 ^ prec * Z.abs (r * 2 ^ sh - A) <= Z.abs A \/ 2 * Z.abs (r * 2 ^ sh - A) <= 2 ^ sh) /\
  (forall y, SpecFloat.valid_binary prec emax y = true -> SFfinite y = true ->
     (A <= SF2Z y * 2 ^ sh -> r <= SF2Z y) /\ (SF2Z y * 2 ^ sh <= A -> SF2Z y <= r)).

(** What an arithmetic operation guarantees about its result [res] when the
    exact result is [A / 2^sh]. *)
Definition op_spec (sh A : Z) (res : spec_float) : Prop :=
  SpecFloat.valid_binary prec emax res = true /\
  ((exists z, SpecFloat.valid_binary prec emax z = true /\ SFfinite z = true /\
              Z.abs A <= Z.abs (SF2Z z) * 2 ^ sh) -> SFfinite res = true) /\
  (SFfinite res = true -> rounds_to sh A (SF2Z res)).

End RoundingDefinitions.

(** ** JavaScript numbers *)

(** A JS [number]: a binary64 float.  [*], [+], [-] are the primitive
    operations, [<], [<=], [===] are [ltb], [leb], [eqb]. *)
Definition number : Set := float.

Bind Scope float_scope with number.

(** Exact value of a finite [number] in units of [2^-1074]. *)
Definition F2Z (x : number) : Z := SF2Z prec emax (Prim2SF x).

(** [r] is finite and is a rounding to nearest of [A / 2^sh]. *)
Definition frounds (sh A : Z) (r : number) : Prop :=
  is_finite r = true /\
  (2 ^ 53 * Z.abs (F2Z r * 2 ^ sh - A) <= Z.abs A \/ 2 * Z.abs (F2Z r * 2 ^ sh - A) <= 2 ^ sh) /\
  (forall w, is_finite w = true ->
     (A <= F2Z w * 2 ^ sh -> F2Z r <= F2Z w) /\ (F2Z w * 2 ^ sh <= A -> F2Z w <= F2Z r)).

(** [Number.MAX_VALUE]. *)
Definition max_float : number := 0x1.fffffffffffffp+1023%float.

(** ** Finance entities (the module behind [@domain/entities]) *)

Inductive TransactionType : Set :=
  | due_added
  | due_cleared
  | commission_earned
  | commission_available
  | withdrawal_requested
  | withdrawal_completed
  | withdrawal_failed
  | referral_reward.

Module TransactionStatus.
Inductive t : Set := pending | completed | failed.
End TransactionStatus.

(** How a transaction was paid. *)
Inductive PaymentMethod : Set := upi | card | netbanking | wallet | commission.

Module Transaction.
Record t : Set := {
  id : string;
  type : TransactionType;
  status : TransactionStatus.t;
  amount : number;
  currency : string;
  description : string;
  eventId : option string;
  eventTitle : option string;
  paymentMethod : option PaymentMethod;
  gatewayFee : option number;
  gst : option number;
  netAmount : option number;
  referenceId : option string;
  createdAt : string;
  completedAt : option string
}.
End Transaction.

Module DueStatus.
Inductive t : Set := pending | cleared.
End DueStatus.

(** [clearedVia]: ['payment'] or ['commission']. *)
Inductive ClearedVia : Set := via_payment | via_commission.

Module DueRecord.
Record t : Set := {
  id : string;
  eventId : string;
  eventTitle : string;
  amount : number;
  currency : string;
  status : DueStatus.t;
  clearedVia : option ClearedVia;
  createdAt : string;
  clearedAt : option string
}.
End DueRecord.

Module CommissionStatus.
Inductive t : Set := pending | available | withdrawn.
End CommissionStatus.

Module CommissionRecord.
Record t : Set := {
  id : string;
  eventId : string;
  eventTitle : string;
  totalGenerated : number;
  commissionRate : number;
  grossAmount : number;
  status : CommissionStatus.t;
  participantsDuesCleared : number;
  totalParticipants : number;
  createdAt : string;
  availableAt : option string
}.
End CommissionRecord.

(** Payout destination. *)
Record BankDetails : Set := {
  accountHolderName : string;
  accountNumber : string;
  ifscCode : string;
  bankName : string;
  upiId : option string
}.

Module WithdrawalStatus.
Inductive t : Set := pending | processing | completed | failed.
End WithdrawalStatus.

Module WithdrawalRecord.
Record t : Set := {
  id : string;
  amount : number;
  currency : string;
  gatewayFee : number;
  gst : number;
  netAmount : number;
  status : WithdrawalStatus.t;
  bankDetails : BankDetails;
  requestedAt : string;
  processedAt : option string;
  failureReason : option string
}.
End WithdrawalRecord.

Module FinanceSummary.
Record t : Set := {
  totalDues : number;
  pendingCommission : number;
  availableCommission : number;
  minWithdrawalAmount : number;
  gatewayFeePercentage : number;
  gstPercentage : number;
  canWithdraw : bool;
  currency : string
}.
End FinanceSummary.

(** Constants. *)
Definition DUE_AMOUNT : number := 25%float.
Definition COMMISSION_RATE : number := 0.8%float.
Definition MIN_WITHDRAWAL_AMOUNT : number := 1000%float.
Definition GATEWAY_FEE_PERCENTAGE : number := 0.02%float.
Definition GST_PERCENTAGE : number := 0.18%float.

(** The record [calculateWithdrawalBreakdown] returns. *)
Record WithdrawalBreakdown : Set := {
  gatewayFee : number;
  gst : number;
  netAmount : number
}.

Definition calculateWithdrawalBreakdown (grossAmount : number) : WithdrawalBreakdown :=
  let gatewayFee := (grossAmount * GATEWAY_FEE_PERCENTAGE)%float in
  let gst := (gatewayFee * GST_PERCENTAGE)%float in
  let netAmount := (grossAmount - gatewayFee - gst)%float in
  {| gatewayFee := gatewayFee; gst := gst; netAmount := netAmount |}.

(** The JS expression [b.gatewayFee + b.gst + b.netAmount]. *)
Definition breakdownSum (b : WithdrawalBreakdown) : number :=
  (gatewayFee b + gst b + netAmount b)%float.

(** Mantissas of the two percentage literals: [0.02] is the double
    [C1m * 2^-58] and [0.18] is the double [C2m * 2^-55]. *)
Definition C1m : Z := 5764607523034235.
Definition C2m : Z := 6485183463413514.

(** The exact net rate [1 - c1 - c1 * c2] of the two literals, scaled by
    [2^113]. *)
Definition netRate : Z := 2 ^ 113 - 2 ^ 55 * C1m - C1m * C2m.

(** ** Finance store (presentation/store/financeStore) *)

Module financeStore.

Record FinanceState : Set := {
  summary : option FinanceSummary.t;
  transactions : list Transaction.t;
  dues : list DueRecord.t;
  commissions : list CommissionRecord.t;
  withdrawals : list WithdrawalRecord.t;
  isLoading : bool;
  error : option string
}.

(** The object literal handed to Zustand's [set]: each key is present
    ([Some]) or absent ([None]). *)
Record Partial : Set := {
  p_summary : option (option FinanceSummary.t);
  p_transactions : option (list Transaction.t);
  p_dues : option (list DueRecord.t);
  p_commissions : option (list CommissionRecord.t);
  p_withdrawals : option (list WithdrawalRecord.t);
  p_isLoading : option bool;
  p_error : option (option string)
}.

(** A key of the partial overrides the state's, an absent key keeps it. *)
Definition orKeep {A : Type} (new : option A) (old : A) : A :=
  match new with
  | Some v => v
  | None => old
  end.

(** Zustand's [set(partial)]: the shallow merge
    [Object.assign({}, state, partial)]. *)
Definition set (partial : Partial) (state : FinanceState) : FinanceState :=
  {| summary := orKeep (p_summary partial) (summary state);
     transactions := orKeep (p_transactions partial) (transactions state);
     dues := orKeep (p_dues partial) (dues state);
     commissions := orKeep (p_commissions partial) (commissions state);
     withdrawals := orKeep (p_withdrawals partial) (withdrawals state);
     isLoading := orKeep (p_isLoading partial) (isLoading state);
     error := orKeep (p_error partial) (error state) |}.

(** [initialState]. *)
Definition initialState : FinanceState :=
  {| summary := None; transactions := []; dues := []; commissions := [];
     withdrawals := []; isLoading := false; error := None |}.

(** [initialState] seen as the argument of [set]: all seven keys present. *)
Definition allKeys (s : FinanceState) : Partial :=
  {| p_summary := Some (summary s); p_transactions := Some (transactions s);
     p_dues := Some (dues s); p_commissions := Some (commissions s);
     p_withdrawals := Some (withdrawals s); p_isLoading := Some (isLoading s);
     p_error := Some (error s) |}.

(** The actions of the store, each a call of [set] on a one-key object;
    [reset] hands it [initialState]. *)
Definition setSummary (summary : FinanceSummary.t) : FinanceState -> FinanceState :=
  set {| p_summary := Some (Some summary); p_transactions := None; p_dues := None;
         p_commissions := None; p_withdrawals := None; p_isLoading := None;
         p_error := None |}.

Definition setTransactions (transactions : list Transaction.t) : FinanceState -> FinanceState :=
  set {| p_summary := None; p_transactions := Some transactions; p_dues := None;
         p_commissions := None; p_withdrawals := None; p_isLoading := None;
         p_error := None |}.

Definition setDues (dues : list DueRecord.t) : FinanceState -> FinanceState :=
  set {| p_summary := None; p_transactions := None; p_dues := Some dues;
         p_commissions := None; p_withdrawals := None; p_isLoading := None;
         p_error := None |}.

Definition setCommissions (commissions : list CommissionRecord.t) : FinanceState -> FinanceState :=
  set {| p_summary := None; p_transactions := None; p_dues := None;
         p_commissions := Some commissions; p_withdrawals := None; p_isLoading := None;
         p_error := None |}.

Definition setWithdrawals (withdrawals : list WithdrawalRecord.t) : FinanceState -> FinanceState :=
  set {| p_summary := None; p_transactions := None; p_dues := None;
         p_commissions := None; p_withdrawals := Some withdrawals; p_isLoading := None;
         p_error := None |}.

Definition setLoading (isLoading : bool) : FinanceState -> FinanceState :=
  set {| p_summary := None; p_transactions := None; p_dues := None;
         p_commissions := None; p_withdrawals := None; p_isLoading := Some isLoading;
         p_error := None |}.

Definition setError (error : option string) : FinanceState -> FinanceState :=
  set {| p_summary := None; p_transactions := None; p_dues := None;
         p_commissions := None; p_withdrawals := None; p_isLoading := None;
         p_error := Some error |}.

Definition reset : FinanceState -> FinanceState := set (allKeys initialState).

End financeStore.

(** ** Side effects of the screens *)

(** [Haptics.impactAsync] and [Haptics.notificationAsync], by style. *)
Inductive HapticFeedback : Set :=
  | ImpactLight
  | ImpactMedium
  | NotificationSuccess
  | NotificationError.

(** What a handler does besides updating component state, in order. *)
Inductive Effect : Set :=
  | Haptics (h : HapticFeedback)
  | Shake
  | OnVerify (otp : string)
  | OnWithdraw.


(** ** OTP screen (presentation/screens/auth, OTPScreen) *)

Module OTPScreen.

Definition OTP_LENGTH : nat := 6.

(** A pending [setTimeout]: milliseconds left and the OTP its callback
    closed over. *)
Record VerifyTimer : Set := {
  remaining : Z;
  otpValue : string
}.

(** The component state [handleVerify] reads and writes, the timers it has
    armed and the log of effects it has fired. *)
Record t : Set := {
  otp : list string;
  isLoading : bool;
  error : string;
  timers : list VerifyTimer;
  effects : list Effect
}.

(** The message [handleVerify] shows on failure. *)
Definition invalidOtpMessage : string := "Invalid OTP. Please try again.".

(** [handleVerify]: raise the loading flag and arm a 1500 ms timer. *)
Definition handleVerify (otpValue : string) (st : t) : t :=
  {| otp := otp st;
     isLoading := true;
     error := error st;
     timers := timers st ++ [{| remaining := 1500; otpValue := otpValue |}];
     effects := effects st |}.

(** The callback of that timer. *)
Definition verifyTimeout (otpValue : string) (st : t) : t :=
  if String.eqb otpValue "000000" then
    {| otp := otp st;
       isLoading := false;
       error := invalidOtpMessage;
       timers := timers st;
       effects := effects st ++ [Shake; Haptics NotificationError] |}
  else
    {| otp := otp st;
       isLoading := false;
       error := error st;
       timers := timers st;
       effects := effects st ++ [Haptics NotificationSuccess; OnVerify otpValue] |}.

(** Let [ms] milliseconds pass: due timers run in the order they were armed,
    the others get closer. *)
Fixpoint runTimers (ms : Z) (pending : list VerifyTimer) (st : t) : t :=
  match pending with
  | [] => st
  | tm :: rest =>
      if remaining tm <=? ms then
        runTimers ms rest (verifyTimeout (otpValue tm) st)
      else
        let st' := runTimers ms rest st in
        {| otp := otp st';
           isLoading := isLoading st';
           error := error st';
           timers := {| remaining := remaining tm - ms; otpValue := otpValue tm |} :: timers st';
           effects := effects st' |}
  end.

(** The screen after [ms] milliseconds. *)
Definition advance (ms : Z) (st : t) : t :=
  runTimers ms (timers st)
    {| otp := otp st; isLoading := isLoading st; error := error st;
       timers := []; effects := effects st |}.

(** [otp.join('')]. *)
Definition joinOtp (boxes : list string) : string := String.concat "" boxes.

(** The Verify button: [Button] ignores the press when [disabled || loading],
    otherwise gives light haptic feedback and calls [handleVerify]. *)
Definition pressVerify (st : t) : t :=
  if negb (Nat.eqb (String.length (joinOtp (otp st))) OTP_LENGTH) || isLoading st then st
  else
    handleVerify (joinOtp (otp st))
      {| otp := otp st; isLoading := isLoading st; error := error st;
         timers := timers st; effects := effects st ++ [Haptics ImpactLight] |}.

(** The screen as first rendered: six empty boxes. *)
Definition initial : t :=
  {| otp := repeat ""%string OTP_LENGTH; isLoading := false; error := "";
     timers := []; effects := [] |}.

End OTPScreen.

(** ** Wallet screen (WalletScreen) *)

Module WalletScreen.

(** The shape of the screen's [wallet] object. *)
Record Wallet : Set := {
  availableBalance : number;
  pendingCommission : number;
  dues : number;
  totalEarned : number;
  minWithdrawal : number
}.

(** The mock [wallet] of the screen. *)
Definition wallet : Wallet :=
  {| availableBalance := 3500%float;
     pendingCommission := 1250%float;
     dues := 0%float;
     totalEarned := 15000%float;
     minWithdrawal := 1000%float |}.

(** A wallet holding exactly the minimum, and one a rupee short of it. *)
Definition walletAtMinimum : Wallet :=
  {| availableBalance := 1000%float;
     pendingCommission := 0%float;
     dues := 0%float;
     totalEarned := 1000%float;
     minWithdrawal := 1000%float |}.

Definition walletBelowMinimum : Wallet :=
  {| availableBalance := 999%float;
     pendingCommission := 0%float;
     dues := 0%float;
     totalEarned := 999%float;
     minWithdrawal := 1000%float |}.

(** The [disabled] prop of the withdraw button. *)
Definition withdrawDisabled (w : Wallet) : bool :=
  (availableBalance w <? minWithdrawal w)%float.

(** Pressing the withdraw button: a disabled [TouchableOpacity] swallows the
    press; otherwise [onPress] gives medium haptic feedback and calls
    [onWithdraw]. *)
Definition pressWithdraw (w : Wallet) : list Effect :=
  if withdrawDisabled w then [] else [Haptics ImpactMedium; OnWithdraw].

End WalletScreen.

(** ** Due clearing *)

(** The repository declares the record types [DueRecord] and
    [CommissionRecord] and nothing that clears a due or moves a commission;
    the operation below is modelled from the specification. *)

(** Modelled from the spec: the dues and the commissions a request to clear
    a due works on. *)
Record Ledger : Set := {
  ledgerDues : list DueRecord.t;
  ledgerCommissions : list CommissionRecord.t
}.

(** Modelled from the spec: the due a request names, by its record id. *)
Definition findDue (dueId : string) (l : Ledger) : option DueRecord.t :=
  find (fun d => String.eqb (DueRecord.id d) dueId) (ledgerDues l).

(** Modelled from the spec: the named due becomes [cleared], by payment or
    by commission offset. *)
Definition markCleared (dueId : string) (via : ClearedVia) (d : DueRecord.t) : DueRecord.t :=
  if String.eqb (DueRecord.id d) dueId then
    {| DueRecord.id := DueRecord.id d;
       DueRecord.eventId := DueRecord.eventId d;
       DueRecord.eventTitle := DueRecord.eventTitle d;
       DueRecord.amount := DueRecord.amount d;
       DueRecord.currency := DueRecord.currency d;
       DueRecord.status := DueStatus.cleared;
       DueRecord.clearedVia := Some via;
       DueRecord.createdAt := DueRecord.createdAt d;
       DueRecord.clearedAt := DueRecord.clearedAt d |}
  else d.

(** Modelled from the spec: the commission lifecycle starts in [pending]. *)
Definition isPending (c : CommissionRecord.t) : bool :=
  match CommissionRecord.status c with
  | CommissionStatus.pending => true
  | _ => false
  end.

(** Modelled from the spec: a commission after one more due of event
    [eventId] has been cleared.  A commission of that event counts the due;
    if it was [pending] and the count now equals [totalParticipants] (strict
    equality, all or nothing) it becomes [available]. *)
Definition countClearedDue (eventId : string) (c : CommissionRecord.t) : CommissionRecord.t :=
  if String.eqb (CommissionRecord.eventId c) eventId then
    let cleared := (CommissionRecord.participantsDuesCleared c + 1)%float in
    {| CommissionRecord.id := CommissionRecord.id c;
       CommissionRecord.eventId := CommissionRecord.eventId c;
       CommissionRecord.eventTitle := CommissionRecord.eventTitle c;
       CommissionRecord.totalGenerated := CommissionRecord.totalGenerated c;
       CommissionRecord.commissionRate := CommissionRecord.commissionRate c;
       CommissionRecord.grossAmount := CommissionRecord.grossAmount c;
       CommissionRecord.status :=
         if isPending c && (cleared =? CommissionRecord.totalParticipants c)%float
         then CommissionStatus.available
         else CommissionRecord.status c;
       CommissionRecord.participantsDuesCleared := cleared;
       CommissionRecord.totalParticipants := CommissionRecord.totalParticipants c;
       CommissionRecord.createdAt := CommissionRecord.createdAt c;
       CommissionRecord.availableAt := CommissionRecord.availableAt c |}
  else c.

(** Modelled from the spec: the request to mark a due as cleared, missing
    from the repository.  A due that is already cleared, or unknown, is left
    alone together with every commission; a pending due becomes [cleared] and
    the commissions of its event count it. *)
Definition clearDue (dueId : string) (via : ClearedVia) (l : Ledger) : Ledger :=
  match findDue dueId l with
  | None => l
  | Some d =>
      match DueRecord.status d with
      | DueStatus.cleared => l
      | DueStatus.pending =>
          {| ledgerDues := map (markCleared dueId via) (ledgerDues l);
             ledgerCommissions :=
               map (countClearedDue (DueRecord.eventId d)) (ledgerCommissions l) |}
      end
  end.

(** The spec's third scenario: an event with three participants, next to a
    commission of another event. *)
Definition sampleDue (id : string) (status : DueStatus.t) : DueRecord.t :=
  {| DueRecord.id := id; DueRecord.eventId := "event-1"; DueRecord.eventTitle := "Trek";
     DueRecord.amount := DUE_AMOUNT; DueRecord.currency := "INR";
     DueRecord.status := status; DueRecord.clearedVia := None;
     DueRecord.createdAt := "2024-01-01T00:00:00.000Z"; DueRecord.clearedAt := None |}.

Definition sampleCommission (eventId : string) (cleared : number) : CommissionRecord.t :=
  {| CommissionRecord.id := "commission-1"; CommissionRecord.eventId := eventId;
     CommissionRecord.eventTitle := "Trek"; CommissionRecord.totalGenerated := 75;
     CommissionRecord.commissionRate := COMMISSION_RATE; CommissionRecord.grossAmount := 60;
     CommissionRecord.status := CommissionStatus.pending;
     CommissionRecord.participantsDuesCleared := cleared;
     CommissionRecord.totalParticipants := 3;
     CommissionRecord.createdAt := "2024-01-01T00:00:00.000Z";
     CommissionRecord.availableAt := None |}.

Definition sampleLedger : Ledger :=
  {| ledgerDues := [sampleDue "due-1" DueStatus.pending; sampleDue "due-2" DueStatus.pending;
                    sampleDue "due-3" DueStatus.pending];
     ledgerCommissions := [sampleCommission "event-1" 0; sampleCommission "event-2" 2] |}.

(** ** JavaScript strings and [Math] *)

(** The text of an input box: a JS string as its sequence of UTF-16 code
    units.  (Identifiers, messages and URIs, which the code only compares,
    stores or displays, are Rocq strings.) *)
Definition jsString : Set := list N.

(** The code units of an ASCII literal. *)
Definition lit (s : string) : jsString :=
  map Ascii.N_of_ascii (list_ascii_of_string s).

(** The JS string of digits as a Rocq string. *)
Definition toString (s : jsString) : string :=
  string_of_list_ascii (map Ascii.ascii_of_N s).

(** The class [\d] of a regular expression: the ten ASCII digits. *)
Definition isDigit (c : N) : bool := ((48 <=? c) && (c <=? 57))%N.

(** White space and line terminators, the code units
    [String.prototype.trim] strips: TAB, LF, VT, FF, CR, SP, NBSP, U+1680,
    U+2000 to U+200A, U+2028, U+2029, U+202F, U+205F, U+3000 and U+FEFF. *)
Definition isWhiteSpace (c : N) : bool :=
  existsb (N.eqb c)
    [9; 10; 11; 12; 13; 32; 160; 5760; 8232; 8233; 8239; 8287; 12288; 65279]%N
  || ((8192 <=? c) && (c <=? 8202))%N.

Fixpoint trimStart (s : jsString) : jsString :=
  match s with
  | [] => []
  | c :: rest => if isWhiteSpace c then trimStart rest else s
  end.

Definition trimEnd (s : jsString) : jsString := rev (trimStart (rev s)).

(** [s.trim()]. *)
Definition trim (s : jsString) : jsString := trimEnd (trimStart s).

(** [!s]: the empty string is the only falsy string. *)
Definition isEmpty (s : jsString) : bool :=
  match s with
  | [] => true
  | _ :: _ => false
  end.

(** [array[i] = v] on a copy.  Past the end JS extends the array with holes,
    which read as [undefined] and which [join] prints as the empty string;
    [hole] stands for them. *)
Fixpoint assign {A : Type} (hole : A) (i : nat) (v : A) (l : list A) : list A :=
  match i, l with
  | O, [] => [v]
  | O, _ :: rest => v :: rest
  | S i', [] => hole :: assign hole i' v []
  | S i', x :: rest => x :: assign hole i' v rest
  end.

(** [array.filter((x, i) => keep(x, i))], the index starting at [i]. *)
Fixpoint filteri {A : Type} (keep : A -> nat -> bool) (i : nat) (l : list A) : list A :=
  match l with
  | [] => []
  | x :: rest =>
      if keep x i then x :: filteri keep (S i) rest else filteri keep (S i) rest
  end.

(** [Math.max(x, y)] and [Math.min(x, y)]: [NaN] if either argument is
    [NaN]; [+0] is greater than [-0]. *)
Definition Math_max (x y : number) : number :=
  if is_nan x || is_nan y then nan
  else if (x <? y)%float then y
  else if (y <? x)%float then x
  else if get_sign x then y else x.

Definition Math_min (x y : number) : number :=
  if is_nan x || is_nan y then nan
  else if (x <? y)%float then x
  else if (y <? x)%float then y
  else if get_sign x then x else y.

(** ** Pending [setTimeout]s *)

Module Timeout.

(** A pending timeout: milliseconds left, and what its callback closed
    over. *)
Record t (A : Type) : Type := {
  remaining : Z;
  payload : A
}.

Arguments remaining {A} _.
Arguments payload {A} _.

(** After [ms] milliseconds: what the due timeouts closed over, in the order
    they were armed, and the timeouts still pending. *)
Fixpoint elapse {A : Type} (ms : Z) (pending : list (t A)) : list A * list (t A) :=
  match pending with
  | [] => ([], [])
  | tm :: rest =>
      let '(due, later) := elapse ms rest in
      if remaining tm <=? ms then (payload tm :: due, later)
      else (due, {| remaining := remaining tm - ms; payload := payload tm |} :: later)
  end.

End Timeout.

(** ** User entities (domain/entities/User) *)

Module Gender.
Inductive t : Set := male | female | other | prefer_not_to_say.
End Gender.

Module KYCStatus.
Inductive t : Set := not_started | pending | verified | rejected.
End KYCStatus.

Module UserLocation.
Record t : Set := {
  latitude : number;
  longitude : number;
  city : string;
  state : option string;
  country : string
}.
End UserLocation.

Module UserKYC.
Record t : Set := {
  status : KYCStatus.t;
  selfieUrl : option string;
  idUrl : option string;
  verifiedAt : option string;
  rejectionReason : option string
}.
End UserKYC.

Module UserFinance.
Record t : Set := {
  dues : number;
  pendingCommission : number;
  availableCommission : number;
  totalEarned : number;
  totalWithdrawn : number
}.
End UserFinance.

Module UserStats.
Record t : Set := {
  eventsJoined : number;
  eventsCreated : number;
  eventsCompleted : number;
  friendsCount : number;
  averageRating : number;
  totalRatings : number
}.
End UserStats.

Module User.
Record t : Set := {
  id : string;
  phoneNumber : jsString;
  email : option string;
  fullName : string;
  displayName : option string;
  avatarUrl : option string;
  dateOfBirth : option string;
  gender : option Gender.t;
  bio : option string;
  location : option UserLocation.t;
  kyc : UserKYC.t;
  finance : UserFinance.t;
  stats : UserStats.t;
  referralCode : string;
  referredBy : option string;
  isOnline : bool;
  lastActiveAt : option string;
  createdAt : string;
  updatedAt : string
}.
End User.

Module UserSummary.
Record t : Set := {
  id : string;
  displayName : string;
  avatarUrl : option string;
  gender : option Gender.t;
  age : option number;
  isOnline : bool;
  averageRating : number
}.
End UserSummary.

(** ** Event entities (domain/entities/Event) *)

Inductive EventType : Set := sponsored | user_created.

Module EventStatus.
Inductive t : Set := upcoming | ongoing | completed | cancelled.
End EventStatus.

Module EventCategory.
Inductive t : Set :=
  | sports | music | food | travel | games | movies | art | tech | fitness
  | nightlife | outdoor | learning | networking | other.
End EventCategory.

Module EventLocation.
Record t : Set := {
  latitude : number;
  longitude : number;
  address : string;
  venueName : string;
  city : string;
  state : option string
}.
End EventLocation.

Module EventEligibility.
Record t : Set := {
  genderAllowed : list Gender.t;
  minAge : number;
  maxAge : number;
  maxDistance : option number;
  memberLimit : number;
  requiresApproval : bool
}.
End EventEligibility.

Module EventGenderRatio.
Record t : Set := {
  male : number;
  female : number;
  other : number
}.
End EventGenderRatio.

Module EventPricing.
Record t : Set := {
  isFree : bool;
  price : option number;
  currency : string;
  includesGST : bool
}.
End EventPricing.

Inductive DiscountType : Set := percentage | fixed.

Module EventCoupon.
Record t : Set := {
  code : string;
  discount : number;
  discountType : DiscountType;
  maxUses : number;
  usedCount : number;
  validUntil : string
}.
End EventCoupon.

Module EventAdmin.
Record t : Set := {
  id : string;
  displayName : string;
  avatarUrl : option string;
  averageRating : number;
  eventsCreated : number;
  isKYCVerified : bool
}.
End EventAdmin.

Module Event.
Record t : Set := {
  id : string;
  type : EventType;
  status : EventStatus.t;
  category : EventCategory.t;
  title : string;
  description : string;
  location : EventLocation.t;
  startTime : string;
  endTime : string;
  imageUrls : list string;
  coverImageUrl : option string;
  admin : EventAdmin.t;
  eligibility : EventEligibility.t;
  pricing : EventPricing.t;
  coupons : list EventCoupon.t;
  rules : list string;
  participants : list UserSummary.t;
  participantCount : number;
  waitlistCount : number;
  genderRatio : EventGenderRatio.t;
  averageAge : number;
  totalDuesGenerated : number;
  isJoined : bool;
  isPendingApproval : bool;
  isWaitlisted : bool;
  canLeave : bool;
  leaveDeadline : option string;
  createdAt : string;
  updatedAt : string
}.
End Event.

Module EventSummary.
(** [Pick<EventLocation, 'venueName' | 'city'>]. *)
Record Location : Set := {
  venueName : string;
  city : string
}.
Record t : Set := {
  id : string;
  type : EventType;
  status : EventStatus.t;
  category : EventCategory.t;
  title : string;
  coverImageUrl : option string;
  location : Location;
  startTime : string;
  participantCount : number;
  memberLimit : number;
  pricing : EventPricing.t;
  averageRating : option number;
  distance : option number
}.
End EventSummary.

Definition getEventCategoryIcon (category : EventCategory.t) : string :=
  match category with
  | EventCategory.sports => "basketball-outline"
  | EventCategory.music => "musical-notes-outline"
  | EventCategory.food => "restaurant-outline"
  | EventCategory.travel => "airplane-outline"
  | EventCategory.games => "game-controller-outline"
  | EventCategory.movies => "film-outline"
  | EventCategory.art => "color-palette-outline"
  | EventCategory.tech => "laptop-outline"
  | EventCategory.fitness => "fitness-outline"
  | EventCategory.nightlife => "moon-outline"
  | EventCategory.outdoor => "leaf-outline"
  | EventCategory.learning => "book-outline"
  | EventCategory.networking => "people-outline"
  | EventCategory.other => "ellipsis-horizontal-outline"
  end.

Definition getEventCategoryLabel (category : EventCategory.t) : string :=
  match category with
  | EventCategory.sports => "Sports"
  | EventCategory.music => "Music"
  | EventCategory.food => "Food & Drinks"
  | EventCategory.travel => "Travel"
  | EventCategory.games => "Games"
  | EventCategory.movies => "Movies"
  | EventCategory.art => "Art & Culture"
  | EventCategory.tech => "Tech"
  | EventCategory.fitness => "Fitness"
  | EventCategory.nightlife => "Nightlife"
  | EventCategory.outdoor => "Outdoor"
  | EventCategory.learning => "Learning"
  | EventCategory.networking => "Networking"
  | EventCategory.other => "Other"
  end.

(** ** Notification entities (domain/entities/Notification) *)

Module NotificationType.
Inductive t : Set :=
  | event_join_request
  | event_join_approved
  | event_join_rejected
  | event_reminder
  | event_update
  | event_cancelled
  | event_completed
  | friend_request
  | friend_accepted
  | friend_event_created
  | message_received
  | due_reminder
  | commission_available
  | withdrawal_completed
  | kyc_approved
  | kyc_rejected
  | referral_reward
  | system.

(** [===] on notification types. *)
Definition eqb (a b : t) : bool :=
  match a, b with
  | event_join_request, event_join_request
  | event_join_approved, event_join_approved
  | event_join_rejected, event_join_rejected
  | event_reminder, event_reminder
  | event_update, event_update
  | event_cancelled, event_cancelled
  | event_completed, event_completed
  | friend_request, friend_request
  | friend_accepted, friend_accepted
  | friend_event_created, friend_event_created
  | message_received, message_received
  | due_reminder, due_reminder
  | commission_available, commission_available
  | withdrawal_completed, withdrawal_completed
  | kyc_approved, kyc_approved
  | kyc_rejected, kyc_rejected
  | referral_reward, referral_reward
  | system, system => true
  | _, _ => false
  end.
End NotificationType.

Module NotificationAction.
Record t : Set := {
  label : string;
  route : string;
  params : option (list (string * string))
}.
End NotificationAction.

(** A value of type [unknown] in a notification's [data]: a JSON value. *)
#[warnings="-register-all"]
Inductive JSON : Set :=
  | JNull
  | JBool (b : bool)
  | JNumber (n : number)
  | JString (s : string)
  | JArray (items : list JSON)
  | JObject (members : list (string * JSON)).

Module Notification.
Record t : Set := {
  id : string;
  type : NotificationType.t;
  title : string;
  body : string;
  imageUrl : option string;
  data : option (list (string * JSON));
  action : option NotificationAction.t;
  isRead : bool;
  createdAt : string
}.
End Notification.

Definition getNotificationIcon (type : NotificationType.t) : string :=
  match type with
  | NotificationType.event_join_request => "person-add-outline"
  | NotificationType.event_join_approved => "checkmark-circle-outline"
  | NotificationType.event_join_rejected => "close-circle-outline"
  | NotificationType.event_reminder => "alarm-outline"
  | NotificationType.event_update => "refresh-outline"
  | NotificationType.event_cancelled => "calendar-outline"
  | NotificationType.event_completed => "trophy-outline"
  | NotificationType.friend_request => "people-outline"
  | NotificationType.friend_accepted => "heart-outline"
  | NotificationType.friend_event_created => "sparkles-outline"
  | NotificationType.message_received => "chatbubble-outline"
  | NotificationType.due_reminder => "wallet-outline"
  | NotificationType.commission_available => "cash-outline"
  | NotificationType.withdrawal_completed => "card-outline"
  | NotificationType.kyc_approved => "shield-checkmark-outline"
  | NotificationType.kyc_rejected => "shield-outline"
  | NotificationType.referral_reward => "gift-outline"
  | NotificationType.system => "information-circle-outline"
  end.

Definition getNotificationColor (type : NotificationType.t) : string :=
  let successTypes :=
    [NotificationType.event_join_approved; NotificationType.event_completed;
     NotificationType.friend_accepted; NotificationType.commission_available;
     NotificationType.withdrawal_completed; NotificationType.kyc_approved;
     NotificationType.referral_reward] in
  let warningTypes :=
    [NotificationType.event_reminder; NotificationType.due_reminder;
     NotificationType.event_update] in
  let errorTypes :=
    [NotificationType.event_join_rejected; NotificationType.event_cancelled;
     NotificationType.kyc_rejected] in
  if existsb (NotificationType.eqb type) successTypes then "success"
  else if existsb (NotificationType.eqb type) warningTypes then "warning"
  else if existsb (NotificationType.eqb type) errorTypes then "error"
  else "info".

(** ** Notification store (presentation/store/notificationStore) *)

Module notificationStore.

(** The state of the store.  [unreadCount] is an array length or the literal
    [0]: a natural number. *)
Record NotificationState : Set := {
  notifications : list Notification.t;
  unreadCount : nat;
  isLoading : bool;
  error : option string
}.

(** The object handed to Zustand's [set], or returned by the function handed
    to it: each key is present ([Some]) or absent ([None]). *)
Record Partial : Set := {
  p_notifications : option (list Notification.t);
  p_unreadCount : option nat;
  p_isLoading : option bool;
  p_error : option (option string)
}.

(** Zustand's [set(partial)]: the shallow merge of [partial] into the
    state. *)
Definition set (partial : Partial) (state : NotificationState) : NotificationState :=
  {| notifications := financeStore.orKeep (p_notifications partial) (notifications state);
     unreadCount := financeStore.orKeep (p_unreadCount partial) (unreadCount state);
     isLoading := financeStore.orKeep (p_isLoading partial) (isLoading state);
     error := financeStore.orKeep (p_error partial) (error state) |}.

(** Zustand's [set(state => partial)]. *)
Definition setWith (f : NotificationState -> Partial) (state : NotificationState) :
    NotificationState :=
  set (f state) state.

Definition initialState : NotificationState :=
  {| notifications := []; unreadCount := 0%nat; isLoading := false; error := None |}.

Definition calculateUnreadCount (notifications : list Notification.t) : nat :=
  List.length (filter (fun n => negb (Notification.isRead n)) notifications).

(** [{ ...n, isRead: true }]. *)
Definition read (n : Notification.t) : Notification.t :=
  {| Notification.id := Notification.id n;
     Notification.type := Notification.type n;
     Notification.title := Notification.title n;
     Notification.body := Notification.body n;
     Notification.imageUrl := Notification.imageUrl n;
     Notification.data := Notification.data n;
     Notification.action := Notification.action n;
     Notification.isRead := true;
     Notification.createdAt := Notification.createdAt n |}.

Definition setNotifications (notifications : list Notification.t) :
    NotificationState -> NotificationState :=
  set {| p_notifications := Some notifications;
         p_unreadCount := Some (calculateUnreadCount notifications);
         p_isLoading := None; p_error := None |}.

Definition addNotification (notification : Notification.t) :
    NotificationState -> NotificationState :=
  setWith (fun state =>
    let newNotifications := notification :: notifications state in
    {| p_notifications := Some newNotifications;
       p_unreadCount := Some (calculateUnreadCount newNotifications);
       p_isLoading := None; p_error := None |}).

Definition markAsRead (id : string) : NotificationState -> NotificationState :=
  setWith (fun state =>
    let newNotifications :=
      map (fun n => if String.eqb (Notification.id n) id then read n else n)
          (notifications state) in
    {| p_notifications := Some newNotifications;
       p_unreadCount := Some (calculateUnreadCount newNotifications);
       p_isLoading := None; p_error := None |}).

Definition markAllAsRead : NotificationState -> NotificationState :=
  setWith (fun state =>
    {| p_notifications := Some (map read (notifications state));
       p_unreadCount := Some 0%nat;
       p_isLoading := None; p_error := None |}).

Definition removeNotification (id : string) : NotificationState -> NotificationState :=
  setWith (fun state =>
    let newNotifications :=
      filter (fun n => negb (String.eqb (Notification.id n) id)) (notifications state) in
    {| p_notifications := Some newNotifications;
       p_unreadCount := Some (calculateUnreadCount newNotifications);
       p_isLoading := None; p_error := None |}).

Definition setLoading (isLoading : bool) : NotificationState -> NotificationState :=
  set {| p_notifications := None; p_unreadCount := None;
         p_isLoading := Some isLoading; p_error := None |}.

Definition setError (error : option string) : NotificationState -> NotificationState :=
  set {| p_notifications := None; p_unreadCount := None;
         p_isLoading := None; p_error := Some error |}.

Definition reset : NotificationState -> NotificationState :=
  set {| p_notifications := Some (notifications initialState);
         p_unreadCount := Some (unreadCount initialState);
         p_isLoading := Some (isLoading initialState);
         p_error := Some (error initialState) |}.

(** The unread notifications carrying a given id. *)
Definition unreadWithId (id : string) (l : list Notification.t) : list Notification.t :=
  filter (fun n => String.eqb (Notification.id n) id && negb (Notification.isRead n)) l.

(** A call of one of the store's actions. *)
Inductive Action : Set :=
  | SetNotifications (notifications : list Notification.t)
  | AddNotification (notification : Notification.t)
  | MarkAsRead (id : string)
  | MarkAllAsRead
  | RemoveNotification (id : string)
  | SetLoading (loading : bool)
  | SetError (error : option string)
  | Reset.

Definition dispatch (state : NotificationState) (a : Action) : NotificationState :=
  match a with
  | SetNotifications ns => setNotifications ns state
  | AddNotification n => addNotification n state
  | MarkAsRead id => markAsRead id state
  | MarkAllAsRead => markAllAsRead state
  | RemoveNotification id => removeNotification id state
  | SetLoading b => setLoading b state
  | SetError e => setError e state
  | Reset => reset state
  end.

(** The store after a sequence of calls. *)
Definition run (actions : list Action) (state : NotificationState) : NotificationState :=
  fold_left dispatch actions state.

End notificationStore.

(** A notification for the examples. *)
Definition sampleNotification (id : string) (isRead : bool) : Notification.t :=
  {| Notification.id := id; Notification.type := NotificationType.system;
     Notification.title := "Welcome"; Notification.body := "Hello";
     Notification.imageUrl := None; Notification.data := None;
     Notification.action := None; Notification.isRead := isRead;
     Notification.createdAt := "2024-01-15T10:00:00.000Z" |}.

(** ** Auth store (presentation/store/authStore) *)

Module authStore.

Record AuthState : Set := {
  user : option User.t;
  isAuthenticated : bool;
  isLoading : bool;
  isOnboardingComplete : bool;
  token : option string
}.

Record Partial : Set := {
  p_user : option (option User.t);
  p_isAuthenticated : option bool;
  p_isLoading : option bool;
  p_isOnboardingComplete : option bool;
  p_token : option (option string)
}.

Definition set (partial : Partial) (state : AuthState) : AuthState :=
  {| user := financeStore.orKeep (p_user partial) (user state);
     isAuthenticated := financeStore.orKeep (p_isAuthenticated partial) (isAuthenticated state);
     isLoading := financeStore.orKeep (p_isLoading partial) (isLoading state);
     isOnboardingComplete :=
       financeStore.orKeep (p_isOnboardingComplete partial) (isOnboardingComplete state);
     token := financeStore.orKeep (p_token partial) (token state) |}.

Definition initialState : AuthState :=
  {| user := None; isAuthenticated := false; isLoading := false;
     isOnboardingComplete := false; token := None |}.

(** [!!user]. *)
Definition truthy (user : option User.t) : bool :=
  match user with
  | Some _ => true
  | None => false
  end.

Definition setUser (user : option User.t) : AuthState -> AuthState :=
  set {| p_user := Some user; p_isAuthenticated := Some (truthy user);
         p_isLoading := None; p_isOnboardingComplete := None; p_token := None |}.

Definition setToken (token : option string) : AuthState -> AuthState :=
  set {| p_user := None; p_isAuthenticated := None; p_isLoading := None;
         p_isOnboardingComplete := None; p_token := Some token |}.

Definition setLoading (isLoading : bool) : AuthState -> AuthState :=
  set {| p_user := None; p_isAuthenticated := None; p_isLoading := Some isLoading;
         p_isOnboardingComplete := None; p_token := None |}.

Definition setOnboardingComplete (isOnboardingComplete : bool) : AuthState -> AuthState :=
  set {| p_user := None; p_isAuthenticated := None; p_isLoading := None;
         p_isOnboardingComplete := Some isOnboardingComplete; p_token := None |}.

(** [{ ...user, kyc: { ...user.kyc, status } }]. *)
Definition withKYCStatus (status : KYCStatus.t) (user : User.t) : User.t :=
  {| User.id := User.id user;
     User.phoneNumber := User.phoneNumber user;
     User.email := User.email user;
     User.fullName := User.fullName user;
     User.displayName := User.displayName user;
     User.avatarUrl := User.avatarUrl user;
     User.dateOfBirth := User.dateOfBirth user;
     User.gender := User.gender user;
     User.bio := User.bio user;
     User.location := User.location user;
     User.kyc :=
       {| UserKYC.status := status;
          UserKYC.selfieUrl := UserKYC.selfieUrl (User.kyc user);
          UserKYC.idUrl := UserKYC.idUrl (User.kyc user);
          UserKYC.verifiedAt := UserKYC.verifiedAt (User.kyc user);
          UserKYC.rejectionReason := UserKYC.rejectionReason (User.kyc user) |};
     User.finance := User.finance user;
     User.stats := User.stats user;
     User.referralCode := User.referralCode user;
     User.referredBy := User.referredBy user;
     User.isOnline := User.isOnline user;
     User.lastActiveAt := User.lastActiveAt user;
     User.createdAt := User.createdAt user;
     User.updatedAt := User.updatedAt user |}.

Definition updateKYCStatus (status : KYCStatus.t) (state : AuthState) : AuthState :=
  match user state with
  | Some user =>
      set {| p_user := Some (Some (withKYCStatus status user)); p_isAuthenticated := None;
             p_isLoading := None; p_isOnboardingComplete := None; p_token := None |}
          state
  | None => state
  end.

Definition logout : AuthState -> AuthState :=
  set {| p_user := Some None; p_isAuthenticated := Some false; p_isLoading := None;
         p_isOnboardingComplete := None; p_token := Some None |}.

Definition reset : AuthState -> AuthState :=
  set {| p_user := Some (user initialState);
         p_isAuthenticated := Some (isAuthenticated initialState);
         p_isLoading := Some (isLoading initialState);
         p_isOnboardingComplete := Some (isOnboardingComplete initialState);
         p_token := Some (token initialState) |}.

(** A call of one of the store's actions. *)
Inductive Action : Set :=
  | SetUser (user : option User.t)
  | SetToken (token : option string)
  | SetLoading (loading : bool)
  | SetOnboardingComplete (complete : bool)
  | UpdateKYCStatus (status : KYCStatus.t)
  | Logout
  | Reset.

Definition dispatch (state : AuthState) (a : Action) : AuthState :=
  match a with
  | SetUser u => setUser u state
  | SetToken t => setToken t state
  | SetLoading b => setLoading b state
  | SetOnboardingComplete b => setOnboardingComplete b state
  | UpdateKYCStatus s => updateKYCStatus s state
  | Logout => logout state
  | Reset => reset state
  end.

Definition run (actions : list Action) (state : AuthState) : AuthState :=
  fold_left dispatch actions state.

End authStore.

(** ** Event store (presentation/store/eventStore) *)

Module eventStore.

(** The ranges of a filter: [{ min, max }] and [{ start, end }] ([end] is
    a keyword here, hence [end_]). *)
Record NumberRange : Set := {
  min : number;
  max : number
}.

Record DateRange : Set := {
  start : string;
  end_ : string
}.

(** [EventFilters], which is also [Partial<EventFilters>]: every key is
    optional.  A key is absent ([None]), or present with a value that may be
    [undefined] ([Some None]). *)
Record EventFilters : Set := {
  category : option (option EventCategory.t);
  priceRange : option (option NumberRange);
  distance : option (option number);
  dateRange : option (option DateRange);
  genderAllowed : option (option (list string));
  ageRange : option (option NumberRange)
}.




Record EventState : Set := {
  events : list EventSummary.t;
  featuredEvents : list EventSummary.t;
  nearbyEvents : list EventSummary.t;
  userEvents : list EventSummary.t;
  selectedEvent : option Event.t;
  filters : EventFilters;
  isLoading : bool;
  error : option string
}.

Record Partial : Set := {
  p_events : option (list EventSummary.t);
  p_featuredEvents : option (list EventSummary.t);
  p_nearbyEvents : option (list EventSummary.t);
  p_userEvents : option (list EventSummary.t);
  p_selectedEvent : option (option Event.t);
  p_filters : option EventFilters;
  p_isLoading : option bool;
  p_error : option (option string)
}.

Definition set (partial : Partial) (state : EventState) : EventState :=
  {| events := financeStore.orKeep (p_events partial) (events state);
     featuredEvents := financeStore.orKeep (p_featuredEvents partial) (featuredEvents state);
     nearbyEvents := financeStore.orKeep (p_nearbyEvents partial) (nearbyEvents state);
     userEvents := financeStore.orKeep (p_userEvents partial) (userEvents state);
     selectedEvent := financeStore.orKeep (p_selectedEvent partial) (selectedEvent state);
     filters := financeStore.orKeep (p_filters partial) (filters state);
     isLoading := financeStore.orKeep (p_isLoading partial) (isLoading state);
     error := financeStore.orKeep (p_error partial) (error state) |}.

Definition setWith (f : EventState -> Partial) (state : EventState) : EventState :=
  set (f state) state.

(** [initialFilters]: the empty object. *)
Definition initialFilters : EventFilters :=
  {| category := None; priceRange := None; distance := None; dateRange := None;
     genderAllowed := None; ageRange := None |}.

Definition initialState : EventState :=
  {| events := []; featuredEvents := []; nearbyEvents := []; userEvents := [];
     selectedEvent := None; filters := initialFilters; isLoading := false;
     error := None |}.

Definition setEvents (events : list EventSummary.t) : EventState -> EventState :=
  set {| p_events := Some events; p_featuredEvents := None; p_nearbyEvents := None;
         p_userEvents := None; p_selectedEvent := None; p_filters := None;
         p_isLoading := None; p_error := None |}.

Definition setFeaturedEvents (featuredEvents : list EventSummary.t) : EventState -> EventState :=
  set {| p_events := None; p_featuredEvents := Some featuredEvents; p_nearbyEvents := None;
         p_userEvents := None; p_selectedEvent := None; p_filters := None;
         p_isLoading := None; p_error := None |}.

Definition setNearbyEvents (nearbyEvents : list EventSummary.t) : EventState -> EventState :=
  set {| p_events := None; p_featuredEvents := None; p_nearbyEvents := Some nearbyEvents;
         p_userEvents := None; p_selectedEvent := None; p_filters := None;
         p_isLoading := None; p_error := None |}.

Definition setUserEvents (userEvents : list EventSummary.t) : EventState -> EventState :=
  set {| p_events := None; p_featuredEvents := None; p_nearbyEvents := None;
         p_userEvents := Some userEvents; p_selectedEvent := None; p_filters := None;
         p_isLoading := None; p_error := None |}.

Definition setSelectedEvent (selectedEvent : option Event.t) : EventState -> EventState :=
  set {| p_events := None; p_featuredEvents := None; p_nearbyEvents := None;
         p_userEvents := None; p_selectedEvent := Some selectedEvent; p_filters := None;
         p_isLoading := None; p_error := None |}.



Definition setLoading (isLoading : bool) : EventState -> EventState :=
  set {| p_events := None; p_featuredEvents := None; p_nearbyEvents := None;
         p_userEvents := None; p_selectedEvent := None; p_filters := None;
         p_isLoading := Some isLoading; p_error := None |}.

Definition setError (error : option string) : EventState -> EventState :=
  set {| p_events := None; p_featuredEvents := None; p_nearbyEvents := None;
         p_userEvents := None; p_selectedEvent := None; p_filters := None;
         p_isLoading := None; p_error := Some error |}.

Definition reset : EventState -> EventState :=
  set {| p_events := Some (events initialState);
         p_featuredEvents := Some (featuredEvents initialState);
         p_nearbyEvents := Some (nearbyEvents initialState);
         p_userEvents := Some (userEvents initialState);
         p_selectedEvent := Some (selectedEvent initialState);
         p_filters := Some (filters initialState);
         p_isLoading := Some (isLoading initialState);
         p_error := Some (error initialState) |}.

End eventStore.

(** ** Login screen (presentation/screens/auth, LoginScreen) *)

Module LoginScreen.

(** The [errors] object: a key is present when the field is in error. *)
Module Errors.
Record t : Set := {
  phone : option string;
  password : option string
}.
End Errors.

(** What the screen does besides updating its state, in order. *)
Inductive Effect : Set :=
  | Haptics (h : HapticFeedback)
  | OnLogin (phone password : jsString).

(** The component state, the pending timeouts of [handleLogin] (each closed
    over the phone and the password of its press) and the log of effects. *)
Record t : Set := {
  phone : jsString;
  password : jsString;
  errors : Errors.t;
  isLoading : bool;
  timers : list (Timeout.t (jsString * jsString));
  effects : list Effect
}.

(** [/^[6-9]\d{9}$/.test(digits)]. *)
Definition isIndianMobile (digits : jsString) : bool :=
  match digits with
  | [] => false
  | c :: rest =>
      ((54 <=? c) && (c <=? 57))%N && forallb isDigit rest
      && Nat.eqb (List.length rest) 9
  end.

(** The two fields of [newErrors] in [validateForm];
    [phone.replace(/\D/g, '')] keeps the digits of [phone]. *)
Definition phoneError (phone : jsString) : option string :=
  if isEmpty (trim phone) then Some "Phone number is required"%string
  else if negb (isIndianMobile (filter isDigit phone)) then
    Some "Enter a valid 10-digit Indian mobile number"%string
  else None.

Definition passwordError (password : jsString) : option string :=
  if isEmpty (trim password) then Some "Password is required"%string
  else if (List.length password <? 6)%nat then
    Some "Password must be at least 6 characters"%string
  else None.

(** [Object.keys(newErrors).length === 0]. *)
Definition noKeys (e : Errors.t) : bool :=
  match Errors.phone e, Errors.password e with
  | None, None => true
  | _, _ => false
  end.

(** [validateForm]: its result and the state with the new [errors]. *)
Definition validateForm (st : t) : bool * t :=
  let newErrors :=
    {| Errors.phone := phoneError (phone st);
       Errors.password := passwordError (password st) |} in
  (noKeys newErrors,
   {| phone := phone st; password := password st; errors := newErrors;
      isLoading := isLoading st; timers := timers st; effects := effects st |}).

(** [handleLogin]. *)
Definition handleLogin (st : t) : t :=
  let '(valid, st) := validateForm st in
  if negb valid then st
  else
    {| phone := phone st; password := password st; errors := errors st;
       isLoading := true;
       timers := timers st ++
         [{| Timeout.remaining := 1500; Timeout.payload := (phone st, password st) |}];
       effects := effects st ++ [Haptics ImpactMedium] |}.

(** The callback of the timeout [handleLogin] arms. *)
Definition loginTimeout (closure : jsString * jsString) (st : t) : t :=
  {| phone := phone st; password := password st; errors := errors st;
     isLoading := false; timers := timers st;
     effects := effects st ++ [OnLogin (fst closure) (snd closure)] |}.

(** The screen after [ms] milliseconds. *)
Definition advance (ms : Z) (st : t) : t :=
  let '(due, later) := Timeout.elapse ms (timers st) in
  fold_left (fun s closure => loginTimeout closure s) due
    {| phone := phone st; password := password st; errors := errors st;
       isLoading := isLoading st; timers := later; effects := effects st |}.

(** The inputs: [onChangeText={setPhone}] and [onChangeText={setPassword}]. *)
Definition setPhone (value : jsString) (st : t) : t :=
  {| phone := value; password := password st; errors := errors st;
     isLoading := isLoading st; timers := timers st; effects := effects st |}.

Definition setPassword (value : jsString) (st : t) : t :=
  {| phone := phone st; password := value; errors := errors st;
     isLoading := isLoading st; timers := timers st; effects := effects st |}.

(** The Sign In button: [Button] ignores the press while [loading],
    otherwise gives light haptic feedback and calls [handleLogin]. *)
Definition pressSignIn (st : t) : t :=
  if isLoading st then st
  else
    handleLogin
      {| phone := phone st; password := password st; errors := errors st;
         isLoading := isLoading st; timers := timers st;
         effects := effects st ++ [Haptics ImpactLight] |}.

(** The screen as first rendered. *)
Definition initial : t :=
  {| phone := []; password := [];
     errors := {| Errors.phone := None; Errors.password := None |};
     isLoading := false; timers := []; effects := [] |}.

End LoginScreen.

(** ** OTP screen: the boxes, the keyboard and the resend countdown *)

Module OTPEntry.

(** Calls on the input boxes, on the keyboard and of the [onResend] prop. *)
Inductive Call : Set :=
  | Focus (index : nat)
  | KeyboardDismiss
  | OnResend.

(** The state of [OTPScreen]: what [handleVerify] works on ([screen]: the
    boxes, the loading flag, the error, the verification timeouts, the haptic
    and [onVerify] log), the active box, the resend countdown in seconds (an
    integer between 0 and 30) and the log of calls. *)
Record t : Set := {
  screen : OTPScreen.t;
  activeIndex : nat;
  resendTimer : Z;
  calls : list Call
}.

(** [setOtp], [setError] and a haptic call, on the part [handleVerify]
    works on. *)
Definition setOtp (otp : list string) (s : OTPScreen.t) : OTPScreen.t :=
  {| OTPScreen.otp := otp; OTPScreen.isLoading := OTPScreen.isLoading s;
     OTPScreen.error := OTPScreen.error s; OTPScreen.timers := OTPScreen.timers s;
     OTPScreen.effects := OTPScreen.effects s |}.

Definition setError (error : string) (s : OTPScreen.t) : OTPScreen.t :=
  {| OTPScreen.otp := OTPScreen.otp s; OTPScreen.isLoading := OTPScreen.isLoading s;
     OTPScreen.error := error; OTPScreen.timers := OTPScreen.timers s;
     OTPScreen.effects := OTPScreen.effects s |}.

Definition feedback (h : HapticFeedback) (s : OTPScreen.t) : OTPScreen.t :=
  {| OTPScreen.otp := OTPScreen.otp s; OTPScreen.isLoading := OTPScreen.isLoading s;
     OTPScreen.error := OTPScreen.error s; OTPScreen.timers := OTPScreen.timers s;
     OTPScreen.effects := OTPScreen.effects s ++ [Haptics h] |}.

(** [inputRefs.current[index]?.focus()]: there is a ref for each box
    rendered. *)
Definition focus (index : nat) (st : t) : list Call :=
  if (index <? List.length (OTPScreen.otp (screen st)))%nat then [Focus index] else [].

(** [pastedOtp.forEach((digit, i) => { if (i < OTP_LENGTH) newOtp[i] = digit })],
    from index [i] on. *)
Fixpoint forEachAssign (i : nat) (pastedOtp newOtp : list string) : list string :=
  match pastedOtp with
  | [] => newOtp
  | digit :: rest =>
      forEachAssign (S i) rest
        (if (i <? OTPScreen.OTP_LENGTH)%nat then assign ""%string i digit newOtp else newOtp)
  end.

(** [handleOtpChange]. *)
Definition handleOtpChange (value : jsString) (index : nat) (st : t) : t :=
  if negb (forallb isDigit value) then st
  else if (1 <? List.length value)%nat then
    let pastedOtp := map (fun digit => toString [digit]) (firstn OTPScreen.OTP_LENGTH value) in
    let newOtp := forEachAssign 0 pastedOtp (OTPScreen.otp (screen st)) in
    let lastIndex := Nat.min (List.length value - 1) (OTPScreen.OTP_LENGTH - 1) in
    {| screen := feedback ImpactLight (setOtp newOtp (screen st));
       activeIndex := lastIndex;
       resendTimer := resendTimer st;
       calls := calls st ++ focus lastIndex st |}
  else
    let newOtp := assign ""%string index (toString value) (OTPScreen.otp (screen st)) in
    let typed := negb (isEmpty value) in
    let next := typed && (index <? OTPScreen.OTP_LENGTH - 1)%nat in
    let s := feedback ImpactLight (setError "" (setOtp newOtp (screen st))) in
    let moved := calls st ++ (if next then focus (index + 1) st else []) in
    let completeOtp := OTPScreen.joinOtp newOtp in
    let submit :=
      typed && Nat.eqb index (OTPScreen.OTP_LENGTH - 1)
      && Nat.eqb (String.length completeOtp) OTPScreen.OTP_LENGTH in
    {| screen := if submit then OTPScreen.handleVerify completeOtp s else s;
       activeIndex := if next then (index + 1)%nat else activeIndex st;
       resendTimer := resendTimer st;
       calls := if submit then moved ++ [KeyboardDismiss] else moved |}.

(** [handleKeyPress], on the [key] of the native event. *)
Definition handleKeyPress (key : string) (index : nat) (st : t) : t :=
  if String.eqb key "Backspace"
     && String.eqb (nth index (OTPScreen.otp (screen st)) ""%string) ""
     && (0 <? index)%nat
  then
    {| screen :=
         feedback ImpactLight
           (setOtp (assign ""%string (index - 1) ""%string (OTPScreen.otp (screen st)))
                   (screen st));
       activeIndex := (index - 1)%nat;
       resendTimer := resendTimer st;
       calls := calls st ++ focus (index - 1) st |}
  else st.

(** The [onChangeText] and the [onKeyPress] of the box at [index]: there is
    such a box for each element of [otp]. *)
Definition changeText (index : nat) (value : jsString) (st : t) : t :=
  if (index <? List.length (OTPScreen.otp (screen st)))%nat
  then handleOtpChange value index st else st.

Definition keyPress (index : nat) (key : string) (st : t) : t :=
  if (index <? List.length (OTPScreen.otp (screen st)))%nat
  then handleKeyPress key index st else st.

(** [handleResend]. *)
Definition handleResend (st : t) : t :=
  if 0 <? resendTimer st then st
  else
    {| screen :=
         feedback ImpactMedium
           (setError "" (setOtp (repeat ""%string OTPScreen.OTP_LENGTH) (screen st)));
       activeIndex := 0%nat;
       resendTimer := 30;
       calls := calls st ++ focus 0 st ++ [OnResend] |}.

(** The timeout of the resend countdown fires.  The effect arms it, 1000 ms
    ahead, after each render with [resendTimer > 0], and clears it when
    [resendTimer] changes: one is pending exactly while [resendTimer > 0]. *)
Definition resendTimeout (st : t) : t :=
  if 0 <? resendTimer st then
    {| screen := screen st; activeIndex := activeIndex st;
       resendTimer := resendTimer st - 1; calls := calls st |}
  else st.

(** The Verify button, on the part [handleVerify] works on. *)
Definition pressVerify (st : t) : t :=
  {| screen := OTPScreen.pressVerify (screen st); activeIndex := activeIndex st;
     resendTimer := resendTimer st; calls := calls st |}.

(** The verification timeouts after [ms] milliseconds. *)
Definition advance (ms : Z) (st : t) : t :=
  {| screen := OTPScreen.advance ms (screen st); activeIndex := activeIndex st;
     resendTimer := resendTimer st; calls := calls st |}.

(** The screen as first rendered. *)
Definition initial : t :=
  {| screen := OTPScreen.initial; activeIndex := 0%nat; resendTimer := 30; calls := [] |}.

(** What happens on the screen: text changes in a box, a key is pressed in a
    box, Resend or Verify is pressed, the timeout of the countdown fires,
    time passes. *)
Inductive Event : Set :=
  | ChangeText (index : nat) (value : jsString)
  | KeyPress (index : nat) (key : string)
  | PressResend
  | ResendTimeout
  | PressVerify
  | Advance (ms : Z).

Definition on (st : t) (e : Event) : t :=
  match e with
  | ChangeText index value => changeText index value st
  | KeyPress index key => keyPress index key st
  | PressResend => handleResend st
  | ResendTimeout => resendTimeout st
  | PressVerify => pressVerify st
  | Advance ms => advance ms st
  end.

Definition run (events : list Event) (st : t) : t := fold_left on events st.



(** Whether [/(\d{2})(\d{5})(\d{3})/] matches at the start of [s]: ten
    digits. *)
Definition tenDigits (s : jsString) : bool :=
  forallb isDigit (firstn 10 s) && Nat.eqb (List.length (firstn 10 s)) 10.

(** [maskedPhone]: [phoneNumber.replace(/(\d{2})(\d{5})(\d{3})/, '+91 $1*****$3')],
    which rewrites the leftmost run of ten digits. *)
Fixpoint maskedPhone (phoneNumber : jsString) : jsString :=
  match phoneNumber with
  | [] => []
  | c :: rest =>
      if tenDigits phoneNumber then
        lit "+91 " ++ firstn 2 phoneNumber ++ lit "*****"
          ++ firstn 3 (skipn 7 phoneNumber) ++ skipn 10 phoneNumber
      else c :: maskedPhone rest
  end.

End OTPEntry.

(** ** Create event screen (presentation/screens/event, CreateEventScreen) *)

Module CreateEventScreen.

Record CreateEventFormData : Set := {
  title : jsString;
  description : jsString;
  category : EventCategory.t;
  venueName : jsString;
  address : jsString;
  city : jsString;
  startDate : jsString;
  startTime : jsString;
  endTime : jsString;
  memberLimit : number;
  genderAllowed : list Gender.t;
  minAge : number;
  maxAge : number;
  requiresApproval : bool;
  rules : list jsString;
  images : list string
}.

(** A key of the form together with its new value. *)
Inductive Field : Set :=
  | Title (v : jsString)
  | Description (v : jsString)
  | Category (v : EventCategory.t)
  | VenueName (v : jsString)
  | Address (v : jsString)
  | City (v : jsString)
  | StartDate (v : jsString)
  | StartTime (v : jsString)
  | EndTime (v : jsString)
  | MemberLimit (v : number)
  | GenderAllowed (v : list Gender.t)
  | MinAge (v : number)
  | MaxAge (v : number)
  | RequiresApproval (v : bool)
  | Rules (v : list jsString)
  | Images (v : list string).

(** [Haptics.ImpactFeedbackStyle]. *)
Inductive ImpactFeedbackStyle : Set := Light | Medium | Heavy.

Inductive Effect : Set :=
  | Impact (style : ImpactFeedbackStyle)
  | OnBack
  | OnCreate (eventData : CreateEventFormData).

(** The component state, the pending timeouts of [handleSubmit] (each closed
    over the form of its press) and the log of effects.  [currentStep] is an
    index into the four steps. *)
Record t : Set := {
  currentStep : Z;
  formData : CreateEventFormData;
  newRule : jsString;
  isSubmitting : bool;
  timers : list (Timeout.t CreateEventFormData);
  effects : list Effect
}.

Definition steps : list string :=
  ["Basic Info"; "Location & Time"; "Rules & Settings"; "Preview"]%string.

(** [{ ...prev, [field]: value }]. *)
Definition withField (f : Field) (prev : CreateEventFormData) : CreateEventFormData :=
  {| title := match f with Title v => v | _ => title prev end;
     description := match f with Description v => v | _ => description prev end;
     category := match f with Category v => v | _ => category prev end;
     venueName := match f with VenueName v => v | _ => venueName prev end;
     address := match f with Address v => v | _ => address prev end;
     city := match f with City v => v | _ => city prev end;
     startDate := match f with StartDate v => v | _ => startDate prev end;
     startTime := match f with StartTime v => v | _ => startTime prev end;
     endTime := match f with EndTime v => v | _ => endTime prev end;
     memberLimit := match f with MemberLimit v => v | _ => memberLimit prev end;
     genderAllowed := match f with GenderAllowed v => v | _ => genderAllowed prev end;
     minAge := match f with MinAge v => v | _ => minAge prev end;
     maxAge := match f with MaxAge v => v | _ => maxAge prev end;
     requiresApproval := match f with RequiresApproval v => v | _ => requiresApproval prev end;
     rules := match f with Rules v => v | _ => rules prev end;
     images := match f with Images v => v | _ => images prev end |}.

(** [updateField]. *)
Definition updateField (f : Field) (st : t) : t :=
  {| currentStep := currentStep st; formData := withField f (formData st);
     newRule := newRule st; isSubmitting := isSubmitting st; timers := timers st;
     effects := effects st |}.

Definition impact (style : ImpactFeedbackStyle) (st : t) : t :=
  {| currentStep := currentStep st; formData := formData st; newRule := newRule st;
     isSubmitting := isSubmitting st; timers := timers st;
     effects := effects st ++ [Impact style] |}.

Definition setCurrentStep (step : Z) (st : t) : t :=
  {| currentStep := step; formData := formData st; newRule := newRule st;
     isSubmitting := isSubmitting st; timers := timers st; effects := effects st |}.

Definition setNewRule (value : jsString) (st : t) : t :=
  {| currentStep := currentStep st; formData := formData st; newRule := value;
     isSubmitting := isSubmitting st; timers := timers st; effects := effects st |}.

(** What [ImagePicker.launchImageLibraryAsync] resolves to: cancelled, or
    the URIs of the assets picked. *)
Inductive ImagePickerResult : Set :=
  | Canceled
  | Assets (uris : list string).

(** [handleAddImage], once the picker has resolved to [result]. *)
Definition handleAddImage (result : ImagePickerResult) (st : t) : t :=
  match result with
  | Canceled => st
  | Assets newImages =>
      impact Light
        (updateField (Images (firstn 5 (images (formData st) ++ newImages))) st)
  end.

Definition handleRemoveImage (index : nat) (st : t) : t :=
  let newImages := filteri (fun _ i => negb (Nat.eqb i index)) 0 (images (formData st)) in
  impact Light (updateField (Images newImages) st).

Definition handleAddRule (st : t) : t :=
  if negb (isEmpty (trim (newRule st))) then
    impact Light
      (setNewRule [] (updateField (Rules (rules (formData st) ++ [trim (newRule st)])) st))
  else st.

Definition handleRemoveRule (index : nat) (st : t) : t :=
  let newRules := filteri (fun _ i => negb (Nat.eqb i index)) 0 (rules (formData st)) in
  impact Light (updateField (Rules newRules) st).

(** [===] on genders. *)
Definition gender_eqb (a b : Gender.t) : bool :=
  match a, b with
  | Gender.male, Gender.male
  | Gender.female, Gender.female
  | Gender.other, Gender.other
  | Gender.prefer_not_to_say, Gender.prefer_not_to_say => true
  | _, _ => false
  end.

Definition toggleGender (gender : Gender.t) (st : t) : t :=
  let current := genderAllowed (formData st) in
  if existsb (gender_eqb gender) current then
    if (1 <? List.length current)%nat then
      updateField (GenderAllowed (filter (fun g => negb (gender_eqb g gender)) current)) st
    else st
  else updateField (GenderAllowed (current ++ [gender])) st.

(** A [GenderChip] is pressed: light haptic feedback, then [onToggle]. *)
Definition pressGenderChip (gender : Gender.t) (st : t) : t :=
  toggleGender gender (impact Light st).

(** The two buttons of the member limit. *)
Definition pressMemberLimitMinus (st : t) : t :=
  updateField (MemberLimit (Math_max 2 (memberLimit (formData st) - 1))) st.

Definition pressMemberLimitPlus (st : t) : t :=
  updateField (MemberLimit (Math_min 100 (memberLimit (formData st) + 1))) st.

Definition handleNext (st : t) : t :=
  if currentStep st <? Z.of_nat (List.length steps) - 1 then
    impact Medium (setCurrentStep (currentStep st + 1) st)
  else st.

Definition handlePrevious (st : t) : t :=
  if 0 <? currentStep st then impact Light (setCurrentStep (currentStep st - 1) st)
  else
    {| currentStep := currentStep st; formData := formData st; newRule := newRule st;
       isSubmitting := isSubmitting st; timers := timers st;
       effects := effects st ++ [OnBack] |}.

Definition handleSubmit (st : t) : t :=
  {| currentStep := currentStep st; formData := formData st; newRule := newRule st;
     isSubmitting := true;
     timers := timers st ++
       [{| Timeout.remaining := 2000; Timeout.payload := formData st |}];
     effects := effects st ++ [Impact Heavy] |}.

(** The callback of the timeout [handleSubmit] arms. *)
Definition submitTimeout (closure : CreateEventFormData) (st : t) : t :=
  {| currentStep := currentStep st; formData := formData st; newRule := newRule st;
     isSubmitting := false; timers := timers st;
     effects := effects st ++ [OnCreate closure] |}.

(** The screen after [ms] milliseconds. *)
Definition advance (ms : Z) (st : t) : t :=
  let '(due, later) := Timeout.elapse ms (timers st) in
  fold_left (fun s closure => submitTimeout closure s) due
    {| currentStep := currentStep st; formData := formData st; newRule := newRule st;
       isSubmitting := isSubmitting st; timers := later; effects := effects st |}.

(** The button of the footer: [Button] ignores the press while [loading];
    otherwise it gives light haptic feedback and calls [handleSubmit] on the
    last step, [handleNext] on the others. *)
Definition pressFooter (st : t) : t :=
  if isSubmitting st then st
  else if currentStep st =? Z.of_nat (List.length steps) - 1
  then handleSubmit (impact Light st)
  else handleNext (impact Light st).

(** The Add button of the rules: disabled while the new rule is blank. *)
Definition pressAddRule (st : t) : t :=
  if isEmpty (trim (newRule st)) then st else handleAddRule (impact Light st).

(** The switch of the approval. *)
Definition pressRequiresApproval (st : t) : t :=
  updateField (RequiresApproval (negb (requiresApproval (formData st)))) st.

(** [parsed || fallback], on the number [parseInt] has returned: [NaN] and
    the zeros are falsy. *)
Definition orElse (parsed fallback : number) : number :=
  if is_nan parsed || (parsed =? 0)%float then fallback else parsed.

(** The text inputs of the form. *)
Inductive TextInput : Set :=
  | InputTitle | InputDescription | InputVenueName | InputAddress | InputDate
  | InputStartTime | InputEndTime.

Definition changeText (input : TextInput) (value : jsString) (st : t) : t :=
  updateField
    match input with
    | InputTitle => Title value
    | InputDescription => Description value
    | InputVenueName => VenueName value
    | InputAddress => Address value
    | InputDate => StartDate value
    | InputStartTime => StartTime value
    | InputEndTime => EndTime value
    end st.

(** What happens on the screen.  For the two age inputs the event carries
    the number [parseInt] returns on the text typed. *)
Inductive Event : Set :=
  | ImagesPicked (result : ImagePickerResult)
  | PressRemoveImage (index : nat)
  | SelectCategory (category : EventCategory.t)
  | ChangeText (input : TextInput) (value : jsString)
  | PressMinus
  | PressPlus
  | PressGender (gender : Gender.t)
  | ChangeMinAge (parsed : number)
  | ChangeMaxAge (parsed : number)
  | PressApproval
  | ChangeNewRule (value : jsString)
  | PressAdd
  | PressRemoveRule (index : nat)
  | PressFooter
  | PressBack
  | Advance (ms : Z).

Definition on (st : t) (e : Event) : t :=
  match e with
  | ImagesPicked result => handleAddImage result st
  | PressRemoveImage index => handleRemoveImage index st
  | SelectCategory c => updateField (Category c) (impact Light st)
  | ChangeText input value => changeText input value st
  | PressMinus => pressMemberLimitMinus st
  | PressPlus => pressMemberLimitPlus st
  | PressGender gender => pressGenderChip gender st
  | ChangeMinAge parsed => updateField (MinAge (orElse parsed 18)) st
  | ChangeMaxAge parsed => updateField (MaxAge (orElse parsed 60)) st
  | PressApproval => pressRequiresApproval st
  | ChangeNewRule value => setNewRule value st
  | PressAdd => pressAddRule st
  | PressRemoveRule index => handleRemoveRule index st
  | PressFooter => pressFooter st
  | PressBack => handlePrevious (impact Light st)
  | Advance ms => advance ms st
  end.

Definition run (events : list Event) (st : t) : t := fold_left on events st.

(** The screen as first rendered. *)
Definition initial : t :=
  {| currentStep := 0;
     formData :=
       {| title := []; description := []; category := EventCategory.sports;
          venueName := []; address := []; city := lit "Mumbai";
          startDate := []; startTime := []; endTime := [];
          memberLimit := 20; genderAllowed := [Gender.male; Gender.female; Gender.other];
          minAge := 18; maxAge := 60; requiresApproval := true;
          rules := []; images := [] |};
     newRule := []; isSubmitting := false; timers := []; effects := [] |}.

End CreateEventScreen.

(** ** Event detail screen (presentation/screens/event, EventDetailScreen) *)

Module EventDetailScreen.

Inductive Effect : Set :=
  | Haptics (h : HapticFeedback)
  | Alert (title message : string)
  | OnJoin
  | OnLeave.

(** The event shown (the screen never updates it), the joining flag, the
    pending timeouts of [handleJoin] and the log of effects. *)
Record t : Set := {
  event : Event.t;
  isJoining : bool;
  timers : list (Timeout.t unit);
  effects : list Effect
}.

Definition spotsLeft (st : t) : number :=
  (EventEligibility.memberLimit (Event.eligibility (event st))
   - Event.participantCount (event st))%float.


Definition joinDisabled (st : t) : bool :=
  Event.isPendingApproval (event st) || (spotsLeft st =? 0)%float.

Definition handleJoin (st : t) : t :=
  {| event := event st; isJoining := true;
     timers := timers st ++ [{| Timeout.remaining := 1500; Timeout.payload := tt |}];
     effects := effects st ++ [Haptics ImpactMedium] |}.

(** The callback of the timeout [handleJoin] arms. *)
Definition joinTimeout (st : t) : t :=
  {| event := event st; isJoining := false; timers := timers st;
     effects := effects st ++
       [Alert "Request Sent"
          (if EventEligibility.requiresApproval (Event.eligibility (event st))
           then "Your join request has been sent to the admin for approval."
           else "You have successfully joined this event!");
        OnJoin] |}.

Definition advance (ms : Z) (st : t) : t :=
  let '(due, later) := Timeout.elapse ms (timers st) in
  fold_left (fun s _ => joinTimeout s) due
    {| event := event st; isJoining := isJoining st; timers := later;
       effects := effects st |}.

(** The button of the footer is pressed: [Button] ignores the press when
    [disabled || loading]; otherwise it gives light haptic feedback and calls
    [onLeave] for a joined event, [handleJoin] for the others. *)
Definition pressJoin (st : t) : t :=
  if joinDisabled st || isJoining st then st
  else if Event.isJoined (event st) then
    {| event := event st; isJoining := isJoining st; timers := timers st;
       effects := effects st ++ [Haptics ImpactLight; OnLeave] |}
  else
    handleJoin
      {| event := event st; isJoining := isJoining st; timers := timers st;
         effects := effects st ++ [Haptics ImpactLight] |}.

End EventDetailScreen.

(** An event for the examples: the mock event of the screen with the given
    number of participants, joined or not, and fixed dates. *)
Definition sampleEvent (participantCount : number) (isJoined : bool) : Event.t :=
  {| Event.id := "1";
     Event.type := user_created;
     Event.status := EventStatus.upcoming;
     Event.category := EventCategory.sports;
     Event.title := "Sunday Football Match";
     Event.description := "Join us for a friendly 11-a-side football match at Central Park!";
     Event.location :=
       {| EventLocation.latitude := 19.076; EventLocation.longitude := 72.8777;
          EventLocation.address := "123 Sports Complex, Andheri West";
          EventLocation.venueName := "Central Park Stadium";
          EventLocation.city := "Mumbai"; EventLocation.state := Some "Maharashtra"%string |};
     Event.startTime := "2024-01-22T10:00:00.000Z";
     Event.endTime := "2024-01-22T12:00:00.000Z";
     Event.imageUrls := [];
     Event.coverImageUrl := None;
     Event.admin :=
       {| EventAdmin.id := "2"; EventAdmin.displayName := "Rahul Verma";
          EventAdmin.avatarUrl := None; EventAdmin.averageRating := 4.9;
          EventAdmin.eventsCreated := 24; EventAdmin.isKYCVerified := true |};
     Event.eligibility :=
       {| EventEligibility.genderAllowed := [Gender.male; Gender.female; Gender.other];
          EventEligibility.minAge := 18; EventEligibility.maxAge := 45;
          EventEligibility.maxDistance := Some 25%float;
          EventEligibility.memberLimit := 22; EventEligibility.requiresApproval := true |};
     Event.pricing :=
       {| EventPricing.isFree := true; EventPricing.price := None;
          EventPricing.currency := "INR"; EventPricing.includesGST := false |};
     Event.coupons := [];
     Event.rules := ["Arrive 15 minutes before start time"%string];
     Event.participants := [];
     Event.participantCount := participantCount;
     Event.waitlistCount := 3;
     Event.genderRatio :=
       {| EventGenderRatio.male := 12; EventGenderRatio.female := 6;
          EventGenderRatio.other := 0 |};
     Event.averageAge := 28;
     Event.totalDuesGenerated := 450;
     Event.isJoined := isJoined;
     Event.isPendingApproval := false;
     Event.isWaitlisted := false;
     Event.canLeave := true;
     Event.leaveDeadline := None;
     Event.createdAt := "2024-01-15";
     Event.updatedAt := "2024-01-20" |}.

(** The screen on such an event, as first rendered. *)
Definition sampleEventScreen (participantCount : number) (isJoined : bool) :
    EventDetailScreen.t :=
  {| EventDetailScreen.event := sampleEvent participantCount isJoined;
     EventDetailScreen.isJoining := false;
     EventDetailScreen.timers := [];
     EventDetailScreen.effects := [] |}.

(** ** Wallet screen: the list of transactions *)

(** [themeColors.semantic], the three colours the wallet uses. *)
Module semantic.
Definition success : string := "#34D399".
Definition warning : string := "#FBBF24".
Definition error : string := "#F87171".
End semantic.

(** [===] on transaction types. *)
Definition TransactionType_eqb (a b : TransactionType) : bool :=
  match a, b with
  | due_added, due_added
  | due_cleared, due_cleared
  | commission_earned, commission_earned
  | commission_available, commission_available
  | withdrawal_requested, withdrawal_requested
  | withdrawal_completed, withdrawal_completed
  | withdrawal_failed, withdrawal_failed
  | referral_reward, referral_reward => true
  | _, _ => false
  end.

(** [types.includes(type)]. *)
Definition includes (types : list TransactionType) (type : TransactionType) : bool :=
  existsb (TransactionType_eqb type) types.

Definition getTransactionIcon (type : TransactionType) : string :=
  match type with
  | due_added => "add-circle-outline"
  | due_cleared => "checkmark-circle-outline"
  | commission_earned => "trending-up-outline"
  | commission_available => "wallet-outline"
  | withdrawal_requested => "time-outline"
  | withdrawal_completed => "card-outline"
  | withdrawal_failed => "close-circle-outline"
  | referral_reward => "gift-outline"
  end.

Definition getTransactionColor (type : TransactionType) : string :=
  let positiveTypes :=
    [commission_earned; commission_available; due_cleared; referral_reward;
     withdrawal_completed] in
  let negativeTypes := [due_added; withdrawal_failed] in
  if includes positiveTypes type then semantic.success
  else if includes negativeTypes type then semantic.error
  else semantic.warning.

Module TransactionItem.

(** [isPositive]: whether the amount is shown in green behind a [+]. *)
Definition isPositive (transaction : Transaction.t) : bool :=
  negb (includes [due_added; withdrawal_requested; withdrawal_completed]
          (Transaction.type transaction)).

(** What precedes the rupee sign. *)
Definition sign (transaction : Transaction.t) : string :=
  if isPositive transaction then "+" else "".

End TransactionItem.

(** The tabs of the wallet. *)
Inductive WalletTab : Set := tab_all | tab_commissions | tab_dues.

(** [filteredTransactions], for the list [transactions] in the place of the
    screen's mock list. *)
Definition filteredTransactions (selectedTab : WalletTab)
    (transactions : list Transaction.t) : list Transaction.t :=
  filter (fun t =>
    match selectedTab with
    | tab_all => true
    | tab_commissions =>
        includes [commission_earned; commission_available; withdrawal_completed;
                  withdrawal_requested; referral_reward] (Transaction.type t)
    | tab_dues => includes [due_added; due_cleared] (Transaction.type t)
    end) transactions.

(** ** The application shell (App) *)

Module App.

Inductive AppScreen : Set :=
  | splash | onboarding | login | signup | otp | citySelection
  | kycIntro | kycSelfie | kycSuccess
  | main | eventDetail | createEvent | settings | notifications | wallet
  | friends | chat.

(** [===] on screens. *)
Definition AppScreen_eqb (a b : AppScreen) : bool :=
  match a, b with
  | splash, splash | onboarding, onboarding | login, login | signup, signup
  | otp, otp | citySelection, citySelection | kycIntro, kycIntro
  | kycSelfie, kycSelfie | kycSuccess, kycSuccess | main, main
  | eventDetail, eventDetail | createEvent, createEvent | settings, settings
  | notifications, notifications | wallet, wallet | friends, friends
  | chat, chat => true
  | _, _ => false
  end.

(** The state of [App] and of the auth store it reads, and the screens
    rendered so far: the components that have received their callbacks. *)
Record t : Set := {
  currentScreen : AppScreen;
  phoneNumber : jsString;
  selectedEventId : option string;
  selectedChatId : option string;
  auth : authStore.AuthState;
  rendered : list AppScreen
}.

(** The callbacks [renderScreen] hands to the screens, with their
    arguments.  [Ignored] stands for the props that are [() => {}]. *)
Inductive Callback : Set :=
  | Splash_onFinish
  | Onboarding_onComplete
  | Login_onLogin (phone password : jsString)
  | Login_onSignupPress
  | Login_onGoogleLogin
  | Login_onAppleLogin
  | Signup_onSignup (phone : jsString)
  | Signup_onLoginPress
  | Signup_onGoogleSignup
  | Signup_onAppleSignup
  | OTP_onVerify (otpValue : string)
  | OTP_onBack
  | CitySelection_onCitySelected (name state createdAt updatedAt : string)
  | CitySelection_onBack
  | KYCIntro_onStart
  | KYCIntro_onSkip
  | KYCIntro_onBack
  | KYCSelfie_onCapture
  | KYCSelfie_onBack
  | KYCSuccess_onContinue
  | Main_onCreateEvent
  | Main_onEventPress (eventId : string)
  | Main_onNotifications
  | Main_onSettings
  | Main_onWallet
  | Main_onFriends
  | Main_onFriendChat (friendId : string)
  | EventDetail_onBack
  | CreateEvent_onBack
  | CreateEvent_onCreate
  | Settings_onBack
  | Settings_onLogout
  | Notifications_onBack
  | Wallet_onBack
  | Friends_onBack
  | Friends_onChatPress (friendId : string)
  | Chat_onBack
  | Ignored (screen : AppScreen).

(** The screen a callback is handed to. *)
Definition owner (c : Callback) : AppScreen :=
  match c with
  | Splash_onFinish => splash
  | Onboarding_onComplete => onboarding
  | Login_onLogin _ _ | Login_onSignupPress | Login_onGoogleLogin | Login_onAppleLogin => login
  | Signup_onSignup _ | Signup_onLoginPress | Signup_onGoogleSignup
  | Signup_onAppleSignup => signup
  | OTP_onVerify _ | OTP_onBack => otp
  | CitySelection_onCitySelected _ _ _ _ | CitySelection_onBack => citySelection
  | KYCIntro_onStart | KYCIntro_onSkip | KYCIntro_onBack => kycIntro
  | KYCSelfie_onCapture | KYCSelfie_onBack => kycSelfie
  | KYCSuccess_onContinue => kycSuccess
  | Main_onCreateEvent | Main_onEventPress _ | Main_onNotifications | Main_onSettings
  | Main_onWallet | Main_onFriends | Main_onFriendChat _ => main
  | EventDetail_onBack => eventDetail
  | CreateEvent_onBack | CreateEvent_onCreate => createEvent
  | Settings_onBack | Settings_onLogout => settings
  | Notifications_onBack => notifications
  | Wallet_onBack => wallet
  | Friends_onBack | Friends_onChatPress _ => friends
  | Chat_onBack => chat
  | Ignored screen => screen
  end.

Definition setCurrentScreen (screen : AppScreen) (st : t) : t :=
  {| currentScreen := screen; phoneNumber := phoneNumber st;
     selectedEventId := selectedEventId st; selectedChatId := selectedChatId st;
     auth := auth st; rendered := rendered st |}.

Definition setPhoneNumber (phone : jsString) (st : t) : t :=
  {| currentScreen := currentScreen st; phoneNumber := phone;
     selectedEventId := selectedEventId st; selectedChatId := selectedChatId st;
     auth := auth st; rendered := rendered st |}.

Definition setSelectedEventId (eventId : option string) (st : t) : t :=
  {| currentScreen := currentScreen st; phoneNumber := phoneNumber st;
     selectedEventId := eventId; selectedChatId := selectedChatId st;
     auth := auth st; rendered := rendered st |}.

Definition setSelectedChatId (chatId : option string) (st : t) : t :=
  {| currentScreen := currentScreen st; phoneNumber := phoneNumber st;
     selectedEventId := selectedEventId st; selectedChatId := chatId;
     auth := auth st; rendered := rendered st |}.

(** An action of the auth store. *)
Definition onAuth (f : authStore.AuthState -> authStore.AuthState) (st : t) : t :=
  {| currentScreen := currentScreen st; phoneNumber := phoneNumber st;
     selectedEventId := selectedEventId st; selectedChatId := selectedChatId st;
     auth := f (auth st); rendered := rendered st |}.

Definition handleSplashFinish (st : t) : t :=
  if authStore.isAuthenticated (auth st) then setCurrentScreen main st
  else if authStore.isOnboardingComplete (auth st) then setCurrentScreen login st
  else setCurrentScreen onboarding st.

Definition handleOnboardingComplete (st : t) : t :=
  setCurrentScreen login (onAuth (authStore.setOnboardingComplete true) st).

Definition handleLogin (phone _password : jsString) (st : t) : t :=
  setCurrentScreen otp (setPhoneNumber phone st).

Definition handleSignup (phone : jsString) (st : t) : t :=
  setCurrentScreen otp (setPhoneNumber phone st).

Definition handleOTPVerify (_otp : string) (st : t) : t :=
  setCurrentScreen citySelection st.

(** The mock user of [handleCitySelected]; [createdAt] and [updatedAt] are
    the two readings [new Date().toISOString()] of the clock. *)
Definition mockUser (phoneNumber : jsString) (name state createdAt updatedAt : string) :
    User.t :=
  {| User.id := "1";
     User.phoneNumber := phoneNumber;
     User.email := None;
     User.fullName := "John Doe";
     User.displayName := Some "John"%string;
     User.avatarUrl := None;
     User.dateOfBirth := None;
     User.gender := None;
     User.bio := None;
     User.location :=
       Some {| UserLocation.latitude := 19.076; UserLocation.longitude := 72.8777;
               UserLocation.city := name; UserLocation.state := Some state;
               UserLocation.country := "India" |};
     User.kyc :=
       {| UserKYC.status := KYCStatus.not_started; UserKYC.selfieUrl := None;
          UserKYC.idUrl := None; UserKYC.verifiedAt := None;
          UserKYC.rejectionReason := None |};
     User.finance :=
       {| UserFinance.dues := 0; UserFinance.pendingCommission := 0;
          UserFinance.availableCommission := 0; UserFinance.totalEarned := 0;
          UserFinance.totalWithdrawn := 0 |};
     User.stats :=
       {| UserStats.eventsJoined := 0; UserStats.eventsCreated := 0;
          UserStats.eventsCompleted := 0; UserStats.friendsCount := 0;
          UserStats.averageRating := 0; UserStats.totalRatings := 0 |};
     User.referralCode := "JOHND123";
     User.referredBy := None;
     User.isOnline := true;
     User.lastActiveAt := None;
     User.createdAt := createdAt;
     User.updatedAt := updatedAt |}.

Definition handleCitySelected (name state createdAt updatedAt : string) (st : t) : t :=
  setCurrentScreen main
    (onAuth
       (authStore.setUser (Some (mockUser (phoneNumber st) name state createdAt updatedAt)))
       st).

(** What each callback does. *)
Definition handle (c : Callback) (st : t) : t :=
  match c with
  | Splash_onFinish => handleSplashFinish st
  | Onboarding_onComplete => handleOnboardingComplete st
  | Login_onLogin phone password => handleLogin phone password st
  | Login_onSignupPress => setCurrentScreen signup st
  | Login_onGoogleLogin | Login_onAppleLogin => setCurrentScreen citySelection st
  | Signup_onSignup phone => handleSignup phone st
  | Signup_onLoginPress => setCurrentScreen login st
  | Signup_onGoogleSignup | Signup_onAppleSignup => setCurrentScreen citySelection st
  | OTP_onVerify otpValue => handleOTPVerify otpValue st
  | OTP_onBack => setCurrentScreen login st
  | CitySelection_onCitySelected name state createdAt updatedAt =>
      handleCitySelected name state createdAt updatedAt st
  | CitySelection_onBack => setCurrentScreen login st
  | KYCIntro_onStart => setCurrentScreen kycSelfie st
  | KYCIntro_onSkip | KYCIntro_onBack => setCurrentScreen main st
  | KYCSelfie_onCapture => setCurrentScreen kycSuccess st
  | KYCSelfie_onBack => setCurrentScreen kycIntro st
  | KYCSuccess_onContinue => setCurrentScreen main st
  | Main_onCreateEvent => setCurrentScreen createEvent st
  | Main_onEventPress eventId =>
      setCurrentScreen eventDetail (setSelectedEventId (Some eventId) st)
  | Main_onNotifications => setCurrentScreen notifications st
  | Main_onSettings => setCurrentScreen settings st
  | Main_onWallet => setCurrentScreen wallet st
  | Main_onFriends => setCurrentScreen friends st
  | Main_onFriendChat friendId =>
      setCurrentScreen chat (setSelectedChatId (Some friendId) st)
  | EventDetail_onBack | CreateEvent_onBack | CreateEvent_onCreate | Settings_onBack
  | Notifications_onBack | Wallet_onBack | Friends_onBack => setCurrentScreen main st
  | Settings_onLogout => setCurrentScreen login (onAuth (authStore.setUser None) st)
  | Friends_onChatPress friendId =>
      setCurrentScreen chat (setSelectedChatId (Some friendId) st)
  | Chat_onBack => setCurrentScreen friends st
  | Ignored _ => st
  end.

(** The current screen is rendered and receives its callbacks. *)
Definition render (st : t) : t :=
  {| currentScreen := currentScreen st; phoneNumber := phoneNumber st;
     selectedEventId := selectedEventId st; selectedChatId := selectedChatId st;
     auth := auth st; rendered := currentScreen st :: rendered st |}.

(** A callback is called.  A screen can call it, at once or from a timeout
    that outlives the screen, only if it has been rendered. *)
Definition step (st : t) (c : Callback) : t :=
  if existsb (AppScreen_eqb (owner c)) (rendered st) then render (handle c st) else st.

Definition run (calls : list Callback) (st : t) : t := fold_left step calls st.

(** The application as first rendered. *)
Definition initial : t :=
  {| currentScreen := splash; phoneNumber := []; selectedEventId := None;
     selectedChatId := None; auth := authStore.initialState; rendered := [splash] |}.

End App.

(* ================================================================= *)
(** * Properties *)

(** ** Rounding in [SpecFloat] *)

Section Rounding.
Variables prec emax : Z.
Hypothesis Hprec : 0 < prec.
Hypothesis Hemax : prec < emax.

Abbreviation emin := (SpecFloat.emin prec emax).
Abbreviation fexp := (SpecFloat.fexp prec emax).

(** A mantissa of [d] binary digits lies in [[2^(d-1), 2^d)]. *)
Lemma digits2_pos_bounds (m : positive) :
  2 ^ (Zpos (digits2_pos m) - 1) <= Zpos m < 2 ^ Zpos (digits2_pos m).
Proof.
  induction m as [m IH | m IH |]; cbn [digits2_pos].
  - rewrite Pos2Z.inj_succ, Z.pow_succ_r by lia.
    replace (Z.succ (Zpos (digits2_pos m)) - 1) with (Z.succ (Zpos (digits2_pos m) - 1)) by lia.
    rewrite Z.pow_succ_r by lia. lia.
  - rewrite Pos2Z.inj_succ, Z.pow_succ_r by lia.
    replace (Z.succ (Zpos (digits2_pos m)) - 1) with (Z.succ (Zpos (digits2_pos m) - 1)) by lia.
    rewrite Z.pow_succ_r by lia. lia.
  - cbn. lia.
Qed.

(** [iter_pos] applies its function once more on the successor. *)
Lemma iter_pos_succ {A} (f : A -> A) (p : positive) (x : A) :
  iter_pos f (Pos.succ p) x = f (iter_pos f p x).
Proof.
  assert (Hswap : forall q y, iter_pos f q (f y) = f (iter_pos f q y)).
  { induction q as [q IH | q IH |]; intros y; cbn [iter_pos].
    - now rewrite !IH.
    - now rewrite !IH.
    - reflexivity. }
  revert x. induction p as [p IH | p IH |]; intros x; cbn [Pos.succ iter_pos].
  - rewrite IH, <- Hswap, IH. now rewrite !Hswap.
  - now rewrite !Hswap.
  - reflexivity.
Qed.

(** One right shift of a non-negative mantissa: halve it, the bit shifted
    out becomes the round bit, the old round bit joins the sticky bit. *)
Lemma shr_1_nonneg (q : Z) (r s : bool) :
  0 <= q ->
  shr_1 {| shr_m := q; shr_r := r; shr_s := s |} =
  {| shr_m := q / 2; shr_r := Z.odd q; shr_s := r || s |}.
Proof.
  intros Hq. rewrite <- Z.div2_div.
  destruct q as [| [p | p |] |]; try lia; reflexivity.
Qed.

(** The record reached after [n] one-bit shifts of [m]. *)
Lemma iter_shr_1 (m : Z) (p : positive) :
  0 <= m ->
  let rec := iter_pos shr_1 p {| shr_m := m; shr_r := false; shr_s := false |} in
  shr_m rec = m / 2 ^ Zpos p /\
  shr_r rec = Z.odd (m / 2 ^ (Zpos p - 1)) /\
  shr_s rec = negb (m mod 2 ^ (Zpos p - 1) =? 0).
Proof.
  intros Hm. induction p as [| p IH] using Pos.peano_ind.
  - cbn [iter_pos]. rewrite shr_1_nonneg by assumption. cbn [shr_m shr_r shr_s].
    replace (1 - 1) with 0 by lia. rewrite Z.pow_0_r, Z.pow_1_r, Z.div_1_r, Z.mod_1_r.
    auto.
  - rewrite iter_pos_succ. cbv zeta in IH.
    destruct (iter_pos shr_1 p _) as [q r s]. cbn [shr_m shr_r shr_s] in IH.
    destruct IH as (Hq & Hr & Hs).
    assert (H2p : 0 < 2 ^ Zpos p) by (apply Z.pow_pos_nonneg; lia).
    assert (H2p1 : 0 < 2 ^ (Zpos p - 1)) by (apply Z.pow_pos_nonneg; lia).
    assert (Hq0 : 0 <= q) by (subst q; apply Z.div_pos; lia).
    rewrite shr_1_nonneg by assumption. cbv zeta. cbn [shr_m shr_r shr_s].
    rewrite Pos2Z.inj_succ.
    replace (Z.succ (Zpos p) - 1) with (Zpos p) by lia.
    rewrite Z.pow_succ_r by lia.
    assert (Hpow : 2 ^ Zpos p = 2 * 2 ^ (Zpos p - 1)).
    { rewrite <- Z.pow_succ_r by lia. f_equal. lia. }
    repeat split.
    + subst q. rewrite Z.mul_comm, <- Z.div_div by lia. reflexivity.
    + now subst q.
    + subst r s.
      replace (2 ^ Zpos p) with (2 ^ (Zpos p - 1) * 2) by lia.
      rewrite Z.rem_mul_r by lia.
      rewrite Zodd_mod.
      pose proof (Z.mod_pos_bound (m / 2 ^ (Zpos p - 1)) 2 ltac:(lia)).
      pose proof (Z.mod_pos_bound m (2 ^ (Zpos p - 1)) ltac:(lia)).
      set (a := m mod 2 ^ (Zpos p - 1)) in *.
      set (b := (m / 2 ^ (Zpos p - 1)) mod 2) in *.
      set (w := 2 ^ (Zpos p - 1)) in *.
      destruct (Z.eqb_spec b 1); destruct (Z.eqb_spec a 0);
        destruct (Z.eqb_spec (a + w * b) 0); cbn [negb orb]; try reflexivity; nia.
Qed.

(** Rounding the shifted record with [round_nearest_even] yields
    [m / 2^p] rounded to a nearest integer. *)
Lemma rne_shr (m : Z) (p : positive) :
  0 <= m ->
  let rec := iter_pos shr_1 p {| shr_m := m; shr_r := false; shr_s := false |} in
  round_cases m (Zpos p) (round_nearest_even (shr_m rec) (loc_of_shr_record rec)).
Proof.
  intros Hm rec. destruct (iter_shr_1 m p Hm) as (Hq & Hr & Hs). fold rec in Hq, Hr, Hs.
  destruct rec as [q r s]. cbn [shr_m shr_r shr_s] in *.
  assert (H2p1 : 0 < 2 ^ (Zpos p - 1)) by (apply Z.pow_pos_nonneg; lia).
  assert (Hpow : 2 ^ Zpos p = 2 ^ (Zpos p - 1) * 2).
  { rewrite Z.mul_comm, <- Z.pow_succ_r by lia. f_equal. lia. }
  assert (Hrem : m mod 2 ^ Zpos p =
                 m mod 2 ^ (Zpos p - 1) + 2 ^ (Zpos p - 1) * ((m / 2 ^ (Zpos p - 1)) mod 2)).
  { rewrite Hpow. apply Z.rem_mul_r; lia. }
  rewrite Zodd_mod in Hr.
  pose proof (Z.mod_pos_bound (m / 2 ^ (Zpos p - 1)) 2 ltac:(lia)).
  pose proof (Z.mod_pos_bound m (2 ^ (Zpos p - 1)) ltac:(lia)).
  unfold round_cases. rewrite <- Hq, Hrem, Hpow.
  set (a := m mod 2 ^ (Zpos p - 1)) in *.
  set (b := (m / 2 ^ (Zpos p - 1)) mod 2) in *.
  set (w := 2 ^ (Zpos p - 1)) in *.
  destruct (Z.eqb_spec b 1); destruct (Z.eqb_spec a 0); subst r s;
    cbn [negb loc_of_shr_record round_nearest_even].
  - destruct (Z.even q); [left | right]; split; auto; nia.
  - right. split; auto; nia.
  - left. split; auto; nia.
  - left. split; auto; nia.
Qed.

(** The number of digits is determined by the binade. *)
Lemma digits2_pos_unique (x : positive) (n : Z) :
  2 ^ (n - 1) <= Zpos x < 2 ^ n -> Zpos (digits2_pos x) = n.
Proof.
  intros [Hlo Hhi]. pose proof (digits2_pos_bounds x) as [Dlo Dhi].
  set (d := Zpos (digits2_pos x)) in *.
  assert (0 < n).
  { destruct (Z.ltb_spec 0 n); auto.
    destruct (Z.eq_dec n 0); [subst; cbn in Hhi; lia | rewrite Z.pow_neg_r in Hhi; lia]. }
  destruct (Z.lt_trichotomy d n) as [Hlt | [Heq | Hgt]]; auto; exfalso.
  - assert (2 ^ d <= 2 ^ (n - 1)) by (apply Z.pow_le_mono_r; lia). lia.
  - assert (2 ^ n <= 2 ^ (d - 1)) by (apply Z.pow_le_mono_r; lia). lia.
Qed.

(** [shr_fexp] leaves a mantissa alone when its exponent is already at
    least the target. *)
Lemma shr_fexp_exact_noshift (x E : Z) :
  fexp (Zdigits2 x + E) <= E ->
  shr_fexp prec emax x E loc_Exact =
  ({| shr_m := x; shr_r := false; shr_s := false |}, E).
Proof.
  intros H. unfold shr_fexp, shr. cbn [shr_record_of_loc].
  destruct (fexp (Zdigits2 x + E) - E) eqn:K; try reflexivity. lia.
Qed.

(** Otherwise it shifts by the difference. *)
Lemma shr_fexp_exact_shift (x E : Z) (p : positive) :
  fexp (Zdigits2 x + E) - E = Zpos p ->
  shr_fexp prec emax x E loc_Exact =
  (iter_pos shr_1 p {| shr_m := x; shr_r := false; shr_s := false |}, E + Zpos p).
Proof.
  intros H. unfold shr_fexp, shr. cbn [shr_record_of_loc]. now rewrite H.
Qed.

(** [binary_round_aux] is a shift, a rounding, a second shift and [finish]. *)
Lemma binary_round_aux_finish s mx ex lx :
  binary_round_aux prec emax s mx ex lx =
  let '(mrs, e) := shr_fexp prec emax mx ex lx in
  finish prec emax s (shr_fexp prec emax (round_nearest_even (shr_m mrs) (loc_of_shr_record mrs)) e loc_Exact).
Proof.
  unfold binary_round_aux, finish. destruct (shr_fexp prec emax mx ex lx) as [mrs e].
  destruct (shr_fexp prec emax _ e loc_Exact) as [mrs2 e2]. reflexivity.
Qed.

(** The second shift of [binary_round_aux]: the rounded mantissa is either in
    canonical position already, or it is the power of two a carry produced and
    one exact shift makes it canonical. *)
Lemma second_stage s (x : positive) (E : Z) :
  let d2 := Zpos (digits2_pos x) in
  fexp (d2 + E) = E \/ (fexp (d2 + E) = E + 1 /\ Zpos x = 2 ^ (d2 - 1) /\ 1 < d2) ->
  exists mf ef, E <= ef /\ Zpos mf * 2 ^ (ef - E) = Zpos x /\
    canonical_mantissa prec emax mf ef = true /\
    finish prec emax s (shr_fexp prec emax (Zpos x) E loc_Exact) =
    if ef <=? emax - prec then S754_finite s mf ef else S754_infinity s.
Proof.
  intros d2 [Heq | (Heq & Hx & Hd)].
  - exists x, E. rewrite shr_fexp_exact_noshift by (cbn [Zdigits2]; fold d2; lia).
    repeat split; try lia.
    + rewrite Z.sub_diag. cbn. lia.
    + unfold canonical_mantissa. fold d2. now apply Z.eqb_eq.
  - rewrite (shr_fexp_exact_shift _ _ 1) by (cbn [Zdigits2]; fold d2; lia).
    cbn [iter_pos]. rewrite shr_1_nonneg by lia. unfold finish. cbn [shr_m].
    assert (Hhalf : Zpos x / 2 = 2 ^ (d2 - 2)).
    { rewrite Hx. replace (d2 - 1) with (Z.succ (d2 - 2)) by lia.
      rewrite Z.pow_succ_r by lia. rewrite Z.mul_comm. apply Z.div_mul. lia. }
    assert (Hpos : 0 < 2 ^ (d2 - 2)) by (apply Z.pow_pos_nonneg; lia).
    rewrite Hhalf. destruct (2 ^ (d2 - 2)) as [| mf |] eqn:Emf; try lia.
    exists mf, (E + 1). repeat split; try lia.
    + replace (E + 1 - E) with 1 by lia. rewrite Z.pow_1_r, Hx.
      replace (d2 - 1) with (Z.succ (d2 - 2)) by lia. rewrite Z.pow_succ_r by lia. lia.
    + unfold canonical_mantissa. apply Z.eqb_eq.
      rewrite (digits2_pos_unique mf (d2 - 1)).
      * replace (d2 - 1 + (E + 1)) with (d2 + E) by lia. assumption.
      * rewrite <- Emf. replace (d2 - 1 - 1) with (d2 - 2) by lia. split; [lia |].
        apply Z.pow_lt_mono_r; lia.
Qed.

(** The result of [binary_round_aux] on an exact mantissa: a nearest
    integer [m2] of [m / 2^k], then zero or a canonical float of value
    [m2 * 2^E], or an infinity of the same sign on overflow. *)
Lemma binary_round_aux_spec s (m : positive) (e : Z) :
  let d := Zpos (digits2_pos m) in
  let E := fexp (d + e) in
  e <= E ->
  exists m2, round_cases (Zpos m) (E - e) m2 /\
    ((m2 = 0 /\ binary_round_aux prec emax s (Zpos m) e loc_Exact = S754_zero s) \/
     (exists mf ef, E <= ef /\ Zpos mf * 2 ^ (ef - E) = m2 /\
        canonical_mantissa prec emax mf ef = true /\
        binary_round_aux prec emax s (Zpos m) e loc_Exact =
        if ef <=? emax - prec then S754_finite s mf ef else S754_infinity s)).
Proof.
  intros d E HE. rewrite binary_round_aux_finish.
  pose proof (digits2_pos_bounds m) as [Dlo Dhi]. fold d in Dlo, Dhi.
  assert (Hd : 0 < d) by (unfold d; lia).
  destruct (E - e) as [| p | p] eqn:K; try lia.
  - (* no bit is dropped *)
    rewrite shr_fexp_exact_noshift by (cbn [Zdigits2]; fold d; fold E; lia).
    cbn [shr_m loc_of_shr_record round_nearest_even].
    exists (Zpos m). split.
    + left. rewrite Z.pow_0_r, Z.div_1_r, Z.mod_1_r. lia.
    + right.
      destruct (second_stage s m e) as (mf & ef & H1 & H2 & H3 & H4).
      { left. fold d. fold E. lia. }
      exists mf, ef. replace (ef - E) with (ef - e) by lia. repeat split; auto; lia.
  - (* [p] low bits are dropped and the mantissa is rounded *)
    rewrite (shr_fexp_exact_shift _ _ p) by (cbn [Zdigits2]; fold d; fold E; lia).
    pose proof (rne_shr (Zpos m) p ltac:(lia)) as Hrc. cbv zeta in Hrc.
    set (m2 := round_nearest_even _ _) in *.
    exists m2. split; [exact Hrc |].
    replace (e + Zpos p) with E by lia.
    assert (H2p : 0 < 2 ^ Zpos p) by (apply Z.pow_pos_nonneg; lia).
    pose proof (Z.mod_pos_bound (Zpos m) (2 ^ Zpos p) H2p) as Hrem.
    pose proof (Z.div_mod (Zpos m) (2 ^ Zpos p) ltac:(lia)) as Hdm.
    assert (Hq0 : 0 <= Zpos m / 2 ^ Zpos p) by (apply Z.div_pos; lia).
    destruct m2 as [| x | x] eqn:Em2.
    + left. split; [reflexivity |].
      rewrite shr_fexp_exact_noshift; [reflexivity |].
      cbn [Zdigits2]. unfold E, SpecFloat.fexp, SpecFloat.emin in *. lia.
    + right. apply second_stage.
      destruct (Z.le_gt_cases d (Zpos p)) as [Hbig | Hsmall].
      * (* the whole mantissa is shifted out: the result is the least subnormal *)
        assert (Hq : Zpos m / 2 ^ Zpos p = 0).
        { apply Z.div_small. split; [lia |].
          apply Z.lt_le_trans with (2 ^ d); [lia | apply Z.pow_le_mono_r; lia]. }
        assert (Hx : x = 1%positive) by (destruct Hrc as [[? ?] | [? ?]]; lia).
        subst x. left. cbn [digits2_pos].
        unfold E, SpecFloat.fexp, SpecFloat.emin in *. lia.
      * assert (Hsplit : 2 ^ d = 2 ^ (d - Zpos p) * 2 ^ Zpos p).
        { rewrite <- Z.pow_add_r by lia. f_equal. lia. }
        assert (Hsplit1 : 2 ^ (d - 1) = 2 ^ (d - Zpos p - 1) * 2 ^ Zpos p).
        { rewrite <- Z.pow_add_r by lia. f_equal. lia. }
        assert (Hq_lo : 2 ^ (d - Zpos p - 1) <= Zpos m / 2 ^ Zpos p).
        { apply Z.div_le_lower_bound; lia. }
        assert (Hq_hi : Zpos m / 2 ^ Zpos p < 2 ^ (d - Zpos p)).
        { apply Z.div_lt_upper_bound; lia. }
        assert (Hx : 2 ^ (d - Zpos p - 1) <= Zpos x <= 2 ^ (d - Zpos p))
          by (destruct Hrc as [[? ?] | [? ?]]; lia).
        destruct (Z.eq_dec (Zpos x) (2 ^ (d - Zpos p))) as [Hcarry | Hnocarry].
        -- (* rounding carried into the next binade *)
           assert (Hdx : Zpos (digits2_pos x) = d - Zpos p + 1).
           { apply digits2_pos_unique. rewrite Hcarry.
             replace (d - Zpos p + 1 - 1) with (d - Zpos p) by lia. split; [lia |].
             apply Z.pow_lt_mono_r; lia. }
           rewrite Hdx. replace (d - Zpos p + 1 - 1) with (d - Zpos p) by lia.
           unfold E, SpecFloat.fexp, SpecFloat.emin in *. lia.
        -- assert (Hdx : Zpos (digits2_pos x) = d - Zpos p).
           { apply digits2_pos_unique. lia. }
           left. rewrite Hdx. unfold E, SpecFloat.fexp, SpecFloat.emin in *. lia.
    + exfalso. destruct Hrc as [[? ?] | [? ?]]; lia.
Qed.

(** Powers of two. *)
Lemma pow2_split (a b : Z) : 0 <= a -> 0 <= b -> 2 ^ (a + b) = 2 ^ a * 2 ^ b.
Proof. intros. apply Z.pow_add_r; lia. Qed.

Lemma pow2_pos (a : Z) : 0 <= a -> 0 < 2 ^ a.
Proof. intros. apply Z.pow_pos_nonneg; lia. Qed.

(** Magnitude of the rounded result, in units of [2^b]. *)
Lemma round_value_spec s (m : positive) (e b : Z) :
  let d := Zpos (digits2_pos m) in
  b <= e -> b <= emin -> e <= fexp (d + e) ->
  exists J, rounded_magnitude prec emax s b (binary_round_aux prec emax s (Zpos m) e loc_Exact)
                              (Zpos m * 2 ^ (e - b)) J.
Proof.
  intros d Hbe Hb HE. unfold rounded_magnitude.
  set (A := Zpos m * 2 ^ (e - b)).
  set (res := binary_round_aux prec emax s (Zpos m) e loc_Exact).
  destruct (binary_round_aux_spec s m e HE) as (m2 & Hrc & Hshape).
  fold d in Hrc, Hshape. set (E := fexp (d + e)) in *. fold res in Hshape.
  unfold round_cases in Hrc.
  pose proof (digits2_pos_bounds m) as [Dlo Dhi]. fold d in Dlo, Dhi.
  assert (Hd : 0 < d) by (unfold d; lia).
  assert (HEmin : emin <= E) by (unfold E, SpecFloat.fexp; lia).
  set (k := E - e) in *. set (K := 2 ^ k) in *. set (P := 2 ^ (e - b)).
  assert (HK : 0 < K) by (apply pow2_pos; lia).
  assert (HP : 0 < P) by (apply pow2_pos; lia).
  assert (HEb : 2 ^ (E - b) = K * P).
  { unfold K, P. rewrite <- pow2_split by lia. f_equal. lia. }
  pose proof (Z.mod_pos_bound (Zpos m) K HK) as Hrem.
  pose proof (Z.div_mod (Zpos m) K ltac:(lia)) as Hdm.
  assert (Hq0 : 0 <= Zpos m / K) by (apply Z.div_pos; lia).
  set (q := Zpos m / K) in *. set (r := Zpos m mod K) in *.
  assert (Hm2 : 0 <= m2 /\ 2 * Z.abs (m2 * K - Zpos m) <= K)
    by (destruct Hrc as [[? ?] | [? ?]]; subst m2; lia).
  exists (m2 * (K * P)). split; [destruct Hm2; nia |]. split; [| split].
  - destruct Hshape as [[Hz Hres] | (mf & ef & H1 & H2 & H3 & H4)].
    + left. subst m2. split; [lia | exact Hres].
    + right. exists mf, ef. repeat split; auto; try lia.
      rewrite <- H2, <- HEb, <- Z.mul_assoc, <- pow2_split by lia.
      do 2 f_equal. lia.
  - assert (HJA : m2 * (K * P) - A = (m2 * K - Zpos m) * P) by (unfold A; fold P; ring).
    rewrite HJA, Z.abs_mul, (Z.abs_eq P) by lia.
    destruct Hm2 as [Hm2n Hm2e]. set (T := Z.abs (m2 * K - Zpos m)) in *.
    assert (HT : 0 <= T) by apply Z.abs_nonneg.
    destruct (Z.eq_dec E emin) as [Hsub | Hnorm].
    + right. replace (2 ^ (emin - b)) with (K * P) by (rewrite <- HEb; f_equal; lia). nia.
    + left. assert (Hk : k = d - prec) by (unfold k, E, SpecFloat.fexp in *; lia).
      assert (Hlow : 2 ^ (prec - 1) * K <= Zpos m).
      { unfold K. rewrite <- pow2_split by lia.
        replace (prec - 1 + k) with (d - 1) by lia. exact Dlo. }
      assert (Hpp : 2 ^ prec = 2 * 2 ^ (prec - 1)).
      { rewrite <- Z.pow_succ_r by lia. f_equal. lia. }
      unfold A. fold P. rewrite Hpp.
      assert (2 * 2 ^ (prec - 1) * T <= Zpos m).
      { assert (0 < 2 ^ (prec - 1)) by (apply pow2_pos; lia). nia. }
      nia.
  - intros my ey Hey Hdy. set (Y := Zpos my * 2 ^ (ey - b)).
    pose proof (digits2_pos_bounds my) as [_ Yhi].
    assert (Hmy : Zpos my < 2 ^ prec).
    { eapply Z.lt_le_trans; [exact Yhi | apply Z.pow_le_mono_r; lia]. }
    destruct (Z.le_gt_cases E ey) as [Hge | Hlt].
    + (* [Y] is a multiple of the rounding unit *)
      set (j := Zpos my * 2 ^ (ey - E)).
      assert (HY : Y = j * (K * P)).
      { unfold Y, j. rewrite <- HEb, <- Z.mul_assoc, <- pow2_split by lia.
        do 2 f_equal. lia. }
      rewrite HY. unfold A. fold P.
      split; intros Hcmp.
      * assert (Zpos m <= j * K) by nia.
        assert (m2 <= j) by (destruct Hrc as [[? ?] | [? ?]]; subst m2; nia).
        nia.
      * assert (j * K <= Zpos m) by nia.
        assert (j <= m2) by (destruct Hrc as [[? ?] | [? ?]]; subst m2; nia).
        nia.
    + (* [Y] lies strictly below the binade of the exact value *)
      assert (Hk : k = d - prec) by (unfold k, E, SpecFloat.fexp in *; lia).
      assert (Hlow : 2 ^ (prec - 1) * K <= Zpos m).
      { unfold K. rewrite <- pow2_split by lia.
        replace (prec - 1 + k) with (d - 1) by lia. exact Dlo. }
      assert (Hpp : 2 ^ prec = 2 * 2 ^ (prec - 1)).
      { rewrite <- Z.pow_succ_r by lia. f_equal. lia. }
      assert (Hpm : 0 < 2 ^ (prec - 1)) by (apply pow2_pos; lia).
      assert (Hq : 2 ^ (prec - 1) <= q).
      { unfold q. apply Z.div_le_lower_bound; lia. }
      assert (Hm2q : q <= m2) by (destruct Hrc as [[? ?] | [? ?]]; lia).
      assert (HYlt : Y < 2 ^ (prec - 1) * (K * P)).
      { unfold Y. rewrite <- HEb.
        replace (E - b) with ((E - 1 - ey) + 1 + (ey - b)) by lia.
        rewrite !pow2_split by lia. rewrite Z.pow_1_r.
        assert (HB : 0 < 2 ^ (ey - b)) by (apply pow2_pos; lia).
        assert (HG : 1 <= 2 ^ (E - 1 - ey)) by (pose proof (pow2_pos (E - 1 - ey)); lia).
        set (B := 2 ^ (ey - b)) in *. set (G := 2 ^ (E - 1 - ey)) in *.
        set (pw := 2 ^ (prec - 1)) in *.
        assert (Zpos my * B < 2 * pw * B) by (apply Z.mul_lt_mono_pos_r; lia).
        assert (pw * B * 1 <= pw * B * G) by (apply Z.mul_le_mono_nonneg_l; nia).
        nia. }
      assert (HAlo : 2 ^ (prec - 1) * (K * P) <= A).
      { unfold A. fold P. rewrite Z.mul_assoc. apply Z.mul_le_mono_nonneg_r; lia. }
      split; intros Hcmp; [lia |].
      assert (2 ^ (prec - 1) * (K * P) <= m2 * (K * P)).
      { apply Z.mul_le_mono_nonneg_r; [nia | lia]. }
      lia.
Qed.

(** [shl_align] multiplies the mantissa by a power of two and adds as many
    digits. *)
Lemma iter_xO_value (m d : positive) : Zpos (Pos.iter xO m d) = Zpos m * 2 ^ Zpos d.
Proof.
  induction d as [| d IH] using Pos.peano_ind.
  - cbn [Pos.iter]. rewrite Z.pow_1_r. lia.
  - rewrite Pos.iter_succ, Pos2Z.inj_xO, IH, Pos2Z.inj_succ, Z.pow_succ_r by lia. ring.
Qed.

Lemma iter_xO_digits (m d : positive) :
  Zpos (digits2_pos (Pos.iter xO m d)) = Zpos (digits2_pos m) + Zpos d.
Proof.
  induction d as [| d IH] using Pos.peano_ind.
  - cbn [Pos.iter digits2_pos]. lia.
  - rewrite Pos.iter_succ. cbn [digits2_pos]. rewrite Pos2Z.inj_succ, IH. lia.
Qed.

(** A canonical mantissa has at most [prec] digits, exactly [prec] above the
    least exponent. *)
Lemma canonical_bounds (m : positive) (e : Z) :
  canonical_mantissa prec emax m e = true ->
  emin <= e /\ Zpos (digits2_pos m) <= prec /\
  (emin < e -> Zpos (digits2_pos m) = prec).
Proof.
  unfold canonical_mantissa, SpecFloat.fexp. intros H. apply Z.eqb_eq in H. lia.
Qed.

(** A rounded result bounded by a representable number does not overflow. *)
Lemma canonical_no_overflow (mf my : positive) (ef ey b : Z) :
  b <= emin ->
  canonical_mantissa prec emax mf ef = true ->
  emin <= ey -> Zpos (digits2_pos my) <= prec ->
  Zpos mf * 2 ^ (ef - b) <= Zpos my * 2 ^ (ey - b) ->
  ef <= ey.
Proof.
  intros Hb Hc Hey Hdy Hle.
  destruct (canonical_bounds _ _ Hc) as (He & Hdf & Hnorm).
  destruct (Z.le_gt_cases ef ey) as [| Hgt]; [assumption | exfalso].
  pose proof (digits2_pos_bounds mf) as [Flo _].
  pose proof (digits2_pos_bounds my) as [_ Yhi].
  rewrite Hnorm in Flo by lia.
  assert (Hmy : Zpos my < 2 ^ prec).
  { eapply Z.lt_le_trans; [exact Yhi | apply Z.pow_le_mono_r; lia]. }
  assert (Hpp : 2 ^ prec = 2 * 2 ^ (prec - 1)).
  { rewrite <- Z.pow_succ_r by lia. f_equal. lia. }
  replace (ef - b) with ((ef - 1 - ey) + 1 + (ey - b)) in Hle by lia.
  rewrite !pow2_split, Z.pow_1_r in Hle by lia.
  assert (HB : 0 < 2 ^ (ey - b)) by (apply pow2_pos; lia).
  assert (HG : 1 <= 2 ^ (ef - 1 - ey)) by (pose proof (pow2_pos (ef - 1 - ey)); lia).
  set (B := 2 ^ (ey - b)) in *. set (G := 2 ^ (ef - 1 - ey)) in *.
  set (pw := 2 ^ (prec - 1)) in *.
  assert (Zpos my * B < 2 * pw * B) by (apply Z.mul_lt_mono_pos_r; lia).
  assert (pw * (1 * 2 * B) <= Zpos mf * (G * 2 * B)) by (apply Z.mul_le_mono_nonneg; nia).
  lia.
Qed.

(** [binary_round] rounds like [binary_round_aux], whatever the position of
    its argument. *)
Lemma binary_round_value_spec s (m : positive) (e b : Z) :
  b <= e -> b <= emin ->
  exists J, rounded_magnitude prec emax s b (binary_round prec emax s m e) (Zpos m * 2 ^ (e - b)) J.
Proof.
  intros Hbe Hb. set (A := Zpos m * 2 ^ (e - b)). unfold binary_round, shl_align.
  set (d := Zpos (digits2_pos m)). set (E := fexp (d + e)).
  assert (HEmin : emin <= E) by (unfold E, SpecFloat.fexp; lia).
  destruct (E - e) as [| k | k] eqn:K.
  - apply round_value_spec; fold d; fold E; lia.
  - apply round_value_spec; fold d; fold E; lia.
  - assert (HA : A = Zpos (Pos.iter xO m k) * 2 ^ (E - b)).
    { unfold A. rewrite iter_xO_value, <- Z.mul_assoc, <- pow2_split by lia.
      do 2 f_equal. lia. }
    rewrite HA. apply round_value_spec; try lia.
    rewrite iter_xO_digits. fold d. replace (d + Zpos k + E) with (d + e) by lia.
    fold E. lia.
Qed.

Lemma emin_nonpos : emin <= 0.
Proof. unfold SpecFloat.emin. lia. Qed.

(** What [valid_binary] says of a finite float. *)
Lemma valid_finite_bounds s m e :
  SpecFloat.valid_binary prec emax (S754_finite s m e) = true ->
  emin <= e <= emax - prec /\ Zpos (digits2_pos m) <= prec /\
  (emin < e -> Zpos (digits2_pos m) = prec).
Proof.
  cbn [SpecFloat.valid_binary]. unfold bounded. intros H. apply andb_true_iff in H as [Hc He].
  apply Z.leb_le in He. destruct (canonical_bounds _ _ Hc) as (? & ? & ?). auto with zarith.
Qed.

(** An exactly representable result is a rounding of itself. *)
Lemma rounds_to_exact (sh A r : Z) : 0 <= sh -> r * 2 ^ sh = A -> rounds_to prec emax sh A r.
Proof.
  intros Hsh HA. pose proof (pow2_pos sh Hsh) as Hp.
  pose proof (pow2_pos prec ltac:(lia)).
  split.
  - left. replace (r * 2 ^ sh - A) with 0 by lia. cbn [Z.abs]. lia.
  - intros y _ _. subst A. split; intros H'; nia.
Qed.

(** From the magnitude of a rounding to the signed result. *)
Lemma rounded_magnitude_signed (s : bool) (sh : Z) (res : spec_float) (A J : Z) :
  0 <= sh -> 0 < A ->
  rounded_magnitude prec emax s (emin - sh) res A J ->
  SpecFloat.valid_binary prec emax res = true /\
  ((exists z, SpecFloat.valid_binary prec emax z = true /\ SFfinite z = true /\
              A <= Z.abs (SF2Z prec emax z) * 2 ^ sh) -> SFfinite res = true) /\
  (SFfinite res = true -> rounds_to prec emax sh (cond_Zopp s A) (SF2Z prec emax res)).
Proof.
  intros Hsh HA (HJ & Hshape & Herr & Hbound).
  pose proof (pow2_pos sh Hsh) as Hp.
  assert (Hunit : forall (m : positive) (e : Z), emin <= e ->
            Zpos m * 2 ^ (e - (emin - sh)) = Zpos m * 2 ^ (e - emin) * 2 ^ sh).
  { intros m e He. rewrite <- Z.mul_assoc, <- pow2_split by lia. do 2 f_equal. lia. }
  assert (Hser : 2 ^ (emin - (emin - sh)) = 2 ^ sh) by (f_equal; lia).
  rewrite Hser in Herr.
  destruct Hshape as [[HJ0 Hres] | (mf & ef & HJv & Hef & Hcan & Hres)].
  - (* the result underflows to zero *)
    subst res J. split; [reflexivity |]. split; [reflexivity |]. intros _. cbn [SF2Z].
    split.
    + assert (H1 : Z.abs (0 * 2 ^ sh - cond_Zopp s A) = A)
        by (destruct s; cbn [cond_Zopp]; lia).
      assert (H2 : Z.abs (cond_Zopp s A) = A) by (destruct s; cbn [cond_Zopp]; lia).
      assert (H3 : Z.abs (0 - A) = A) by lia.
      rewrite H1, H2. rewrite H3 in Herr. exact Herr.
    + intros y Hvy Hfy.
      destruct y as [sy | sy | | sy my ey]; try discriminate; cbn [SF2Z].
      * destruct s; cbn [cond_Zopp]; lia.
      * destruct (valid_finite_bounds _ _ _ Hvy) as ((Hey & _) & Hdy & _).
        destruct (Hbound my ey Hey Hdy) as [Hup Hdown].
        rewrite Hunit in Hup, Hdown by assumption.
        assert (0 < Zpos my * 2 ^ (ey - emin)) by (pose proof (pow2_pos (ey - emin)); nia).
        destruct s, sy; cbn [cond_Zopp]; split; intros Hc; nia.
  - pose proof HJv as HJb. rewrite Hunit in HJv by assumption.
    set (R := Zpos mf * 2 ^ (ef - emin)) in *.
    assert (HR : 0 < R) by (unfold R; pose proof (pow2_pos (ef - emin)); nia).
    assert (Hfin : forall z, SpecFloat.valid_binary prec emax z = true -> SFfinite z = true ->
               A <= Z.abs (SF2Z prec emax z) * 2 ^ sh -> ef <= emax - prec).
    { intros z Hvz Hfz Hle.
      destruct z as [sz | sz | | sz mz ez]; try discriminate; cbn [SF2Z] in Hle.
      - cbn [Z.abs] in Hle. lia.
      - destruct (valid_finite_bounds _ _ _ Hvz) as ((Hez & Hez') & Hdz & _).
        assert (Hz : Z.abs (cond_Zopp sz (Zpos mz * 2 ^ (ez - emin))) = Zpos mz * 2 ^ (ez - emin)).
        { pose proof (pow2_pos (ez - emin)). destruct sz; cbn [cond_Zopp]; nia. }
        rewrite Hz, <- Hunit in Hle by assumption.
        destruct (Hbound mz ez Hez Hdz) as [Hup _]. specialize (Hup Hle).
        rewrite HJb in Hup.
        pose proof (canonical_no_overflow mf mz ef ez (emin - sh) ltac:(lia) Hcan Hez Hdz Hup).
        lia. }
    split; [| split].
    + subst res. destruct (Z.leb_spec ef (emax - prec)); [| reflexivity].
      cbn [SpecFloat.valid_binary]. unfold bounded. rewrite Hcan. apply Z.leb_le. assumption.
    + intros (z & Hvz & Hfz & Hle). specialize (Hfin z Hvz Hfz Hle).
      subst res. destruct (Z.leb_spec ef (emax - prec)); [reflexivity | lia].
    + intros Hf. subst res. destruct (Z.leb_spec ef (emax - prec)); [| discriminate].
      cbn [SF2Z]. fold R. split.
      * assert (Hd : Z.abs (cond_Zopp s R * 2 ^ sh - cond_Zopp s A) = Z.abs (J - A)).
        { rewrite HJv. destruct s; cbn [cond_Zopp].
          - replace (- R * 2 ^ sh - - A) with (- (R * 2 ^ sh - A)) by ring. apply Z.abs_opp.
          - reflexivity. }
        assert (Ha : Z.abs (cond_Zopp s A) = A) by (destruct s; cbn [cond_Zopp]; lia).
        rewrite Hd, Ha. exact Herr.
      * intros y Hvy Hfy.
        destruct y as [sy | sy | | sy my ey]; try discriminate; cbn [SF2Z].
        -- destruct s; cbn [cond_Zopp]; lia.
        -- destruct (valid_finite_bounds _ _ _ Hvy) as ((Hey & _) & Hdy & _).
           destruct (Hbound my ey Hey Hdy) as [Hup Hdown].
           rewrite Hunit in Hup, Hdown by assumption. rewrite HJv in Hup, Hdown.
           assert (0 < Zpos my * 2 ^ (ey - emin)) by (pose proof (pow2_pos (ey - emin)); nia).
           set (Y := Zpos my * 2 ^ (ey - emin)) in *.
           destruct s, sy; cbn [cond_Zopp]; split; intros Hc; nia.
Qed.

(** An operation that returns the exact result meets its specification. *)
Lemma op_spec_exact (sh A : Z) (res : spec_float) :
  0 <= sh ->
  SpecFloat.valid_binary prec emax res = true -> SFfinite res = true ->
  SF2Z prec emax res * 2 ^ sh = A -> op_spec prec emax sh A res.
Proof.
  intros Hsh Hv Hf HA. split; [assumption |]. split; [auto |].
  intros _. now apply rounds_to_exact.
Qed.

(** A product has at least one digit less than its factors together. *)
Lemma digits2_pos_mul (mx my : positive) :
  Zpos (digits2_pos mx) + Zpos (digits2_pos my) - 1 <= Zpos (digits2_pos (mx * my)).
Proof.
  pose proof (digits2_pos_bounds mx) as [Xlo _].
  pose proof (digits2_pos_bounds my) as [Ylo _].
  pose proof (digits2_pos_bounds (mx * my)) as [_ Phi].
  set (dx := Zpos (digits2_pos mx)) in *. set (dy := Zpos (digits2_pos my)) in *.
  set (d := Zpos (digits2_pos (mx * my))) in *.
  assert (0 < dx /\ 0 < dy /\ 0 < d) as (? & ? & ?) by (unfold dx, dy, d; lia).
  destruct (Z.le_gt_cases (dx + dy - 1) d) as [| Hlt]; [assumption | exfalso].
  assert (Hpow : 2 ^ d <= 2 ^ (dx - 1 + (dy - 1))) by (apply Z.pow_le_mono_r; lia).
  rewrite pow2_split in Hpow by lia. rewrite Pos2Z.inj_mul in Phi.
  pose proof (pow2_pos (dx - 1) ltac:(lia)). pose proof (pow2_pos (dy - 1) ltac:(lia)).
  assert (2 ^ (dx - 1) * 2 ^ (dy - 1) <= Zpos mx * Zpos my) by (apply Z.mul_le_mono_nonneg; lia).
  lia.
Qed.

(** Multiplication rounds the exact product (values in units of [2^emin],
    so the product is in units of [2^(2 emin)]). *)
Lemma SFmul_spec (x y : spec_float) :
  SpecFloat.valid_binary prec emax x = true -> SpecFloat.valid_binary prec emax y = true ->
  SFfinite x = true -> SFfinite y = true ->
  op_spec prec emax (- emin) (SF2Z prec emax x * SF2Z prec emax y) (SFmul prec emax x y).
Proof.
  intros Hvx Hvy Hfx Hfy. pose proof emin_nonpos as Hemin.
  destruct x as [sx | sx | | sx mx ex]; try discriminate;
    destruct y as [sy | sy | | sy my ey]; try discriminate; cbn [SFmul SF2Z];
    try (apply op_spec_exact; [lia | reflexivity | reflexivity | cbn [SF2Z]; lia]).
  destruct (valid_finite_bounds _ _ _ Hvx) as ((Hex & _) & Hdx & Hnx).
  destruct (valid_finite_bounds _ _ _ Hvy) as ((Hey & _) & Hdy & Hny).
  pose proof (digits2_pos_mul mx my) as Hdig.
  assert (Hpre : ex + ey <= fexp (Zpos (digits2_pos (mx * my)) + (ex + ey))).
  { assert (0 < Zpos (digits2_pos mx)) by lia. assert (0 < Zpos (digits2_pos my)) by lia.
    unfold SpecFloat.fexp.
    destruct (Z.eq_dec ex emin); destruct (Z.eq_dec ey emin); try lia;
      (rewrite Hnx in Hdig by lia) || (rewrite Hny in Hdig by lia); lia. }
  destruct (round_value_spec (xorb sx sy) (mx * my) (ex + ey) (emin - - emin)
              ltac:(lia) ltac:(lia) Hpre) as (J & HJ).
  set (X := Zpos mx * 2 ^ (ex - emin)). set (Y := Zpos my * 2 ^ (ey - emin)).
  assert (HX : 0 < X) by (unfold X; pose proof (pow2_pos (ex - emin)); nia).
  assert (HY : 0 < Y) by (unfold Y; pose proof (pow2_pos (ey - emin)); nia).
  assert (HA : Zpos (mx * my) * 2 ^ (ex + ey - (emin - - emin)) = X * Y).
  { unfold X, Y. replace (ex + ey - (emin - - emin)) with ((ex - emin) + (ey - emin)) by lia.
    rewrite pow2_split, Pos2Z.inj_mul by lia. ring. }
  rewrite HA in HJ.
  assert (HXY : 0 < X * Y) by nia.
  destruct (rounded_magnitude_signed (xorb sx sy) (- emin) _ (X * Y) J ltac:(lia) HXY HJ)
    as (Hv & Hfin & Hr).
  assert (Hs : cond_Zopp sx X * cond_Zopp sy Y = cond_Zopp (xorb sx sy) (X * Y))
    by (destruct sx, sy; cbn [cond_Zopp xorb]; ring).
  rewrite Hs. split; [exact Hv |]. split; [| exact Hr].
  intros (z & Hvz & Hfz & Hle). apply Hfin. exists z. repeat split; auto.
  assert (Z.abs (cond_Zopp (xorb sx sy) (X * Y)) = X * Y)
    by (destruct (xorb sx sy); cbn [cond_Zopp]; nia).
  lia.
Qed.

(** Alignment of a mantissa to a smaller exponent is exact. *)
Lemma shl_align_fst (m : positive) (e ez : Z) :
  ez <= e -> Zpos (fst (shl_align m e ez)) = Zpos m * 2 ^ (e - ez).
Proof.
  intros He. unfold shl_align. destruct (ez - e) as [| k | k] eqn:K; cbn [fst]; try lia.
  - replace (e - ez) with 0 by lia. cbn. lia.
  - rewrite iter_xO_value. do 2 f_equal. lia.
Qed.

(** [binary_normalize] rounds the signed integer [z], in units of [2^ez]. *)
Lemma binary_normalize_spec (z ez : Z) :
  emin <= ez ->
  op_spec prec emax 0 (z * 2 ^ (ez - emin)) (binary_normalize prec emax z ez false).
Proof.
  intros Hez. pose proof (pow2_pos (ez - emin) ltac:(lia)) as Hp.
  destruct z as [| m | m]; cbn [binary_normalize].
  - apply op_spec_exact; try reflexivity; cbn [SF2Z]; lia.
  - destruct (binary_round_value_spec false m ez (emin - 0) ltac:(lia) ltac:(lia)) as (J & HJ).
    replace (ez - (emin - 0)) with (ez - emin) in HJ by lia.
    assert (HA : 0 < Zpos m * 2 ^ (ez - emin)) by nia.
    destruct (rounded_magnitude_signed false 0 _ _ J ltac:(lia) HA HJ) as (Hv & Hfin & Hr).
    cbn [cond_Zopp] in Hr. split; [exact Hv |]. split; [| exact Hr].
    intros (y & Hvy & Hfy & Hle). apply Hfin. exists y. repeat split; auto. lia.
  - destruct (binary_round_value_spec true m ez (emin - 0) ltac:(lia) ltac:(lia)) as (J & HJ).
    replace (ez - (emin - 0)) with (ez - emin) in HJ by lia.
    assert (HA : 0 < Zpos m * 2 ^ (ez - emin)) by nia.
    destruct (rounded_magnitude_signed true 0 _ _ J ltac:(lia) HA HJ) as (Hv & Hfin & Hr).
    cbn [cond_Zopp] in Hr.
    replace (Zneg m * 2 ^ (ez - emin)) with (- (Zpos m * 2 ^ (ez - emin))) by lia.
    split; [exact Hv |]. split; [| exact Hr].
    intros (y & Hvy & Hfy & Hle). apply Hfin. exists y. repeat split; auto. lia.
Qed.

Lemma SF2Z_aligned s (m : positive) (e ez : Z) :
  emin <= ez -> ez <= e ->
  cond_Zopp s (Zpos m * 2 ^ (e - emin)) =
  cond_Zopp s (Zpos (fst (shl_align m e ez))) * 2 ^ (ez - emin).
Proof.
  intros H1 H2. rewrite shl_align_fst by assumption.
  replace (e - emin) with ((e - ez) + (ez - emin)) by lia. rewrite pow2_split by lia.
  destruct s; cbn [cond_Zopp]; ring.
Qed.

(** Addition and subtraction round the exact sum and difference. *)
Lemma SFadd_spec (x y : spec_float) :
  SpecFloat.valid_binary prec emax x = true -> SpecFloat.valid_binary prec emax y = true ->
  SFfinite x = true -> SFfinite y = true ->
  op_spec prec emax 0 (SF2Z prec emax x + SF2Z prec emax y) (SFadd prec emax x y).
Proof.
  intros Hvx Hvy Hfx Hfy.
  destruct x as [sx | sx | | sx mx ex]; try discriminate;
    destruct y as [sy | sy | | sy my ey]; try discriminate; cbn [SFadd].
  - destruct sx, sy; apply op_spec_exact; try reflexivity; cbn [SF2Z]; lia.
  - apply op_spec_exact; auto; try lia. cbn [SF2Z]. lia.
  - apply op_spec_exact; auto; try lia. cbn [SF2Z]. lia.
  - destruct (valid_finite_bounds _ _ _ Hvx) as ((Hex & _) & _).
    destruct (valid_finite_bounds _ _ _ Hvy) as ((Hey & _) & _).
    cbn [SF2Z]. set (ez := Z.min ex ey).
    rewrite (SF2Z_aligned sx mx ex ez), (SF2Z_aligned sy my ey ez) by (unfold ez; lia).
    rewrite <- Z.mul_add_distr_r. apply binary_normalize_spec. unfold ez. lia.
Qed.

Lemma SFsub_spec (x y : spec_float) :
  SpecFloat.valid_binary prec emax x = true -> SpecFloat.valid_binary prec emax y = true ->
  SFfinite x = true -> SFfinite y = true ->
  op_spec prec emax 0 (SF2Z prec emax x - SF2Z prec emax y) (SFsub prec emax x y).
Proof.
  intros Hvx Hvy Hfx Hfy.
  destruct x as [sx | sx | | sx mx ex]; try discriminate;
    destruct y as [sy | sy | | sy my ey]; try discriminate; cbn [SFsub].
  - destruct sx, sy; apply op_spec_exact; try reflexivity; cbn [SF2Z]; lia.
  - apply op_spec_exact; auto; try lia. cbn [SF2Z]. destruct sy; cbn [cond_Zopp negb]; lia.
  - apply op_spec_exact; auto; try lia. cbn [SF2Z]. lia.
  - destruct (valid_finite_bounds _ _ _ Hvx) as ((Hex & _) & _).
    destruct (valid_finite_bounds _ _ _ Hvy) as ((Hey & _) & _).
    cbn [SF2Z]. set (ez := Z.min ex ey).
    rewrite (SF2Z_aligned sx mx ex ez), (SF2Z_aligned sy my ey ez) by (unfold ez; lia).
    rewrite <- Z.mul_sub_distr_r. apply binary_normalize_spec. unfold ez. lia.
Qed.

(** Among canonical floats the exponent decides the order. *)
Lemma canonical_lt (m1 m2 : positive) (e1 e2 : Z) :
  canonical_mantissa prec emax m1 e1 = true ->
  canonical_mantissa prec emax m2 e2 = true ->
  e1 < e2 ->
  Zpos m1 * 2 ^ (e1 - emin) < Zpos m2 * 2 ^ (e2 - emin).
Proof.
  intros H1 H2 Hlt. destruct (canonical_bounds _ _ H1) as (He1 & Hd1 & _).
  destruct (Z.lt_ge_cases (Zpos m1 * 2 ^ (e1 - emin)) (Zpos m2 * 2 ^ (e2 - emin)))
    as [| Hge]; [assumption | exfalso].
  pose proof (canonical_no_overflow m2 m1 e2 e1 emin ltac:(lia) H2 He1 Hd1 Hge). lia.
Qed.

(** [SFcompare] on valid finite floats is the comparison of their values. *)
Lemma SFcompare_SF2Z (x y : spec_float) :
  SpecFloat.valid_binary prec emax x = true -> SpecFloat.valid_binary prec emax y = true ->
  SFfinite x = true -> SFfinite y = true ->
  SFcompare x y = Some (SF2Z prec emax x ?= SF2Z prec emax y).
Proof.
  intros Hvx Hvy Hfx Hfy.
  destruct x as [sx | sx | | sx mx ex]; try discriminate;
    destruct y as [sy | sy | | sy my ey]; try discriminate; cbn [SFcompare SF2Z].
  - reflexivity.
  - destruct (valid_finite_bounds _ _ _ Hvy) as ((Hey & _) & _).
    pose proof (pow2_pos (ey - emin) ltac:(lia)).
    f_equal. symmetry. destruct sy; cbn [cond_Zopp]; [apply Z.compare_gt_iff | apply Z.compare_lt_iff]; nia.
  - destruct (valid_finite_bounds _ _ _ Hvx) as ((Hex & _) & _).
    pose proof (pow2_pos (ex - emin) ltac:(lia)).
    f_equal. symmetry. destruct sx; cbn [cond_Zopp]; [apply Z.compare_lt_iff | apply Z.compare_gt_iff]; nia.
  - destruct (valid_finite_bounds _ _ _ Hvx) as ((Hex & _) & _).
    destruct (valid_finite_bounds _ _ _ Hvy) as ((Hey & _) & _).
    cbn [SpecFloat.valid_binary] in Hvx, Hvy. unfold bounded in Hvx, Hvy.
    apply andb_true_iff in Hvx as [Hcx _]. apply andb_true_iff in Hvy as [Hcy _].
    pose proof (pow2_pos (ex - emin) ltac:(lia)) as Hpx.
    pose proof (pow2_pos (ey - emin) ltac:(lia)) as Hpy.
    set (X := Zpos mx * 2 ^ (ex - emin)). set (Y := Zpos my * 2 ^ (ey - emin)).
    assert (HX : 0 < X) by (unfold X; nia). assert (HY : 0 < Y) by (unfold Y; nia).
    assert (Hmag : match ex ?= ey with
                   | Lt => Lt | Gt => Gt | Eq => Pos.compare_cont Eq mx my end = (X ?= Y)).
    { symmetry. destruct (Z.compare_spec ex ey) as [Heq | Hlt | Hgt].
      - subst ey. unfold X, Y. rewrite <- Zmult_compare_compat_r by lia. reflexivity.
      - apply Z.compare_lt_iff. now apply canonical_lt.
      - apply Z.compare_gt_iff. now apply canonical_lt. }
    f_equal. destruct sx, sy; cbn [cond_Zopp].
    + rewrite Z.compare_opp, (Z.compare_antisym X Y), <- Hmag.
      destruct (ex ?= ey); reflexivity.
    + symmetry. apply Z.compare_lt_iff. lia.
    + symmetry. apply Z.compare_gt_iff. lia.
    + exact Hmag.
Qed.

End Rounding.

(** ** Binary64: the rounding facts on primitive floats *)

Lemma prec_emax_ok : 0 < prec /\ prec < emax.
Proof. unfold prec, emax. lia. Qed.

(** [is_finite] in terms of the specification float. *)
Lemma is_finite_SF (x : float) : is_finite x = SFfinite (Prim2SF x).
Proof.
  unfold is_finite, is_nan, is_infinity.
  rewrite !eqb_spec, abs_spec.
  replace (Prim2SF infinity) with (S754_infinity false) by reflexivity.
  destruct (Prim2SF x) as [s | s | | s m e]; cbn [SFabs SFfinite]; unfold SFeqb; cbn [SFcompare].
  - reflexivity.
  - destruct s; reflexivity.
  - reflexivity.
  - rewrite Z.compare_refl, Pos.compare_cont_refl. destruct s; reflexivity.
Qed.

Lemma finite_valid (x : float) :
  is_finite x = true ->
  SpecFloat.valid_binary prec emax (Prim2SF x) = true /\ SFfinite (Prim2SF x) = true.
Proof. intros H. split; [apply Prim2SF_valid | now rewrite <- is_finite_SF]. Qed.

(** The JS comparisons [<=], [<], [===] on finite numbers are those of the
    exact values. *)
Lemma compare_F2Z (x y : float) :
  is_finite x = true -> is_finite y = true ->
  SFcompare (Prim2SF x) (Prim2SF y) = Some (F2Z x ?= F2Z y).
Proof.
  intros Hx Hy. destruct (finite_valid x Hx), (finite_valid y Hy), prec_emax_ok.
  now apply SFcompare_SF2Z.
Qed.

Lemma leb_F2Z (x y : float) :
  is_finite x = true -> is_finite y = true -> (x <=? y)%float = (F2Z x <=? F2Z y).
Proof.
  intros Hx Hy. rewrite leb_spec. unfold SFleb. rewrite compare_F2Z by assumption.
  unfold Z.leb. destruct (F2Z x ?= F2Z y); reflexivity.
Qed.

Lemma ltb_F2Z (x y : float) :
  is_finite x = true -> is_finite y = true -> (x <? y)%float = (F2Z x <? F2Z y).
Proof.
  intros Hx Hy. rewrite ltb_spec. unfold SFltb. rewrite compare_F2Z by assumption.
  unfold Z.ltb. destruct (F2Z x ?= F2Z y); reflexivity.
Qed.


(** From the specification floats back to the primitive ones: an operation
    whose exact result is bounded by a finite number is finite and rounds. *)
Lemma op_spec_frounds (sh A : Z) (r z : float) :
  op_spec prec emax sh A (Prim2SF r) ->
  is_finite z = true -> Z.abs A <= Z.abs (F2Z z) * 2 ^ sh ->
  frounds sh A r.
Proof.
  intros (Hv & Hfin & Hr) Hz Hle. destruct (finite_valid z Hz) as [Hvz Hfz].
  assert (Hf : SFfinite (Prim2SF r) = true) by (apply Hfin; exists (Prim2SF z); auto).
  destruct (Hr Hf) as [Herr Hbound].
  split; [now rewrite is_finite_SF |]. split; [exact Herr |].
  intros w Hw. destruct (finite_valid w Hw) as [Hvw Hfw]. now apply Hbound.
Qed.

(** The three JS operators the breakdown uses. *)
Lemma mul_frounds (x y z : float) :
  is_finite x = true -> is_finite y = true -> is_finite z = true ->
  Z.abs (F2Z x * F2Z y) <= Z.abs (F2Z z) * 2 ^ 1074 ->
  frounds 1074 (F2Z x * F2Z y) (x * y).
Proof.
  intros Hx Hy Hz Hle. destruct (finite_valid x Hx), (finite_valid y Hy), prec_emax_ok.
  apply op_spec_frounds with (z := z); auto.
  rewrite mul_spec. change 1074 with (- SpecFloat.emin prec emax). now apply SFmul_spec.
Qed.

Lemma add_frounds (x y z : float) :
  is_finite x = true -> is_finite y = true -> is_finite z = true ->
  Z.abs (F2Z x + F2Z y) <= Z.abs (F2Z z) ->
  frounds 0 (F2Z x + F2Z y) (x + y).
Proof.
  intros Hx Hy Hz Hle. destruct (finite_valid x Hx), (finite_valid y Hy), prec_emax_ok.
  apply op_spec_frounds with (z := z); auto; [| rewrite Z.pow_0_r; lia].
  rewrite add_spec. now apply SFadd_spec.
Qed.

Lemma sub_frounds (x y z : float) :
  is_finite x = true -> is_finite y = true -> is_finite z = true ->
  Z.abs (F2Z x - F2Z y) <= Z.abs (F2Z z) ->
  frounds 0 (F2Z x - F2Z y) (x - y).
Proof.
  intros Hx Hy Hz Hle. destruct (finite_valid x Hx), (finite_valid y Hy), prec_emax_ok.
  apply op_spec_frounds with (z := z); auto; [| rewrite Z.pow_0_r; lia].
  rewrite sub_spec. now apply SFsub_spec.
Qed.

(** A rounding statement may be divided by a common power of two. *)
Lemma frounds_scale (sh q A : Z) (r : float) :
  0 <= q <= sh -> frounds sh (A * 2 ^ (sh - q)) r -> frounds q A r.
Proof.
  intros Hq (Hf & Herr & Hbound).
  assert (HP : 0 < 2 ^ (sh - q)) by (apply Z.pow_pos_nonneg; lia).
  assert (Hq2 : 0 < 2 ^ q) by (apply Z.pow_pos_nonneg; lia).
  assert (Hsh : 2 ^ sh = 2 ^ q * 2 ^ (sh - q)).
  { rewrite <- Z.pow_add_r by lia. f_equal. lia. }
  set (P := 2 ^ (sh - q)) in *. set (Q := 2 ^ q) in *.
  split; [exact Hf |]. split.
  - rewrite Hsh in Herr.
    replace (F2Z r * (Q * P) - A * P) with ((F2Z r * Q - A) * P) in Herr by ring.
    rewrite !Z.abs_mul, (Z.abs_eq P) in Herr by lia.
    set (D := Z.abs (F2Z r * Q - A)) in *. set (AA := Z.abs A) in *.
    destruct Herr as [H | H]; [left | right]; nia.
  - intros w Hw. destruct (Hbound w Hw) as [Hup Hdown]. rewrite Hsh in Hup, Hdown.
    split; intros Hc; [apply Hup | apply Hdown]; nia.
Qed.

(** The exact values of the literals [0.02], [0.18] and [0]. *)
Lemma F2Z_GATEWAY : F2Z GATEWAY_FEE_PERCENTAGE = C1m * 2 ^ (1074 - 58).
Proof. vm_compute. reflexivity. Qed.

Lemma F2Z_GST : F2Z GST_PERCENTAGE = C2m * 2 ^ (1074 - 55).
Proof. vm_compute. reflexivity. Qed.

Lemma F2Z_zero : F2Z 0 = 0.
Proof. reflexivity. Qed.

(** Multiplication by a literal [c = C / 2^q] with [0 < c <= 1]. *)
Lemma mul_literal_frounds (x c : float) (C q : Z) :
  is_finite x = true -> is_finite c = true ->
  0 <= q <= 1074 -> 0 <= C <= 2 ^ q ->
  F2Z c = C * 2 ^ (1074 - q) ->
  frounds q (F2Z x * C) (x * c).
Proof.
  intros Hx Hc Hq HC Hval. apply frounds_scale with (sh := 1074); [assumption |].
  rewrite <- Z.mul_assoc, <- Hval. apply mul_frounds with (z := x); auto.
  rewrite Z.abs_mul, Hval.
  assert (HP : 0 < 2 ^ (1074 - q)) by (apply Z.pow_pos_nonneg; lia).
  assert (Hs : 2 ^ 1074 = 2 ^ q * 2 ^ (1074 - q)).
  { rewrite <- Z.pow_add_r by lia. f_equal. lia. }
  rewrite Hs, (Z.abs_eq (C * 2 ^ (1074 - q))) by nia.
  apply Z.mul_le_mono_nonneg_l; [apply Z.abs_nonneg | nia].
Qed.

(** The four operations of the breakdown on a finite input: each result is
    finite and is the rounding of the exact operation on its arguments. *)
Lemma breakdown_frounds (x : float) :
  is_finite x = true ->
  let r := calculateWithdrawalBreakdown x in
  frounds 58 (F2Z x * C1m) (gatewayFee r) /\
  frounds 55 (F2Z (gatewayFee r) * C2m) (gst r) /\
  frounds 0 (F2Z x - F2Z (gatewayFee r)) (x - gatewayFee r) /\
  frounds 0 (F2Z (x - gatewayFee r) - F2Z (gst r)) (netAmount r).
Proof.
  intros Hx r. unfold r, calculateWithdrawalBreakdown. cbn [gatewayFee gst netAmount].
  set (g := (x * GATEWAY_FEE_PERCENTAGE)%float).
  set (s := (g * GST_PERCENTAGE)%float).
  set (t := (x - g)%float).
  assert (Hg : frounds 58 (F2Z x * C1m) g).
  { apply mul_literal_frounds; [exact Hx | reflexivity | lia | | exact F2Z_GATEWAY].
    split; apply Z.leb_le; reflexivity. }
  pose proof Hg as (Hgf & _ & Hgb).
  assert (Hs : frounds 55 (F2Z g * C2m) s).
  { apply mul_literal_frounds; [exact Hgf | reflexivity | lia | | exact F2Z_GST].
    split; apply Z.leb_le; reflexivity. }
  pose proof Hs as (Hsf & _ & Hsb).
  pose proof (Hgb x Hx) as [Hgx1 Hgx2]. pose proof (Hgb 0%float eq_refl) as [Hg01 Hg02].
  rewrite F2Z_zero in Hg01, Hg02.
  pose proof (Hsb g Hgf) as [Hsg1 Hsg2]. pose proof (Hsb 0%float eq_refl) as [Hs01 Hs02].
  rewrite F2Z_zero in Hs01, Hs02.
  assert (Ht : frounds 0 (F2Z x - F2Z g) t).
  { apply sub_frounds with (z := x); auto. unfold C1m in *. lia. }
  pose proof Ht as (Htf & _ & Htb).
  pose proof (Htb x Hx) as [Htx1 Htx2]. pose proof (Htb 0%float eq_refl) as [Ht01 Ht02].
  rewrite F2Z_zero in Ht01, Ht02.
  assert (Hn : frounds 0 (F2Z t - F2Z s) (t - s)).
  { apply sub_frounds with (z := x); auto. unfold C1m, C2m in *. lia. }
  exact (conj Hg (conj Hs (conj Ht Hn))).
Qed.

(** Rounding an integer number of units: the error is relative. *)
Lemma frounds0_err (A : Z) (r : float) :
  frounds 0 A r -> 2 ^ 53 * Z.abs (F2Z r - A) <= Z.abs A.
Proof.
  intros (_ & Herr & _). rewrite Z.pow_0_r, Z.mul_1_r in Herr.
  destruct Herr as [H | H]; [exact H |].
  assert (F2Z r - A = 0) by lia. replace (F2Z r - A) with 0 by lia. cbn [Z.abs]. lia.
Qed.

(** The rounding facts of the four operations on [x], each instantiated at
    the representable numbers the bounds are read from: [x] itself, zero, and
    the intermediate results.  [Hab] says that the value named [a] is at most
    the value named [b], provided the exact values are in that order. *)
Ltac breakdown_bounds x Hx :=
  destruct (breakdown_frounds x Hx) as (Hg & Hs & Ht & Hn);
  pose proof (frounds0_err _ _ Ht) as Et; pose proof (frounds0_err _ _ Hn) as En;
  destruct Hg as (Hgf & Eg & Hgb); destruct Hs as (Hsf & Es & Hsb);
  destruct Ht as (Htf & _ & Htb); destruct Hn as (Hnf & _ & Hnb);
  pose proof (Hgb x Hx) as [Hgx Hxg]; pose proof (Hgb 0%float eq_refl) as [Hg0 H0g];
  pose proof (Hsb _ Hgf) as [Hsg Hgs]; pose proof (Hsb 0%float eq_refl) as [Hs0 H0s];
  pose proof (Htb x Hx) as [Htx Hxt]; pose proof (Htb _ Hgf) as [Htg Hgt];
  pose proof (Hnb _ Htf) as [Hnt Htn]; pose proof (Hnb 0%float eq_refl) as [Hn0 H0n];
  rewrite F2Z_zero in *; rewrite Z.pow_0_r, Z.mul_1_r in *;
  unfold C1m, C2m in *.

(** Everything the later proofs need about one run of the breakdown on a
    non-negative finite input, as linear facts over the exact values. *)
Lemma breakdown_nonneg (x : float) :
  is_finite x = true -> 0 <= F2Z x ->
  let r := calculateWithdrawalBreakdown x in
  let X := F2Z x in
  let G := F2Z (gatewayFee r) in
  let S := F2Z (gst r) in
  let T := F2Z (x - gatewayFee r)%float in
  let N := F2Z (netAmount r) in
  (is_finite (gatewayFee r) = true /\ is_finite (gst r) = true /\
   is_finite (x - gatewayFee r)%float = true /\ is_finite (netAmount r) = true) /\
  (0 <= G /\ 2 * G <= X /\ 0 <= S <= G /\ G <= T <= X /\ 0 <= N <= T) /\
  (2 ^ 53 * Z.abs (G * 2 ^ 58 - X * C1m) <= X * C1m \/ 2 * Z.abs (G * 2 ^ 58 - X * C1m) <= 2 ^ 58) /\
  (2 ^ 53 * Z.abs (S * 2 ^ 55 - G * C2m) <= G * C2m \/ 2 * Z.abs (S * 2 ^ 55 - G * C2m) <= 2 ^ 55) /\
  2 ^ 53 * Z.abs (T - (X - G)) <= X - G /\
  2 ^ 53 * Z.abs (N - (T - S)) <= T - S.
Proof.
  intros Hx HX r X G S T N. breakdown_bounds x Hx.
  fold r X G S T N in Et, En, Eg, Es, Hgx, H0g, Hsg, H0s, Htx, Hgt, Hnt, H0n.
  assert (HG : 0 <= G <= X) by (clear - HX Hgx H0g; lia).
  assert (HG2 : 2 * G <= X) by (clear - HX HG Eg; lia).
  assert (HS : 0 <= S <= G) by (clear - HG Hsg H0s; lia).
  assert (HT : G <= T <= X) by (clear - HG HG2 Htx Hgt; lia).
  assert (HN : 0 <= N <= T) by (clear - HS HT Hnt H0n; lia).
  rewrite (Z.abs_eq (X * _)) in Eg by (clear - HX; lia).
  rewrite (Z.abs_eq (G * _)) in Es by (clear - HG; lia).
  rewrite (Z.abs_eq (X - G)) in Et by (clear - HG; lia).
  rewrite (Z.abs_eq (T - S)) in En by (clear - HS HT; lia).
  repeat split; try assumption; try (clear - HG; lia); try (clear - HS; lia);
    try (clear - HT; lia); clear - HN; lia.
Qed.

(** The exact value of [Number.MAX_VALUE]. *)
Lemma F2Z_max_float : F2Z max_float = (2 ^ 53 - 1) * 2 ^ 2045.
Proof. vm_compute. reflexivity. Qed.

(** The three largest finite doubles. *)
Lemma top_floats (x : float) :
  is_finite x = true ->
  (2 ^ 53 - 4) * 2 ^ 2045 < F2Z x ->
  x = max_float \/ x = 0x1.ffffffffffffep+1023%float \/ x = 0x1.ffffffffffffdp+1023%float.
Proof.
  intros Hx Hbig. destruct (finite_valid x Hx) as [Hv Hf].
  rewrite <- (SF2Prim_Prim2SF x). unfold F2Z in Hbig.
  destruct prec_emax_ok as [Hp He].
  assert (H0 : 0 < (2 ^ 53 - 4) * 2 ^ 2045) by (vm_compute; reflexivity).
  destruct (Prim2SF x) as [s | s | | s m e]; try discriminate; cbn [SF2Z] in Hbig.
  - destruct (valid_finite_bounds prec emax _ _ _ Hv) as ((He1 & He2) & Hd & _).
    pose proof (digits2_pos_bounds m) as [_ Hm].
    assert (Hm53 : Zpos m < 2 ^ 53).
    { eapply Z.lt_le_trans; [exact Hm | apply Z.pow_le_mono_r; unfold prec in Hd; lia]. }
    change (SpecFloat.emin prec emax) with (-1074) in *. unfold prec, emax in *.
    assert (Hpos : 0 < 2 ^ (e - -1074)) by (apply Z.pow_pos_nonneg; lia).
    destruct s; cbn [cond_Zopp] in Hbig; [nia |].
    assert (He971 : e = 971).
    { destruct (Z.eq_dec e 971) as [| Hne]; [assumption | exfalso].
      assert (Hle : 2 ^ (e - -1074) <= 2 ^ 2044) by (apply Z.pow_le_mono_r; lia).
      assert (Zpos m * 2 ^ (e - -1074) <= 2 ^ 53 * 2 ^ 2044) by nia.
      assert (2 ^ 53 * 2 ^ 2044 <= (2 ^ 53 - 4) * 2 ^ 2045) by (vm_compute; discriminate).
      lia. }
    subst e. change (971 - -1074) with 2045 in Hbig.
    assert (Hm3 : 2 ^ 53 - 4 < Zpos m).
    { apply Z.mul_lt_mono_pos_r with (p := 2 ^ 2045); [vm_compute; reflexivity | exact Hbig]. }
    assert (Hcases : m = 9007199254740991%positive \/ m = 9007199254740990%positive \/
                     m = 9007199254740989%positive) by lia.
    destruct Hcases as [-> | [-> | ->]]; [left | right; left | right; right]; reflexivity.
Qed.

(** On each of them the sum is computed outright. *)
Lemma sum_top_floats (x : float) :
  x = max_float \/ x = 0x1.ffffffffffffep+1023%float \/ x = 0x1.ffffffffffffdp+1023%float ->
  let sum := breakdownSum (calculateWithdrawalBreakdown x) in
  is_finite sum = true /\ 2 ^ 51 * Z.abs (F2Z sum - F2Z x) <= F2Z x.
Proof.
  intros [-> | [-> | ->]]; (split; [reflexivity | apply Z.leb_le; vm_compute; reflexivity]).
Qed.

(** The same on a non-positive input, with the signs reversed. *)
Lemma breakdown_nonpos (x : float) :
  is_finite x = true -> F2Z x <= 0 ->
  let r := calculateWithdrawalBreakdown x in
  let X := F2Z x in
  let G := F2Z (gatewayFee r) in
  let S := F2Z (gst r) in
  let T := F2Z (x - gatewayFee r)%float in
  let N := F2Z (netAmount r) in
  (is_finite (gatewayFee r) = true /\ is_finite (gst r) = true /\
   is_finite (x - gatewayFee r)%float = true /\ is_finite (netAmount r) = true) /\
  (G <= 0 /\ X <= 2 * G /\ G <= S <= 0 /\ X <= T <= G /\ T <= N <= 0) /\
  (2 ^ 53 * Z.abs (G * 2 ^ 58 - X * C1m) <= - (X * C1m) \/ 2 * Z.abs (G * 2 ^ 58 - X * C1m) <= 2 ^ 58) /\
  (2 ^ 53 * Z.abs (S * 2 ^ 55 - G * C2m) <= - (G * C2m) \/ 2 * Z.abs (S * 2 ^ 55 - G * C2m) <= 2 ^ 55) /\
  2 ^ 53 * Z.abs (T - (X - G)) <= - (X - G) /\
  2 ^ 53 * Z.abs (N - (T - S)) <= - (T - S).
Proof.
  intros Hx HX r X G S T N. breakdown_bounds x Hx.
  fold r X G S T N in Et, En, Eg, Es, Hxg, Hg0, Hgs, Hs0, Hxt, Htg, Htn, Hn0.
  assert (HG : X <= G <= 0) by (clear - HX Hxg Hg0; lia).
  assert (HG2 : X <= 2 * G) by (clear - HX HG Eg; lia).
  assert (HS : G <= S <= 0) by (clear - HG Hgs Hs0; lia).
  assert (HT : X <= T <= G) by (clear - HG HG2 Hxt Htg; lia).
  assert (HN : T <= N <= 0) by (clear - HS HT Htn Hn0; lia).
  rewrite (Z.abs_neq (X * _)) in Eg by (clear - HX; lia).
  rewrite (Z.abs_neq (G * _)) in Es by (clear - HG; lia).
  rewrite (Z.abs_neq (X - G)) in Et by (clear - HG; lia).
  rewrite (Z.abs_neq (T - S)) in En by (clear - HS HT; lia).
  repeat split; try assumption; try (clear - HG; lia); try (clear - HS; lia);
    try (clear - HT; lia); clear - HN; lia.
Qed.

(** Distance between the computed net amount and the exact net rate applied
    to the input: at most [3*2^-53*|x|] plus two units of [2^-1074]. *)
Lemma netAmount_error (x : float) :
  is_finite x = true ->
  let N := F2Z (netAmount (calculateWithdrawalBreakdown x)) in
  is_finite (netAmount (calculateWithdrawalBreakdown x)) = true /\
  2 ^ 53 * Z.abs (2 ^ 113 * N - netRate * F2Z x) <= 2 ^ 113 * (3 * Z.abs (F2Z x) + 2 ^ 54).
Proof.
  intros Hx N. unfold netRate, C1m, C2m.
  destruct (Z.le_ge_cases 0 (F2Z x)) as [Hpos | Hneg].
  - destruct (breakdown_nonneg x Hx Hpos)
      as ((_ & _ & _ & Hnf) & (HG & HG2 & HS & HT & HN) & Eg & Es & Et & En).
    split; [exact Hnf |]. fold N in HN, En.
    set (X := F2Z x) in *. set (G := F2Z (gatewayFee _)) in *. set (S := F2Z (gst _)) in *.
    set (T := F2Z (x - _)%float) in *.
    unfold C1m, C2m in *.
    clear - Hpos HG HG2 HS HT HN Eg Es Et En. lia.
  - destruct (breakdown_nonpos x Hx Hneg)
      as ((_ & _ & _ & Hnf) & (HG & HG2 & HS & HT & HN) & Eg & Es & Et & En).
    split; [exact Hnf |]. fold N in HN, En.
    set (X := F2Z x) in *. set (G := F2Z (gatewayFee _)) in *. set (S := F2Z (gst _)) in *.
    set (T := F2Z (x - _)%float) in *.
    unfold C1m, C2m in *.
    clear - Hneg HG HG2 HS HT HN Eg Es Et En. lia.
Qed.

(* ================================================================= *)
(** * The withdrawal breakdown *)

(** The breakdown of the spec's second scenario. *)
Example breakdown_999 :
  calculateWithdrawalBreakdown 999 =
  {| gatewayFee := 19.98; gst := 3.5964; netAmount := 975.4236 |}.
Proof. reflexivity. Qed.

(** The breakdown at the minimum withdrawal. *)
Example breakdown_1000 :
  calculateWithdrawalBreakdown 1000 =
  {| gatewayFee := 20; gst := 3.5999999999999996; netAmount := 976.4 |}.
Proof. reflexivity. Qed.

(** The three parts need not add up exactly: on [1] and on [10] the sum is
    one unit in the last place away from the input. *)
Example sum_of_parts_inexact :
  breakdownSum (calculateWithdrawalBreakdown 1) = 0.9999999999999999%float /\
  breakdownSum (calculateWithdrawalBreakdown 10) = 10.000000000000002%float.
Proof. split; reflexivity. Qed.

(** C1, counterexample: [Infinity] is a non-negative number, its net amount
    is [Infinity - Infinity], and the sum of the three parts is [NaN], which
    is within no tolerance of the input. *)
Lemma breakdown_sum_of_infinity_is_nan :
  let sum := breakdownSum (calculateWithdrawalBreakdown infinity) in
  (0 <=? infinity)%float = true /\
  is_nan sum = true /\
  (sum =? infinity)%float = false /\
  forall tolerance : number, (abs (sum - infinity) <=? tolerance)%float = false.
Proof.
  intros sum. repeat split. intros tolerance. rewrite leb_spec. reflexivity.
Qed.

(** C1 (amended): for every finite non-negative [grossAmount], the three
    fields of the breakdown add up (in floating point, as
    [gatewayFee + gst + netAmount]) to a finite number within the relative
    tolerance [2^-51], twice the machine epsilon, of [grossAmount]. *)
Theorem breakdown_sums_to_gross (grossAmount : number) :
  is_finite grossAmount = true ->
  (0 <=? grossAmount)%float = true ->
  let sum := breakdownSum (calculateWithdrawalBreakdown grossAmount) in
  is_finite sum = true /\
  2 ^ 51 * Z.abs (F2Z sum - F2Z grossAmount) <= F2Z grossAmount.
Proof.
  intros Hx H0. rewrite leb_F2Z in H0 by auto. rewrite F2Z_zero in H0. apply Z.leb_le in H0.
  destruct (Z.lt_ge_cases ((2 ^ 53 - 4) * 2 ^ 2045) (F2Z grossAmount)) as [Htop | Hlow].
  { apply sum_top_floats. now apply top_floats. }
  intros sum. unfold sum, breakdownSum.
  destruct (breakdown_nonneg grossAmount Hx H0)
    as ((Hgf & Hsf & Htf & Hnf) & (HG & HG2 & HS & HT & HN) & _ & _ & Et & En).
  set (r := calculateWithdrawalBreakdown grossAmount) in *.
  set (X := F2Z grossAmount) in *. set (G := F2Z (gatewayFee r)) in *.
  set (S := F2Z (gst r)) in *. set (T := F2Z (grossAmount - gatewayFee r)%float) in *.
  set (N := F2Z (netAmount r)) in *.
  assert (Hgs : frounds 0 (G + S) (gatewayFee r + gst r)%float).
  { apply add_frounds with (z := grossAmount); auto. clear - HG HG2 HS. lia. }
  pose proof (frounds0_err _ _ Hgs) as Egs. destruct Hgs as (Hgsf & _ & Hgsb).
  pose proof (Hgsb grossAmount Hx) as [Hgsx _]. pose proof (Hgsb 0%float eq_refl) as [_ Hgs0].
  rewrite F2Z_zero, Z.pow_0_r, Z.mul_1_r in *. fold X in Hgsx.
  set (GS := F2Z (gatewayFee r + gst r)%float) in *.
  assert (HGS : 0 <= GS <= X) by (clear - HG HG2 HS Hgsx Hgs0; lia).
  rewrite (Z.abs_eq (G + S)) in Egs by (clear - HG HS; lia).
  assert (HXmax : X <= (2 ^ 53 - 4) * 2 ^ 2045) by exact Hlow.
  assert (Hbound : 9007199254740992 * (GS + N - X) <= 3 * X)
    by (clear - HG HS HT HN HGS Et En Egs; lia).
  assert (Hsum : frounds 0 (GS + N) (gatewayFee r + gst r + netAmount r)%float).
  { apply add_frounds with (z := max_float); auto. rewrite F2Z_max_float.
    set (U := 2 ^ 2045) in *. assert (0 < U) by (unfold U; apply Z.pow_pos_nonneg; lia).
    clear - HGS HN HT HXmax Hbound H. lia. }
  pose proof (frounds0_err _ _ Hsum) as Esum. destruct Hsum as (Hsumf & _ & _).
  split; [exact Hsumf |].
  set (SUM := F2Z (gatewayFee r + gst r + netAmount r)%float) in *.
  rewrite (Z.abs_eq (GS + N)) in Esum by (clear - HGS HN HT; lia).
  clear - HG HS HT HN HGS Et En Egs Esum. lia.
Qed.

(** The amended C1 at [2000]. *)
Lemma breakdown_sums_to_gross_witness :
  is_finite 2000 = true /\ (0 <=? 2000)%float = true /\
  (let sum := breakdownSum (calculateWithdrawalBreakdown 2000) in
   is_finite sum = true /\ 2 ^ 51 * Z.abs (F2Z sum - F2Z 2000) <= F2Z 2000).
Proof.
  split; [reflexivity |]. split; [reflexivity |].
  apply (breakdown_sums_to_gross 2000); reflexivity.
Defined.

(** C2: for every [grossAmount] the gateway fee is the product
    [grossAmount * 0.02] and the GST is the product [gatewayFee * 0.18] of
    that fee, with the two rates taken from the constants
    [GATEWAY_FEE_PERCENTAGE = 0.02] and [GST_PERCENTAGE = 0.18]; the GST is
    neither levied on the gross amount nor computed from a combined rate. *)
Theorem fee_and_gst_are_compositional :
  GATEWAY_FEE_PERCENTAGE = 0.02%float /\
  GST_PERCENTAGE = 0.18%float /\
  (forall grossAmount : number,
     let b := calculateWithdrawalBreakdown grossAmount in
     gatewayFee b = (grossAmount * 0.02)%float /\
     gst b = (gatewayFee b * 0.18)%float /\
     gst b = (grossAmount * GATEWAY_FEE_PERCENTAGE * GST_PERCENTAGE)%float) /\
  (gst (calculateWithdrawalBreakdown 2000) =? 2000 * 0.18)%float = false /\
  (gst (calculateWithdrawalBreakdown 2000) =? 2000 * (0.02 * 0.18))%float = false.
Proof.
  split; [reflexivity |]. split; [reflexivity |]. split.
  - intros grossAmount b. repeat split; reflexivity.
  - split; reflexivity.
Qed.




(** C4, counterexample: two adjacent doubles near [8e-308], [a < b], whose
    net amounts are in the opposite order. *)
Lemma netAmount_not_monotone :
  let a := 0x1.cbb0c55a4f9acp-1021%float in
  let b := 0x1.cbb0c55a4f9adp-1021%float in
  (a <=? b)%float = true /\
  (netAmount (calculateWithdrawalBreakdown b) <?
   netAmount (calculateWithdrawalBreakdown a))%float = true.
Proof. split; reflexivity. Qed.

(** C4 (amended): the net amount is non-decreasing in the gross amount up to
    rounding.  For finite [a <= b]: the net amount of [a] exceeds that of [b]
    by at most [3 * 2^-53 * (|a| + |b|) + 2^-1072]; and it does not exceed it
    at all once [b - a] is at least [2^-51 * (|a| + |b|) + 5 * 2^-1074], a few
    units in the last place.  (Exact values are in units of [2^-1074].) *)
Theorem netAmount_monotone_up_to_rounding (a b : number) :
  is_finite a = true -> is_finite b = true ->
  (a <=? b)%float = true ->
  let na := netAmount (calculateWithdrawalBreakdown a) in
  let nb := netAmount (calculateWithdrawalBreakdown b) in
  2 ^ 53 * (F2Z na - F2Z nb) <= 3 * (Z.abs (F2Z a) + Z.abs (F2Z b)) + 2 ^ 55 /\
  (Z.abs (F2Z a) + Z.abs (F2Z b) + 5 * 2 ^ 51 <= 2 ^ 51 * (F2Z b - F2Z a) ->
   (na <=? nb)%float = true).
Proof.
  intros Ha Hb Hab na nb. rewrite leb_F2Z in Hab by auto. apply Z.leb_le in Hab.
  destruct (netAmount_error a Ha) as [Hfa Ea]. destruct (netAmount_error b Hb) as [Hfb Eb].
  fold na in Hfa, Ea. fold nb in Hfb, Eb. rewrite leb_F2Z by assumption.
  assert (HK : 0 < netRate) by (vm_compute; reflexivity).
  assert (Hmono : netRate * F2Z a <= netRate * F2Z b) by (apply Z.mul_le_mono_nonneg_l; lia).
  unfold netRate, C1m, C2m in *.
  set (A := F2Z a) in *. set (B := F2Z b) in *.
  set (NA := F2Z na) in *. set (NB := F2Z nb) in *.
  split.
  - clear - Ea Eb Hmono. lia.
  - intros Hgap. apply Z.leb_le. clear - Ea Eb Hab Hgap. lia.
Qed.

(** The amended C4 at [1000 <= 2000], whose gap is wide enough for the
    exact order. *)
Lemma netAmount_monotone_up_to_rounding_witness :
  is_finite 1000 = true /\ is_finite 2000 = true /\ (1000 <=? 2000)%float = true /\
  (let na := netAmount (calculateWithdrawalBreakdown 1000) in
   let nb := netAmount (calculateWithdrawalBreakdown 2000) in
   2 ^ 53 * (F2Z na - F2Z nb) <= 3 * (Z.abs (F2Z 1000) + Z.abs (F2Z 2000)) + 2 ^ 55 /\
   (na <=? nb)%float = true).
Proof.
  split; [reflexivity |]. split; [reflexivity |]. split; [reflexivity |].
  destruct (netAmount_monotone_up_to_rounding 1000 2000 eq_refl eq_refl eq_refl)
    as [Htol Hgap].
  split; [exact Htol |]. apply Hgap. apply Z.leb_le. vm_compute. reflexivity.
Defined.

(** C5, counterexample: the GST computed for [2000] is not the double [7.2]. *)
Lemma gst_of_2000_is_not_7_2 :
  (gst (calculateWithdrawalBreakdown 2000) =? 7.2)%float = false /\
  calculateWithdrawalBreakdown 2000 <>
  {| gatewayFee := 40; gst := 7.2; netAmount := 1952.8 |}.
Proof.
  split; [reflexivity |]. intros H.
  apply (f_equal (fun b => (gst b =? 7.2)%float)) in H. discriminate H.
Qed.

(** C5 (amended): [calculateWithdrawalBreakdown(2000)] returns
    [gatewayFee = 40], [gst = 7.199999999999999], the double just below
    [7.2], and [netAmount = 1952.8]. *)
Theorem withdrawal_breakdown_of_2000 :
  calculateWithdrawalBreakdown 2000 =
  {| gatewayFee := 40; gst := 7.199999999999999; netAmount := 1952.8 |} /\
  next_up (gst (calculateWithdrawalBreakdown 2000)) = 7.2%float.
Proof. split; reflexivity. Qed.

(** C6: the breakdown is a total function of its input with no validation
    branch: every input, zero, negative or not a number, goes through the same
    three arithmetic steps, and on [0] all three fields are [0]. *)
Theorem breakdown_total_no_validation :
  (forall grossAmount : number,
     calculateWithdrawalBreakdown grossAmount =
     {| gatewayFee := grossAmount * 0.02;
        gst := grossAmount * 0.02 * 0.18;
        netAmount := grossAmount - grossAmount * 0.02 - grossAmount * 0.02 * 0.18 |}) /\
  calculateWithdrawalBreakdown 0 = {| gatewayFee := 0; gst := 0; netAmount := 0 |} /\
  calculateWithdrawalBreakdown (-100) =
  {| gatewayFee := -2; gst := -0.36; netAmount := -97.64 |} /\
  calculateWithdrawalBreakdown nan = {| gatewayFee := nan; gst := nan; netAmount := nan |}.
Proof. repeat split; reflexivity. Qed.

(* ================================================================= *)
(** * The withdraw guard of the wallet screen *)

(** JS [===] excludes JS [<]. *)
Lemma eqb_not_ltb (x y : number) : (x =? y)%float = true -> (x <? y)%float = false.
Proof.
  rewrite eqb_spec, ltb_spec. unfold SFeqb, SFltb.
  destruct (SFcompare (Prim2SF x) (Prim2SF y)) as [[| |] |]; intros H;
    reflexivity || discriminate H.
Qed.

(** The minimum of the screen's wallet is the constant of the entities. *)
Lemma wallet_minWithdrawal :
  WalletScreen.minWithdrawal WalletScreen.wallet = MIN_WITHDRAWAL_AMOUNT.
Proof. reflexivity. Qed.

(** C7: with the minimum set to [MIN_WITHDRAWAL_AMOUNT = 1000], pressing
    withdraw with a balance below 1000 does nothing, and with a balance equal
    to 1000 it calls [onWithdraw]: the boundary is inclusive. *)
Theorem withdraw_guard_boundary (w : WalletScreen.Wallet) :
  WalletScreen.minWithdrawal w = MIN_WITHDRAWAL_AMOUNT ->
  ((WalletScreen.availableBalance w <? 1000)%float = true ->
   WalletScreen.pressWithdraw w = []) /\
  ((WalletScreen.availableBalance w =? 1000)%float = true ->
   WalletScreen.pressWithdraw w = [Haptics ImpactMedium; OnWithdraw]) /\
  (In OnWithdraw (WalletScreen.pressWithdraw w) <->
   (WalletScreen.availableBalance w <? 1000)%float = false).
Proof.
  intros Hmin. unfold WalletScreen.pressWithdraw, WalletScreen.withdrawDisabled.
  rewrite Hmin. change MIN_WITHDRAWAL_AMOUNT with 1000%float.
  split; [| split].
  - intros Hlt. now rewrite Hlt.
  - intros Heq. now rewrite (eqb_not_ltb _ _ Heq).
  - destruct (WalletScreen.availableBalance w <? 1000)%float; cbn [In]; split; intros H;
      try discriminate H; try reflexivity; try contradiction.
    right. left. reflexivity.
Qed.

(** C7 on a wallet at the minimum and on one a rupee below. *)
Lemma withdraw_guard_boundary_witness :
  WalletScreen.minWithdrawal WalletScreen.walletAtMinimum = MIN_WITHDRAWAL_AMOUNT /\
  WalletScreen.pressWithdraw WalletScreen.walletAtMinimum =
    [Haptics ImpactMedium; OnWithdraw] /\
  WalletScreen.pressWithdraw WalletScreen.walletBelowMinimum = [].
Proof.
  split; [reflexivity |]. split.
  - apply (withdraw_guard_boundary WalletScreen.walletAtMinimum); reflexivity.
  - apply (withdraw_guard_boundary WalletScreen.walletBelowMinimum); reflexivity.
Defined.

(* ================================================================= *)
(** * Due clearing and commission availability *)

Example scenario_three_participants :
  let l2 := clearDue "due-2" via_payment (clearDue "due-1" via_payment sampleLedger) in
  let l3 := clearDue "due-3" via_commission l2 in
  map CommissionRecord.status (ledgerCommissions l2) =
    [CommissionStatus.pending; CommissionStatus.pending] /\
  map CommissionRecord.status (ledgerCommissions l3) =
    [CommissionStatus.available; CommissionStatus.pending] /\
  clearDue "due-3" via_payment l3 = l3 /\
  (DUE_AMOUNT * 3 = 75 /\ 75 * COMMISSION_RATE = 60)%float.
Proof. repeat split; reflexivity. Qed.

(** A commission of another event is left as it is. *)
Lemma countClearedDue_other_event (eventId : string) (c : CommissionRecord.t) :
  CommissionRecord.eventId c <> eventId -> countClearedDue eventId c = c.
Proof.
  intros Hne. unfold countClearedDue.
  destruct (String.eqb_spec (CommissionRecord.eventId c) eventId); [contradiction | reflexivity].
Qed.

(** C8: clearing a pending due moves a pending commission to [available] if
    and only if the commission belongs to the due's event and its count of
    cleared dues, the due just cleared included, equals [totalParticipants];
    a commission of another event is left as it is; clearing a due that is
    already cleared (or unknown) changes no commission at all. *)
Theorem commission_available_iff_all_dues_cleared
    (dueId : string) (via : ClearedVia) (l : Ledger) :
  let l' := clearDue dueId via l in
  match findDue dueId l with
  | None => l' = l
  | Some d =>
      match DueRecord.status d with
      | DueStatus.cleared =>
          l' = l /\
          map CommissionRecord.participantsDuesCleared (ledgerCommissions l') =
          map CommissionRecord.participantsDuesCleared (ledgerCommissions l)
      | DueStatus.pending =>
          ledgerCommissions l' =
            map (countClearedDue (DueRecord.eventId d)) (ledgerCommissions l) /\
          forall c : CommissionRecord.t,
            let c' := countClearedDue (DueRecord.eventId d) c in
            (CommissionRecord.eventId c <> DueRecord.eventId d -> c' = c) /\
            (CommissionRecord.status c = CommissionStatus.pending ->
               (CommissionRecord.status c' = CommissionStatus.available <->
                CommissionRecord.eventId c = DueRecord.eventId d /\
                (CommissionRecord.participantsDuesCleared c' =?
                 CommissionRecord.totalParticipants c')%float = true)) /\
            (CommissionRecord.status c <> CommissionStatus.pending ->
               CommissionRecord.status c' = CommissionRecord.status c)
      end
  end.
Proof.
  intros l'. unfold l', clearDue.
  destruct (findDue dueId l) as [d |]; [| reflexivity].
  destruct (DueRecord.status d); [| split; reflexivity].
  cbn [ledgerCommissions]. split; [reflexivity |].
  intros c. split; [apply countClearedDue_other_event |].
  unfold countClearedDue.
  destruct (String.eqb_spec (CommissionRecord.eventId c) (DueRecord.eventId d)) as [He | He];
    cbn [CommissionRecord.status CommissionRecord.participantsDuesCleared
         CommissionRecord.totalParticipants].
  - split.
    + intros Hp. unfold isPending. rewrite Hp. cbn [andb].
      destruct (CommissionRecord.participantsDuesCleared c + 1 =?
                CommissionRecord.totalParticipants c)%float; split.
      * intros _. split; [exact He | reflexivity].
      * reflexivity.
      * intros H. discriminate H.
      * intros [_ H]. discriminate H.
    + intros Hnp. unfold isPending.
      destruct (CommissionRecord.status c); [contradiction | reflexivity | reflexivity].
  - split.
    + intros Hp. rewrite Hp. split; [discriminate | intros [H _]; contradiction].
    + reflexivity.
Qed.

(* ================================================================= *)
(** * OTP verification *)

(** With six characters entered and no verification running, the Verify
    button hands the joined OTP to [handleVerify]. *)
Lemma pressVerify_complete (st : OTPScreen.t) :
  String.length (OTPScreen.joinOtp (OTPScreen.otp st)) = OTPScreen.OTP_LENGTH ->
  OTPScreen.isLoading st = false ->
  OTPScreen.timers (OTPScreen.pressVerify st) =
  OTPScreen.timers st ++
  [{| OTPScreen.remaining := 1500;
      OTPScreen.otpValue := OTPScreen.joinOtp (OTPScreen.otp st) |}].
Proof.
  intros Hlen Hload. unfold OTPScreen.pressVerify.
  rewrite Hlen, Hload, Nat.eqb_refl. reflexivity.
Qed.

(** With fewer than six characters entered the Verify button does nothing. *)
Lemma pressVerify_incomplete (st : OTPScreen.t) :
  String.length (OTPScreen.joinOtp (OTPScreen.otp st)) <> OTPScreen.OTP_LENGTH ->
  OTPScreen.pressVerify st = st.
Proof.
  intros Hlen. unfold OTPScreen.pressVerify.
  destruct (Nat.eqb_spec (String.length (OTPScreen.joinOtp (OTPScreen.otp st)))
              OTPScreen.OTP_LENGTH); [contradiction |].
  reflexivity.
Qed.




(* ================================================================= *)
(** * The finance store *)

(** C10: each setter replaces its own field and leaves the six others as
    they were; [reset] restores the initial state: no summary, four empty
    arrays, not loading, no error. *)
Theorem finance_store_setters_frame (st : financeStore.FinanceState) :
  let keep := financeStore.Build_FinanceState in
  let summary := financeStore.summary st in
  let transactions := financeStore.transactions st in
  let dues := financeStore.dues st in
  let commissions := financeStore.commissions st in
  let withdrawals := financeStore.withdrawals st in
  let isLoading := financeStore.isLoading st in
  let error := financeStore.error st in
  (forall v, financeStore.setSummary v st =
     keep (Some v) transactions dues commissions withdrawals isLoading error) /\
  (forall v, financeStore.setTransactions v st =
     keep summary v dues commissions withdrawals isLoading error) /\
  (forall v, financeStore.setDues v st =
     keep summary transactions v commissions withdrawals isLoading error) /\
  (forall v, financeStore.setCommissions v st =
     keep summary transactions dues v withdrawals isLoading error) /\
  (forall v, financeStore.setWithdrawals v st =
     keep summary transactions dues commissions v isLoading error) /\
  (forall v, financeStore.setLoading v st =
     keep summary transactions dues commissions withdrawals v error) /\
  (forall v, financeStore.setError v st =
     keep summary transactions dues commissions withdrawals isLoading v) /\
  financeStore.reset st = financeStore.initialState /\
  financeStore.initialState = keep None [] [] [] [] false None.
Proof. repeat split; reflexivity. Qed.

(* ================================================================= *)
(** * The withdrawal breakdown: order of the parts and effective rate *)

(** X1: on a finite non-negative [grossAmount] the parts are ordered:
    [0 <= gst <= gatewayFee <= netAmount <= grossAmount]. *)
Theorem breakdown_parts_ordered (grossAmount : number) :
  is_finite grossAmount = true ->
  (0 <=? grossAmount)%float = true ->
  let r := calculateWithdrawalBreakdown grossAmount in
  (0 <=? gst r)%float = true /\
  (gst r <=? gatewayFee r)%float = true /\
  (gatewayFee r <=? netAmount r)%float = true /\
  (netAmount r <=? grossAmount)%float = true.
Proof.
  intros Hx H0 r. rewrite leb_F2Z in H0 by auto. rewrite F2Z_zero in H0. apply Z.leb_le in H0.
  destruct (breakdown_nonneg grossAmount Hx H0)
    as ((Hgf & Hsf & Htf & Hnf) & (HG & HG2 & HS & HT & HN) & Eg & _ & Et & _).
  destruct (breakdown_frounds grossAmount Hx) as (_ & _ & _ & (_ & _ & Hnb)).
  pose proof (Hnb _ Hgf) as [_ Hgn]. rewrite Z.pow_0_r, !Z.mul_1_r in Hgn.
  fold r in Hgf, Hsf, Hnf, HG, HG2, HS, HT, HN, Eg, Et, Hgn.
  set (X := F2Z grossAmount) in *. set (G := F2Z (gatewayFee r)) in *.
  set (S := F2Z (gst r)) in *. set (T := F2Z (grossAmount - gatewayFee r)%float) in *.
  set (N := F2Z (netAmount r)) in *.
  assert (HGN : G <= N).
  { apply Hgn. unfold C1m in Eg. clear - H0 HG HG2 HS HT Eg Et. lia. }
  rewrite !leb_F2Z by (auto; reflexivity). rewrite F2Z_zero. fold X G S N.
  repeat split; apply Z.leb_le; clear - HG HS HT HN HGN; lia.
Qed.

(** X1 on a withdrawal of 2000 rupees. *)
Lemma breakdown_parts_ordered_witness :
  let r := calculateWithdrawalBreakdown 2000 in
  (0 <=? gst r)%float = true /\
  (gst r <=? gatewayFee r)%float = true /\
  (gatewayFee r <=? netAmount r)%float = true /\
  (netAmount r <=? 2000)%float = true.
Proof. apply (breakdown_parts_ordered 2000); reflexivity. Defined.

(** X2: the net amount is 97.64 % of the gross amount up to rounding: on
    every finite [grossAmount], [|netAmount - 0.9764 * grossAmount|] is at
    most [2^-51 * |grossAmount|] plus two units of [2^-1074]. *)
Theorem netAmount_is_9764_per_10000 (grossAmount : number) :
  is_finite grossAmount = true ->
  let n := netAmount (calculateWithdrawalBreakdown grossAmount) in
  is_finite n = true /\
  2 ^ 51 * Z.abs (10000 * F2Z n - 9764 * F2Z grossAmount)
    <= 10000 * (Z.abs (F2Z grossAmount) + 2 ^ 52).
Proof.
  intros Hx n. destruct (netAmount_error grossAmount Hx) as [Hf He].
  split; [exact Hf |]. fold n in He. unfold netRate, C1m, C2m in He.
  set (X := F2Z grossAmount) in *. set (N := F2Z n) in *.
  clear - He. lia.
Qed.

(** X2 on a withdrawal of 2000 rupees. *)
Lemma netAmount_is_9764_per_10000_witness :
  let n := netAmount (calculateWithdrawalBreakdown 2000) in
  is_finite n = true /\
  2 ^ 51 * Z.abs (10000 * F2Z n - 9764 * F2Z 2000) <= 10000 * (Z.abs (F2Z 2000) + 2 ^ 52).
Proof. apply (netAmount_is_9764_per_10000 2000); reflexivity. Defined.

(* ================================================================= *)
(** * The notification store *)

(** Marking every notification as read leaves none unread. *)
Lemma calculateUnreadCount_read (l : list Notification.t) :
  notificationStore.calculateUnreadCount (map notificationStore.read l) = 0%nat.
Proof.
  unfold notificationStore.calculateUnreadCount.
  induction l as [| n l IH]; [reflexivity | exact IH].
Qed.

(** Marking a notification that is already read changes nothing. *)
Lemma read_of_read (n : Notification.t) :
  Notification.isRead n = true -> notificationStore.read n = n.
Proof. destruct n as [? ? ? ? ? ? ? r ?]. cbn. intros ->. reflexivity. Qed.

(** X3: [unreadCount] is the number of unread notifications, whatever
    actions are called in whatever order, from any state in which it is. *)
Theorem unreadCount_is_number_of_unread
    (actions : list notificationStore.Action) (state : notificationStore.NotificationState) :
  notificationStore.unreadCount state
    = List.length (filter (fun n => negb (Notification.isRead n))
                     (notificationStore.notifications state)) ->
  let state' := notificationStore.run actions state in
  notificationStore.unreadCount state'
    = List.length (filter (fun n => negb (Notification.isRead n))
                     (notificationStore.notifications state')).
Proof.
  revert state. induction actions as [| a actions IH]; intros state H; [exact H |].
  apply IH. destruct a; cbn; try reflexivity; try exact H.
  symmetry. apply calculateUnreadCount_read.
Qed.

(** X3 from the initial state: three notifications arrive, one is read, all
    are read, one more arrives, the oldest is removed. *)
Lemma unreadCount_is_number_of_unread_witness :
  let state' :=
    notificationStore.run
      [notificationStore.AddNotification (sampleNotification "a" false);
       notificationStore.AddNotification (sampleNotification "b" false);
       notificationStore.AddNotification (sampleNotification "c" true);
       notificationStore.MarkAsRead "b";
       notificationStore.MarkAllAsRead;
       notificationStore.AddNotification (sampleNotification "d" false);
       notificationStore.RemoveNotification "a"]
      notificationStore.initialState in
  notificationStore.unreadCount state'
    = List.length (filter (fun n => negb (Notification.isRead n))
                     (notificationStore.notifications state')).
Proof. apply unreadCount_is_number_of_unread. reflexivity. Defined.

Lemma markAsRead_count (id : string) (l : list Notification.t) :
  (notificationStore.calculateUnreadCount
     (map (fun n => if String.eqb (Notification.id n) id then notificationStore.read n else n) l)
   + List.length (notificationStore.unreadWithId id l))%nat
  = notificationStore.calculateUnreadCount l.
Proof.
  unfold notificationStore.calculateUnreadCount, notificationStore.unreadWithId.
  induction l as [| n l IH]; [reflexivity |]. cbn [map filter].
  destruct (String.eqb (Notification.id n) id); cbn [andb].
  - cbn [notificationStore.read Notification.isRead negb].
    destruct (Notification.isRead n); cbn [negb List.length]; lia.
  - destruct (Notification.isRead n); cbn [negb List.length]; lia.
Qed.

Lemma markAsRead_ids (id : string) (l : list Notification.t) :
  map Notification.id
    (map (fun n => if String.eqb (Notification.id n) id then notificationStore.read n else n) l)
  = map Notification.id l.
Proof.
  induction l as [| n l IH]; [reflexivity |]. cbn [map]. rewrite IH.
  destruct (String.eqb (Notification.id n) id); reflexivity.
Qed.

Lemma markAsRead_nothing_unread (id : string) (l : list Notification.t) :
  notificationStore.unreadWithId id l = [] ->
  map (fun n => if String.eqb (Notification.id n) id then notificationStore.read n else n) l = l.
Proof.
  unfold notificationStore.unreadWithId. induction l as [| n l IH]; [reflexivity |]. cbn [map filter].
  destruct (String.eqb (Notification.id n) id); cbn [andb].
  - destruct (Notification.isRead n) eqn:Hr; cbn [negb]; [| discriminate].
    intros H. rewrite (IH H), read_of_read by exact Hr. reflexivity.
  - intros H. now rewrite (IH H).
Qed.

Lemma unreadWithId_after_markAsRead (id : string) (l : list Notification.t) :
  notificationStore.unreadWithId id
    (map (fun n => if String.eqb (Notification.id n) id then notificationStore.read n else n) l)
  = [].
Proof.
  unfold notificationStore.unreadWithId. induction l as [| n l IH]; [reflexivity |]. cbn [map filter].
  destruct (String.eqb (Notification.id n) id) eqn:He.
  - cbn [notificationStore.read Notification.id Notification.isRead]. rewrite He. exact IH.
  - rewrite He. exact IH.
Qed.

(** X4: [markAsRead id] keeps the notifications, their ids and their order,
    and marks every notification carrying [id]: the unread count drops by
    the number of unread notifications with that id.  It changes no
    notification when none of them is unread, and calling it twice is
    calling it once. *)
Theorem markAsRead_marks_every_match (id : string)
    (state : notificationStore.NotificationState) :
  let state' := notificationStore.markAsRead id state in
  map Notification.id (notificationStore.notifications state')
    = map Notification.id (notificationStore.notifications state) /\
  (notificationStore.unreadCount state'
     + List.length (notificationStore.unreadWithId id (notificationStore.notifications state)))%nat
    = List.length (filter (fun n => negb (Notification.isRead n))
                     (notificationStore.notifications state)) /\
  (forall n, In n (notificationStore.notifications state') ->
     Notification.id n = id -> Notification.isRead n = true) /\
  (notificationStore.unreadWithId id (notificationStore.notifications state) = [] ->
     notificationStore.notifications state' = notificationStore.notifications state) /\
  notificationStore.markAsRead id state' = state'.
Proof.
  cbn. split; [apply markAsRead_ids |]. split; [apply markAsRead_count |]. split; [| split].
  - intros n Hin Hid. apply in_map_iff in Hin. destruct Hin as (m & Hm & _).
    destruct (String.eqb (Notification.id m) id) eqn:He.
    + subst n. reflexivity.
    + subst n. apply String.eqb_neq in He. contradiction.
  - apply markAsRead_nothing_unread.
  - unfold notificationStore.markAsRead, notificationStore.setWith, notificationStore.set.
    cbn. rewrite markAsRead_nothing_unread by apply unreadWithId_after_markAsRead.
    reflexivity.
Qed.

(** X5: adding a notification and then removing it by its id gives back the
    store, provided the count was right and the id was not in use. *)
Theorem add_then_remove_restores (n : Notification.t)
    (state : notificationStore.NotificationState) :
  notificationStore.unreadCount state
    = List.length (filter (fun m => negb (Notification.isRead m))
                     (notificationStore.notifications state)) ->
  (forall m, In m (notificationStore.notifications state) ->
     Notification.id m <> Notification.id n) ->
  notificationStore.removeNotification (Notification.id n)
    (notificationStore.addNotification n state) = state.
Proof.
  intros Hc Hfresh. destruct state as [l c ld e]. cbn in *.
  unfold notificationStore.removeNotification, notificationStore.addNotification,
    notificationStore.setWith, notificationStore.set. cbn.
  rewrite String.eqb_refl. cbn.
  assert (Hl : filter (fun m => negb (String.eqb (Notification.id m) (Notification.id n))) l = l).
  { clear Hc. induction l as [| m l IH]; [reflexivity |]. cbn.
    destruct (String.eqb_spec (Notification.id m) (Notification.id n)) as [He | He].
    - exfalso. exact (Hfresh m (or_introl eq_refl) He).
    - cbn. f_equal. apply IH. intros k Hk. apply Hfresh. now right. }
  rewrite Hl. unfold notificationStore.calculateUnreadCount. rewrite <- Hc. reflexivity.
Qed.

(** X5 on an empty store. *)
Lemma add_then_remove_restores_witness :
  notificationStore.removeNotification "a"
    (notificationStore.addNotification (sampleNotification "a" false)
       notificationStore.initialState)
  = notificationStore.initialState.
Proof.
  apply (add_then_remove_restores (sampleNotification "a" false)
           notificationStore.initialState).
  - reflexivity.
  - intros m [].
Defined.

(** X6: [removeNotification id] removes every notification carrying [id],
    duplicates included, and no other; the notifications left keep their
    order; the unread count is recomputed; an id that is not in the store
    leaves the notifications as they are. *)
Theorem removeNotification_removes_every_match (id : string)
    (state : notificationStore.NotificationState) :
  let l := notificationStore.notifications state in
  let state' := notificationStore.removeNotification id state in
  let l' := notificationStore.notifications state' in
  (forall n, In n l' <-> In n l /\ Notification.id n <> id) /\
  (List.length l' + List.length (filter (fun n => String.eqb (Notification.id n) id) l))%nat
    = List.length l /\
  (forall a b l1 l2 l3, l' = l1 ++ a :: l2 ++ b :: l3 ->
     exists k1 k2 k3, l = k1 ++ a :: k2 ++ b :: k3) /\
  notificationStore.unreadCount state'
    = List.length (filter (fun n => negb (Notification.isRead n)) l') /\
  ((forall n, In n l -> Notification.id n <> id) -> l' = l).
Proof.
  cbn. set (l := notificationStore.notifications state).
  set (keep := fun n => negb (String.eqb (Notification.id n) id)).
  split; [| split; [| split; [| split]]].
  - intros n. rewrite filter_In. unfold keep.
    destruct (String.eqb_spec (Notification.id n) id); cbn; intuition congruence.
  - induction l as [| n l IH]; [reflexivity |]. cbn [filter]. unfold keep at 1.
    destruct (String.eqb (Notification.id n) id); cbn [negb List.length]; lia.
  - generalize l. clear l. intros l. induction l as [| n l IH]; intros a b l1 l2 l3 H.
    + destruct l1; discriminate H.
    + cbn [filter] in H. destruct (keep n).
      * destruct l1 as [| x l1]; cbn [app] in H.
        -- injection H as <- H.
           assert (Hb : In b (filter keep l)) by (rewrite H; apply in_or_app; right; now left).
           apply filter_In in Hb. destruct Hb as [Hb _].
           apply in_split in Hb. destruct Hb as (k2 & k3 & ->).
           exists [], k2, k3. reflexivity.
        -- injection H as <- H. destruct (IH _ _ _ _ _ H) as (k1 & k2 & k3 & ->).
           exists (n :: k1), k2, k3. reflexivity.
      * destruct (IH _ _ _ _ _ H) as (k1 & k2 & k3 & ->).
        exists (n :: k1), k2, k3. reflexivity.
  - reflexivity.
  - intros Hfresh. induction l as [| n l IH]; [reflexivity |]. cbn [filter]. unfold keep at 1.
    destruct (String.eqb_spec (Notification.id n) id) as [He | He].
    + exfalso. exact (Hfresh n (or_introl eq_refl) He).
    + cbn [negb]. f_equal. apply IH. intros k Hk. apply Hfresh. now right.
Qed.

(* ================================================================= *)
(** * The auth store *)

(** X7: [isAuthenticated] says whether there is a user, whatever actions are
    called in whatever order, from any state in which it does (the initial
    state is one). *)
Theorem isAuthenticated_iff_user
    (actions : list authStore.Action) (state : authStore.AuthState) :
  (authStore.isAuthenticated state = true <-> authStore.user state <> None) ->
  let state' := authStore.run actions state in
  authStore.isAuthenticated state' = true <-> authStore.user state' <> None.
Proof.
  revert state. induction actions as [| a actions IH]; intros state H; [exact H |].
  apply IH. destruct a as [u | tk | b | b | s | |]; cbn; try exact H.
  - destruct u; cbn; split; congruence.
  - unfold authStore.updateKYCStatus. destruct (authStore.user state) eqn:Hu; cbn.
    + split; [congruence | intros _; apply H; congruence].
    + rewrite Hu. exact H.
  - split; congruence.
  - split; congruence.
Qed.

(** X7 from the initial state: a token is stored, the KYC status is updated
    with nobody logged in, the session is closed. *)
Lemma isAuthenticated_iff_user_witness :
  let state' :=
    authStore.run
      [authStore.SetToken (Some "token"%string);
       authStore.UpdateKYCStatus KYCStatus.verified;
       authStore.SetOnboardingComplete true;
       authStore.Logout]
      authStore.initialState in
  authStore.isAuthenticated state' = true <-> authStore.user state' <> None.
Proof.
  apply isAuthenticated_iff_user. cbn. split; [discriminate | congruence].
Defined.

(** X8: [updateKYCStatus] does nothing when nobody is logged in; otherwise
    it sets the status of the user's KYC and nothing else, and of two
    updates in a row the second one wins. *)
Theorem updateKYCStatus_sets_status_only (status : KYCStatus.t) (state : authStore.AuthState) :
  let state' := authStore.updateKYCStatus status state in
  (authStore.user state = None -> state' = state) /\
  (forall user, authStore.user state = Some user ->
     exists user', authStore.user state' = Some user' /\
       UserKYC.status (User.kyc user') = status /\
       forall other, authStore.withKYCStatus other user' = authStore.withKYCStatus other user) /\
  authStore.isAuthenticated state' = authStore.isAuthenticated state /\
  authStore.isLoading state' = authStore.isLoading state /\
  authStore.isOnboardingComplete state' = authStore.isOnboardingComplete state /\
  authStore.token state' = authStore.token state /\
  (forall earlier,
     authStore.updateKYCStatus status (authStore.updateKYCStatus earlier state) = state').
Proof.
  unfold authStore.updateKYCStatus. destruct state as [u a l o tk].
  destruct u as [user |]; cbn.
  - split; [discriminate |]. split.
    + intros user0 [= <-]. eexists. split; [reflexivity |]. split; reflexivity.
    + repeat split.
  - split; [reflexivity |]. split; [discriminate |]. repeat split.
Qed.

(* ================================================================= *)
(** * The event store *)





(* ================================================================= *)
(** * The login screen *)

(** Trimming leaves nothing exactly when every code unit is white space. *)
Lemma trimStart_empty (s : jsString) :
  isEmpty (trimStart s) = true <-> forallb isWhiteSpace s = true.
Proof.
  induction s as [| c s IH]; cbn; [tauto |].
  destruct (isWhiteSpace c); cbn; [exact IH | split; discriminate].
Qed.

Lemma trimStart_suffix (s : jsString) : exists p, s = p ++ trimStart s /\ forallb isWhiteSpace p = true.
Proof.
  induction s as [| c s (p & Hp & Hw)]; [exists []; split; reflexivity |]. cbn.
  destruct (isWhiteSpace c) eqn:Hc.
  - exists (c :: p). cbn. rewrite Hc, Hw. split; [now f_equal | reflexivity].
  - exists []. split; reflexivity.
Qed.

Lemma isEmpty_rev (s : jsString) : isEmpty (rev s) = isEmpty s.
Proof.
  destruct s as [| c s]; [reflexivity |]. cbn.
  destruct (rev s ++ [c]) eqn:H; [| reflexivity].
  apply app_eq_nil in H. destruct H as [_ H]. discriminate H.
Qed.

Lemma forallb_rev {A} (p : A -> bool) (l : list A) : forallb p (rev l) = forallb p l.
Proof.
  induction l as [| x l IH]; [reflexivity |]. cbn.
  rewrite forallb_app, IH. cbn. rewrite andb_true_r. apply andb_comm.
Qed.

Lemma trim_empty (s : jsString) :
  isEmpty (trim s) = true <-> forallb isWhiteSpace s = true.
Proof.
  unfold trim, trimEnd. rewrite isEmpty_rev, trimStart_empty, forallb_rev.
  destruct (trimStart_suffix s) as (p & Hp & Hw).
  split; intros H.
  - rewrite Hp, forallb_app, Hw, H. reflexivity.
  - rewrite Hp, forallb_app in H. apply andb_true_iff in H. tauto.
Qed.

(** A digit is not white space. *)
Lemma isDigit_not_space (c : N) : isDigit c = true -> isWhiteSpace c = false.
Proof.
  unfold isDigit, isWhiteSpace. intros H. apply andb_true_iff in H. destruct H as [H1 H2].
  apply N.leb_le in H1, H2. cbn [existsb].
  repeat match goal with
         | |- context [N.eqb c ?k] => destruct (N.eqb_spec c k); [lia |]
         end.
  cbn. destruct (N.leb_spec 8192 c); [lia | reflexivity].
Qed.

(** [isIndianMobile] spelt out. *)
Lemma isIndianMobile_spec (digits : jsString) :
  LoginScreen.isIndianMobile digits = true <->
  exists c rest, digits = c :: rest /\ (54 <= c <= 57)%N /\
                 forallb isDigit rest = true /\ List.length rest = 9%nat.
Proof.
  unfold LoginScreen.isIndianMobile. destruct digits as [| c rest].
  - split; [discriminate | intros (? & ? & H & _); discriminate H].
  - rewrite !andb_true_iff, !N.leb_le, Nat.eqb_eq. split.
    + intros [[[H1 H2] H3] H4]. exists c, rest. auto.
    + intros (c' & rest' & [= <- <-] & [H1 H2] & H3 & H4). auto.
Qed.

(** The phone is in error unless its digits form an Indian mobile number. *)
Lemma phoneError_None (phone : jsString) :
  LoginScreen.phoneError phone = None <->
  LoginScreen.isIndianMobile (filter isDigit phone) = true.
Proof.
  unfold LoginScreen.phoneError.
  destruct (LoginScreen.isIndianMobile (filter isDigit phone)) eqn:Hm.
  - destruct (isEmpty (trim phone)) eqn:He; [| cbn; tauto].
    exfalso. apply trim_empty in He.
    apply isIndianMobile_spec in Hm. destruct Hm as (c & rest & Hd & Hc & _).
    assert (Hin : In c (filter isDigit phone)) by (rewrite Hd; now left).
    apply filter_In in Hin. destruct Hin as [Hin Hdig].
    rewrite forallb_forall in He. specialize (He c Hin).
    rewrite isDigit_not_space in He by exact Hdig. discriminate He.
  - destruct (isEmpty (trim phone)); cbn; split; discriminate.
Qed.

Lemma passwordError_None (password : jsString) :
  LoginScreen.passwordError password = None <->
  (6 <= List.length password)%nat /\ exists c, In c password /\ isWhiteSpace c = false.
Proof.
  unfold LoginScreen.passwordError.
  destruct (isEmpty (trim password)) eqn:He.
  - apply trim_empty in He. split; [discriminate |]. intros (_ & c & Hin & Hc).
    rewrite forallb_forall in He. rewrite (He c Hin) in Hc. discriminate Hc.
  - assert (Hex : exists c, In c password /\ isWhiteSpace c = false).
    { assert (Hf : forallb isWhiteSpace password = false).
      { destruct (forallb isWhiteSpace password) eqn:Hf; [| reflexivity].
        apply trim_empty in Hf. congruence. }
      clear He. induction password as [| c s IH]; [discriminate Hf |]. cbn in Hf.
      destruct (isWhiteSpace c) eqn:Hc.
      - destruct (IH Hf) as (d & Hd & Hw). exists d. split; [now right | exact Hw].
      - exists c. split; [now left | exact Hc]. }
    destruct (Nat.ltb_spec (List.length password) 6) as [Hlt | Hge].
    + split; [discriminate | intros [Hl _]; lia].
    + split; [intros _; split; [lia | exact Hex] | reflexivity].
Qed.

(** X10: [validateForm] accepts exactly when the digits of the phone, taken
    out of whatever surrounds them, are ten digits of which the first is 6,
    7, 8 or 9, and the password has at least six code units, not all of them
    white space.  It accepts exactly when it records no error, and it looks
    at nothing but the digits of the phone: two phones with the same digits
    get the same verdict. *)
Theorem validateForm_accepts_iff (st : LoginScreen.t) :
  let valid := fst (LoginScreen.validateForm st) in
  let st' := snd (LoginScreen.validateForm st) in
  (valid = true <->
     (exists c rest, filter isDigit (LoginScreen.phone st) = c :: rest /\
        (54 <= c <= 57)%N /\ List.length rest = 9%nat) /\
     (6 <= List.length (LoginScreen.password st))%nat /\
     (exists c, In c (LoginScreen.password st) /\ isWhiteSpace c = false)) /\
  (valid = true <->
     LoginScreen.errors st'
     = {| LoginScreen.Errors.phone := None; LoginScreen.Errors.password := None |}) /\
  (forall st2,
     filter isDigit (LoginScreen.phone st2) = filter isDigit (LoginScreen.phone st) ->
     LoginScreen.password st2 = LoginScreen.password st ->
     fst (LoginScreen.validateForm st2) = valid).
Proof.
  cbn. unfold LoginScreen.noKeys. cbn.
  pose proof (phoneError_None (LoginScreen.phone st)) as Hp.
  pose proof (passwordError_None (LoginScreen.password st)) as Hw.
  rewrite isIndianMobile_spec in Hp.
  split; [| split].
  - destruct (LoginScreen.phoneError (LoginScreen.phone st)) eqn:Ep.
    + split; [discriminate |]. intros ((c & rest & Hd & Hc & Hl) & _).
      assert (Habs : Some s = None); [| discriminate Habs].
      apply Hp. exists c, rest. repeat split; try tauto.
      assert (Hall : forallb isDigit (filter isDigit (LoginScreen.phone st)) = true).
      { apply forallb_forall. intros x Hx. apply filter_In in Hx. tauto. }
      rewrite Hd in Hall. cbn in Hall. apply andb_true_iff in Hall. tauto.
    + destruct (LoginScreen.passwordError (LoginScreen.password st)) eqn:Ew.
      * split; [discriminate |]. intros (_ & Hl & Hex).
        assert (Habs : Some s = None); [| discriminate Habs].
        apply Hw. tauto.
      * split; [| reflexivity]. intros _.
        destruct (proj1 Hp eq_refl) as (c & rest & Hd & Hc & _ & Hl).
        destruct (proj1 Hw eq_refl) as [Hl6 Hex].
        split; [exists c, rest; tauto | tauto].
  - destruct (LoginScreen.phoneError (LoginScreen.phone st)),
      (LoginScreen.passwordError (LoginScreen.password st)); split; congruence.
  - intros st2 Hd Hpw. unfold LoginScreen.phoneError. rewrite Hd, Hpw.
    destruct (LoginScreen.isIndianMobile (filter isDigit (LoginScreen.phone st))) eqn:Hm.
    + assert (H1 : isEmpty (trim (LoginScreen.phone st)) = false).
      { pose proof (phoneError_None (LoginScreen.phone st)) as H. unfold LoginScreen.phoneError in H.
        rewrite Hm in H. destruct (isEmpty (trim (LoginScreen.phone st))); [| reflexivity].
        destruct H as [_ H]. discriminate (H eq_refl). }
      assert (H2 : isEmpty (trim (LoginScreen.phone st2)) = false).
      { pose proof (phoneError_None (LoginScreen.phone st2)) as H. unfold LoginScreen.phoneError in H.
        rewrite Hd, Hm in H. destruct (isEmpty (trim (LoginScreen.phone st2))); [| reflexivity].
        destruct H as [_ H]. discriminate (H eq_refl). }
      rewrite H1, H2. reflexivity.
    + destruct (isEmpty (trim (LoginScreen.phone st))), (isEmpty (trim (LoginScreen.phone st2)));
        reflexivity.
Qed.

(** The form of the examples: a phone typed with a space, and a password. *)
Example validateForm_ignores_separators :
  fst (LoginScreen.validateForm
         (LoginScreen.setPassword (lit "secret1")
            (LoginScreen.setPhone (lit "98765 43210") LoginScreen.initial))) = true /\
  fst (LoginScreen.validateForm
         (LoginScreen.setPassword (lit "      ")
            (LoginScreen.setPhone (lit "9876543210") LoginScreen.initial))) = false /\
  fst (LoginScreen.validateForm
         (LoginScreen.setPassword (lit "secret1")
            (LoginScreen.setPhone (lit "5876543210") LoginScreen.initial))) = false.
Proof. repeat split. Qed.

(** X11: a press of Sign In on a form that is valid, with nothing pending,
    raises the loading flag; until the 1500 ms have passed further presses
    are ignored and nothing is reported; then [onLogin] is called once, with
    the phone and the password as they were typed at the press (the phone
    with its separators), whatever has been typed since. *)
Theorem signIn_reports_once_what_was_typed (st : LoginScreen.t) (ms : Z)
    (laterPhone laterPassword : jsString) :
  fst (LoginScreen.validateForm st) = true ->
  LoginScreen.isLoading st = false ->
  LoginScreen.timers st = [] ->
  0 <= ms < 1500 ->
  let pressed := LoginScreen.pressSignIn st in
  let waiting :=
    LoginScreen.setPassword laterPassword
      (LoginScreen.setPhone laterPhone (LoginScreen.advance ms pressed)) in
  let done := LoginScreen.advance (1500 - ms) (LoginScreen.pressSignIn waiting) in
  LoginScreen.isLoading pressed = true /\
  LoginScreen.pressSignIn waiting = waiting /\
  LoginScreen.effects waiting
    = LoginScreen.effects st
      ++ [LoginScreen.Haptics ImpactLight; LoginScreen.Haptics ImpactMedium] /\
  LoginScreen.effects done
    = LoginScreen.effects st
      ++ [LoginScreen.Haptics ImpactLight; LoginScreen.Haptics ImpactMedium;
          LoginScreen.OnLogin (LoginScreen.phone st) (LoginScreen.password st)] /\
  LoginScreen.isLoading done = false /\
  LoginScreen.timers done = [].
Proof.
  intros Hv Hl Ht Hms pressed waiting done.
  assert (Hp : pressed =
    {| LoginScreen.phone := LoginScreen.phone st;
       LoginScreen.password := LoginScreen.password st;
       LoginScreen.errors := LoginScreen.errors (snd (LoginScreen.validateForm st));
       LoginScreen.isLoading := true;
       LoginScreen.timers :=
         [{| Timeout.remaining := 1500;
             Timeout.payload := (LoginScreen.phone st, LoginScreen.password st) |}];
       LoginScreen.effects :=
         LoginScreen.effects st
         ++ [LoginScreen.Haptics ImpactLight; LoginScreen.Haptics ImpactMedium] |}).
  { unfold pressed, LoginScreen.pressSignIn. rewrite Hl.
    unfold LoginScreen.handleLogin, LoginScreen.validateForm in *. cbn in Hv |- *.
    rewrite Hv, Ht, <- app_assoc. reflexivity. }
  assert (Hw : waiting =
    {| LoginScreen.phone := laterPhone;
       LoginScreen.password := laterPassword;
       LoginScreen.errors := LoginScreen.errors (snd (LoginScreen.validateForm st));
       LoginScreen.isLoading := true;
       LoginScreen.timers :=
         [{| Timeout.remaining := 1500 - ms;
             Timeout.payload := (LoginScreen.phone st, LoginScreen.password st) |}];
       LoginScreen.effects :=
         LoginScreen.effects st
         ++ [LoginScreen.Haptics ImpactLight; LoginScreen.Haptics ImpactMedium] |}).
  { unfold waiting. rewrite Hp. unfold LoginScreen.advance.
    cbn [LoginScreen.timers Timeout.elapse Timeout.remaining Timeout.payload].
    destruct (Z.leb_spec 1500 ms) as [Hle | _]; [lia |]. reflexivity. }
  assert (Hpw : LoginScreen.pressSignIn waiting = waiting) by (rewrite Hw; reflexivity).
  split; [rewrite Hp; reflexivity |]. split; [exact Hpw |].
  split; [rewrite Hw; reflexivity |].
  unfold done. rewrite Hpw, Hw. unfold LoginScreen.advance.
  cbn [LoginScreen.timers Timeout.elapse Timeout.remaining Timeout.payload].
  rewrite Z.leb_refl. cbn. rewrite <- app_assoc. repeat split.
Qed.

(** X11 on the phone [98765 43210]: the user presses, waits half a second,
    retypes both fields and presses again. *)
Lemma signIn_reports_once_what_was_typed_witness :
  let st :=
    LoginScreen.setPassword (lit "secret1")
      (LoginScreen.setPhone (lit "98765 43210") LoginScreen.initial) in
  let waiting :=
    LoginScreen.setPassword (lit "other")
      (LoginScreen.setPhone (lit "1") (LoginScreen.advance 500 (LoginScreen.pressSignIn st))) in
  LoginScreen.effects (LoginScreen.advance (1500 - 500) (LoginScreen.pressSignIn waiting))
  = [LoginScreen.Haptics ImpactLight; LoginScreen.Haptics ImpactMedium;
     LoginScreen.OnLogin (lit "98765 43210") (lit "secret1")].
Proof.
  intros st waiting.
  destruct (signIn_reports_once_what_was_typed st 500 (lit "1") (lit "other"))
    as (_ & _ & _ & H & _); [reflexivity | reflexivity | reflexivity | lia |].
  exact H.
Defined.

(** X12: a press of Sign In on a form that is not valid arms no timeout,
    leaves the loading flag down and fires nothing but the light haptic
    feedback of the button: [onLogin] is not called, now or later. *)
Theorem signIn_on_invalid_form_reports_nothing (st : LoginScreen.t) (ms : Z) :
  fst (LoginScreen.validateForm st) = false ->
  LoginScreen.isLoading st = false ->
  LoginScreen.timers st = [] ->
  let pressed := LoginScreen.pressSignIn st in
  LoginScreen.isLoading pressed = false /\
  LoginScreen.timers pressed = [] /\
  LoginScreen.errors pressed <>
    {| LoginScreen.Errors.phone := None; LoginScreen.Errors.password := None |} /\
  LoginScreen.effects (LoginScreen.advance ms pressed)
    = LoginScreen.effects st ++ [LoginScreen.Haptics ImpactLight].
Proof.
  intros Hv Hl Ht pressed.
  assert (Hp : pressed =
    {| LoginScreen.phone := LoginScreen.phone st;
       LoginScreen.password := LoginScreen.password st;
       LoginScreen.errors := LoginScreen.errors (snd (LoginScreen.validateForm st));
       LoginScreen.isLoading := false;
       LoginScreen.timers := [];
       LoginScreen.effects := LoginScreen.effects st ++ [LoginScreen.Haptics ImpactLight] |}).
  { unfold pressed, LoginScreen.pressSignIn. rewrite Hl.
    unfold LoginScreen.handleLogin, LoginScreen.validateForm in *. cbn in Hv |- *.
    rewrite Hv, Ht. reflexivity. }
  rewrite Hp. split; [reflexivity |]. split; [reflexivity |]. split; [| reflexivity].
  revert Hv. cbn. unfold LoginScreen.noKeys. cbn.
  destruct (LoginScreen.phoneError (LoginScreen.phone st)),
    (LoginScreen.passwordError (LoginScreen.password st)); congruence.
Qed.

(** X12 on an empty form. *)
Lemma signIn_on_invalid_form_reports_nothing_witness :
  LoginScreen.effects (LoginScreen.advance 5000 (LoginScreen.pressSignIn LoginScreen.initial))
  = [LoginScreen.Haptics ImpactLight].
Proof.
  destruct (signIn_on_invalid_form_reports_nothing LoginScreen.initial 5000)
    as (_ & _ & _ & H); [reflexivity | reflexivity | reflexivity |].
  exact H.
Defined.

(* ================================================================= *)
(** * The OTP screen: boxes, keyboard and countdown *)

(** Writing an element within the array, or right at its end. *)
Lemma assign_spec {A} (hole : A) (i : nat) (v : A) (l : list A) :
  (i <= List.length l)%nat -> assign hole i v l = firstn i l ++ v :: skipn (S i) l.
Proof.
  revert l. induction i as [| i IH]; intros [| x l] H; cbn in *; try reflexivity; try lia.
  f_equal. apply IH. lia.
Qed.

Lemma assign_length {A} (hole : A) (i : nat) (v : A) (l : list A) :
  (i < List.length l)%nat -> List.length (assign hole i v l) = List.length l.
Proof.
  revert l. induction i as [| i IH]; intros [| x l] H; cbn in *; try reflexivity; try lia.
  f_equal. apply IH. lia.
Qed.


Lemma nth_assign_other {A} (hole : A) (i j : nat) (v d : A) (l : list A) :
  (i < List.length l)%nat -> i <> j -> nth j (assign hole i v l) d = nth j l d.
Proof.
  revert j l. induction i as [| i IH]; intros [| j] [| x l] H Hij; cbn in *;
    try reflexivity; try lia.
  apply IH; lia.
Qed.

Lemma assign_assign {A} (hole : A) (i : nat) (v w : A) (l : list A) :
  (i < List.length l)%nat -> assign hole i w (assign hole i v l) = assign hole i w l.
Proof.
  revert l. induction i as [| i IH]; intros [| x l] H; cbn in *; try reflexivity; try lia.
  f_equal. apply IH. lia.
Qed.

Lemma assign_nth {A} (hole : A) (i : nat) (d : A) (l : list A) :
  (i < List.length l)%nat -> assign hole i (nth i l d) l = l.
Proof.
  revert l. induction i as [| i IH]; intros [| x l] H; cbn in *; try reflexivity; try lia.
  f_equal. apply IH. lia.
Qed.

(** What is in a prefix or in a suffix of a list is in the list. *)
Lemma in_firstn {A} (n : nat) (x : A) (l : list A) : In x (firstn n l) -> In x l.
Proof. intros H. rewrite <- (firstn_skipn n l). apply in_or_app. now left. Qed.

Lemma in_skipn {A} (n : nat) (x : A) (l : list A) : In x (skipn n l) -> In x l.
Proof. intros H. rewrite <- (firstn_skipn n l). apply in_or_app. now right. Qed.

(** The assignments of a paste, all at once. *)
Lemma forEachAssign_spec (i : nat) (pastedOtp newOtp : list string) :
  (i + List.length pastedOtp <= OTPScreen.OTP_LENGTH)%nat -> (i <= List.length newOtp)%nat ->
  OTPEntry.forEachAssign i pastedOtp newOtp
  = firstn i newOtp ++ pastedOtp ++ skipn (i + List.length pastedOtp) newOtp.
Proof.
  revert i newOtp. induction pastedOtp as [| d rest IH]; intros i newOtp Hi Hl.
  - cbn. rewrite Nat.add_0_r, firstn_skipn. reflexivity.
  - cbn [OTPEntry.forEachAssign List.length] in *.
    destruct (Nat.ltb_spec i OTPScreen.OTP_LENGTH) as [_ | Hge]; [| lia].
    rewrite assign_spec by exact Hl.
    assert (Hf : List.length (firstn i newOtp) = i) by (apply firstn_length_le; exact Hl).
    rewrite IH.
    + replace (S i) with (List.length (firstn i newOtp ++ [d])) at 1
        by (rewrite length_app, Hf; cbn; lia).
      replace (firstn i newOtp ++ d :: skipn (S i) newOtp)
        with ((firstn i newOtp ++ [d]) ++ skipn (S i) newOtp)
        by (rewrite <- app_assoc; reflexivity).
      rewrite firstn_app, firstn_all, Nat.sub_diag. cbn [firstn]. rewrite app_nil_r.
      rewrite skipn_app. rewrite length_app, Hf. cbn [List.length].
      rewrite (skipn_all2 (firstn i newOtp ++ [d]))
        by (rewrite length_app, Hf; cbn; lia).
      replace (S i + List.length rest - (i + 1))%nat with (List.length rest) by lia.
      rewrite skipn_skipn. replace (List.length rest + S i)%nat with (i + S (List.length rest))%nat by lia.
      rewrite <- !app_assoc. reflexivity.
    + lia.
    + rewrite length_app, Hf. cbn. lia.
Qed.






(** X14: a text of two digits or more is a paste.  Its first six digits go
    into the boxes from the first box on, whichever box received it; the
    last box written becomes the active one; the error shown stays, and the
    pasted code is not submitted, even when it is complete. *)
Theorem paste_fills_from_the_first_box (value : jsString) (index : nat) (st : OTPEntry.t) :
  forallb isDigit value = true ->
  (2 <= List.length value)%nat ->
  let st' := OTPEntry.handleOtpChange value index st in
  let pasted := map (fun digit => toString [digit]) (firstn 6 value) in
  OTPScreen.otp (OTPEntry.screen st')
    = pasted ++ skipn (List.length pasted) (OTPScreen.otp (OTPEntry.screen st)) /\
  OTPEntry.activeIndex st' = Nat.min (List.length value - 1) 5 /\
  OTPScreen.error (OTPEntry.screen st') = OTPScreen.error (OTPEntry.screen st) /\
  OTPScreen.isLoading (OTPEntry.screen st') = OTPScreen.isLoading (OTPEntry.screen st) /\
  OTPScreen.timers (OTPEntry.screen st') = OTPScreen.timers (OTPEntry.screen st) /\
  (forall other, OTPEntry.handleOtpChange value other st = st').
Proof.
  intros Hd Hl. unfold OTPEntry.handleOtpChange. rewrite Hd. cbn [negb].
  destruct (Nat.ltb_spec 1 (List.length value)) as [_ | Hs]; [| lia].
  cbn [OTPEntry.screen OTPEntry.activeIndex OTPEntry.feedback OTPEntry.setOtp
         OTPScreen.otp OTPScreen.error OTPScreen.isLoading OTPScreen.timers].
  rewrite forEachAssign_spec.
  - cbn [firstn app Nat.add]. repeat split.
  - cbn [Nat.add]. rewrite length_map, length_firstn. unfold OTPScreen.OTP_LENGTH. lia.
  - lia.
Qed.

(** X14 on a complete code pasted into the fourth box of the empty screen. *)
Lemma paste_fills_from_the_first_box_witness :
  let st' := OTPEntry.handleOtpChange (lit "123456") 3 OTPEntry.initial in
  OTPScreen.otp (OTPEntry.screen st') = ["1"; "2"; "3"; "4"; "5"; "6"]%string /\
  OTPEntry.activeIndex st' = 5%nat /\
  OTPScreen.timers (OTPEntry.screen st') = [].
Proof.
  destruct (paste_fills_from_the_first_box (lit "123456") 3 OTPEntry.initial)
    as (H1 & H2 & _ & _ & H3 & _); [reflexivity | cbn; lia |].
  split; [exact H1 | split; [exact H2 | exact H3]].
Defined.

(** One digit in one box. *)
Lemma toString_digits_length (digits : list N) :
  String.length (toString digits) = List.length digits.
Proof.
  unfold toString. induction digits as [| d digits IH]; [reflexivity |]. cbn. now rewrite IH.
Qed.

Lemma joinOtp_digits (digits : list N) :
  OTPScreen.joinOtp (map (fun digit => toString [digit]) digits) = toString digits.
Proof.
  unfold OTPScreen.joinOtp, toString. induction digits as [| d digits IH]; [reflexivity |].
  cbn [map String.concat]. destruct digits as [| d' digits]; [reflexivity |].
  cbn [map] in *. rewrite IH. reflexivity.
Qed.



(** X16: typing a digit into an empty box and pressing Backspace in the
    next box, empty as well, gives back the boxes as they were and the
    active box; Backspace in a box that holds a digit, or in the first box,
    changes nothing. *)
Theorem backspace_undoes_the_digit_before (index : nat) (digit : N) (st : OTPEntry.t) :
  List.length (OTPScreen.otp (OTPEntry.screen st)) = OTPScreen.OTP_LENGTH ->
  (S index < OTPScreen.OTP_LENGTH)%nat ->
  isDigit digit = true ->
  nth index (OTPScreen.otp (OTPEntry.screen st)) ""%string = ""%string ->
  nth (S index) (OTPScreen.otp (OTPEntry.screen st)) ""%string = ""%string ->
  let typed := OTPEntry.changeText index [digit] st in
  let undone := OTPEntry.keyPress (S index) "Backspace" typed in
  nth index (OTPScreen.otp (OTPEntry.screen typed)) ""%string = toString [digit] /\
  OTPEntry.activeIndex typed = S index /\
  OTPScreen.otp (OTPEntry.screen undone) = OTPScreen.otp (OTPEntry.screen st) /\
  OTPEntry.activeIndex undone = index /\
  OTPEntry.keyPress index "Backspace" typed = typed /\
  OTPEntry.keyPress 0 "Backspace" typed = typed.
Proof.
  intros Hlen Hi Hd Hbox Hnext typed undone.
  set (otp := OTPScreen.otp (OTPEntry.screen st)) in *.
  assert (Hlt : (index < List.length otp)%nat) by lia.
  assert (Htyped : OTPScreen.otp (OTPEntry.screen typed) = assign ""%string index (toString [digit]) otp
                   /\ OTPEntry.activeIndex typed = S index).
  { unfold typed, OTPEntry.changeText. fold otp. rewrite Hlen.
    destruct (Nat.ltb_spec index OTPScreen.OTP_LENGTH) as [_ | Hge]; [| lia].
    unfold OTPEntry.handleOtpChange. cbn [forallb]. rewrite Hd. cbn [andb negb List.length isEmpty].
    destruct (Nat.ltb_spec 1 1) as [Habs | _]; [lia |].
    destruct (Nat.ltb_spec index (OTPScreen.OTP_LENGTH - 1)) as [_ | Hge];
      [| unfold OTPScreen.OTP_LENGTH in *; lia].
    destruct (Nat.eqb_spec index (OTPScreen.OTP_LENGTH - 1)) as [Heq | _];
      [unfold OTPScreen.OTP_LENGTH in *; lia |].
    cbn. split; [reflexivity | lia]. }
  destruct Htyped as [Hotp Hact].
  assert (Hnth : nth index (OTPScreen.otp (OTPEntry.screen typed)) ""%string = toString [digit]).
  { rewrite Hotp, assign_spec by lia. rewrite app_nth2; rewrite length_firstn; [| lia].
    replace (index - Nat.min index (List.length otp))%nat with 0%nat by lia. reflexivity. }
  assert (Hne : String.eqb (toString [digit]) "" = false) by reflexivity.
  split; [exact Hnth |]. split; [exact Hact |].
  assert (Hlen' : List.length (OTPScreen.otp (OTPEntry.screen typed)) = OTPScreen.OTP_LENGTH).
  { rewrite Hotp, assign_length by exact Hlt. exact Hlen. }
  assert (Hcond : String.eqb "Backspace" "Backspace"
                  && String.eqb (nth (S index) (OTPScreen.otp (OTPEntry.screen typed)) ""%string) ""
                  && (0 <? S index)%nat = true).
  { rewrite Hotp, nth_assign_other by lia. fold otp. rewrite Hnext. reflexivity. }
  assert (Hundone : undone =
    {| OTPEntry.screen :=
         OTPEntry.feedback ImpactLight
           (OTPEntry.setOtp
              (assign ""%string (S index - 1) ""%string (OTPScreen.otp (OTPEntry.screen typed)))
              (OTPEntry.screen typed));
       OTPEntry.activeIndex := (S index - 1)%nat;
       OTPEntry.resendTimer := OTPEntry.resendTimer typed;
       OTPEntry.calls := OTPEntry.calls typed ++ OTPEntry.focus (S index - 1) typed |}).
  { unfold undone, OTPEntry.keyPress. rewrite Hlen'.
    destruct (Nat.ltb_spec (S index) OTPScreen.OTP_LENGTH) as [_ | Hge]; [| lia].
    unfold OTPEntry.handleKeyPress. rewrite Hcond. reflexivity. }
  split; [| split; [| split]].
  - rewrite Hundone. cbn [OTPEntry.screen OTPEntry.feedback OTPEntry.setOtp OTPScreen.otp].
    rewrite Hotp. replace (S index - 1)%nat with index by lia.
    rewrite assign_assign by exact Hlt.
    pose proof (assign_nth ""%string index ""%string otp Hlt) as Hsame.
    rewrite Hbox in Hsame. exact Hsame.
  - rewrite Hundone. cbn [OTPEntry.activeIndex]. lia.
  - unfold OTPEntry.keyPress. rewrite Hlen'.
    destruct (Nat.ltb_spec index OTPScreen.OTP_LENGTH) as [_ | Hge]; [| lia].
    unfold OTPEntry.handleKeyPress. rewrite Hnth, Hne, andb_false_r. reflexivity.
  - unfold OTPEntry.keyPress, OTPEntry.handleKeyPress.
    change (0 <? 0)%nat with false. rewrite andb_false_r.
    destruct (0 <? List.length (OTPScreen.otp (OTPEntry.screen typed)))%nat; reflexivity.
Qed.

(** X16 on the third box of the empty screen. *)
Lemma backspace_undoes_the_digit_before_witness :
  OTPScreen.otp
    (OTPEntry.screen
       (OTPEntry.keyPress 3 "Backspace" (OTPEntry.changeText 2 [55%N] OTPEntry.initial)))
  = OTPScreen.otp (OTPEntry.screen OTPEntry.initial).
Proof.
  assert (Hlt : (3 < OTPScreen.OTP_LENGTH)%nat) by (unfold OTPScreen.OTP_LENGTH; lia).
  exact (proj1 (proj2 (proj2
    (backspace_undoes_the_digit_before 2 55 OTPEntry.initial
       eq_refl Hlt eq_refl eq_refl eq_refl)))).
Defined.




(** X18: [maskedPhone] rewrites the leftmost run of ten digits and leaves
    what is around it: the first two digits and the last three of the run
    stay, the five in between become stars, and [+91 ] is put in front. *)
Theorem maskedPhone_rewrites_the_leftmost_run (before run after : jsString) :
  (forall k, (k < List.length before)%nat ->
     OTPEntry.tenDigits (skipn k (before ++ run ++ after)) = false) ->
  forallb isDigit run = true ->
  List.length run = 10%nat ->
  OTPEntry.maskedPhone (before ++ run ++ after)
  = before ++ lit "+91 " ++ firstn 2 run ++ lit "*****" ++ skipn 7 run ++ after.
Proof.
  intros Hno Hd Hl. induction before as [| c before IH].
  - cbn [app].
    do 10 (destruct run as [| ? run]; [discriminate Hl |]).
    destruct run; [| discriminate Hl].
    cbn [app OTPEntry.maskedPhone]. unfold OTPEntry.tenDigits.
    cbn [firstn List.length Nat.eqb]. rewrite Hd. reflexivity.
  - cbn [app OTPEntry.maskedPhone].
    pose proof (Hno 0%nat ltac:(cbn; lia)) as H0. cbn [skipn app] in H0. rewrite H0.
    f_equal. apply IH. intros k Hk. apply (Hno (S k)). cbn. lia.
Qed.

(** X18 on a phone number typed after a prefix. *)
Lemma maskedPhone_rewrites_the_leftmost_run_witness :
  OTPEntry.maskedPhone (lit "0 9876543210") = lit "0 +91 98*****210".
Proof.
  apply (maskedPhone_rewrites_the_leftmost_run (lit "0 ") (lit "9876543210") []).
  - intros [| [| k]] Hk; [reflexivity | reflexivity | cbn in Hk; lia].
  - reflexivity.
  - reflexivity.
Defined.

(** X19: a phone number with no ten digits in a row is shown as it is, all
    its digits in clear.  Such is a number typed with a space in the middle,
    which the login form accepts. *)
Theorem maskedPhone_without_a_run_shows_everything (phoneNumber : jsString) :
  (forall k, (k < List.length phoneNumber)%nat ->
     OTPEntry.tenDigits (skipn k phoneNumber) = false) ->
  OTPEntry.maskedPhone phoneNumber = phoneNumber.
Proof.
  induction phoneNumber as [| c rest IH]; intros Hno; [reflexivity |].
  cbn [OTPEntry.maskedPhone].
  pose proof (Hno 0%nat ltac:(cbn; lia)) as H0. cbn [skipn] in H0. rewrite H0.
  f_equal. apply IH. intros k Hk. apply (Hno (S k)). cbn. lia.
Qed.

(** X19 on [98765 43210], accepted by the login form. *)
Lemma maskedPhone_without_a_run_shows_everything_witness :
  LoginScreen.phoneError (lit "98765 43210") = None /\
  OTPEntry.maskedPhone (lit "98765 43210") = lit "98765 43210".
Proof.
  split; [reflexivity |].
  apply maskedPhone_without_a_run_shows_everything.
  intros k Hk. cbn in Hk.
  do 11 (destruct k as [| k]; [reflexivity |]). lia.
Defined.

(* ================================================================= *)
(** * The create event screen *)

(** A property of the screen that every event keeps holds after any
    sequence of events. *)
Lemma CreateEventScreen_run_invariant (P : CreateEventScreen.t -> Prop)
    (events : list CreateEventScreen.Event) (st : CreateEventScreen.t) :
  (forall s e, P s -> P (CreateEventScreen.on s e)) ->
  P st -> P (CreateEventScreen.run events st).
Proof.
  intros Hstep. revert st. unfold CreateEventScreen.run.
  induction events as [| e events IH]; intros st H; [exact H |].
  cbn [fold_left]. apply IH, Hstep, H.
Qed.

(** The timeouts of a submission leave the form, the step and the new rule
    as they are. *)
Lemma CreateEventScreen_advance_frame (ms : Z) (st : CreateEventScreen.t) :
  CreateEventScreen.formData (CreateEventScreen.advance ms st) = CreateEventScreen.formData st /\
  CreateEventScreen.currentStep (CreateEventScreen.advance ms st)
    = CreateEventScreen.currentStep st /\
  CreateEventScreen.newRule (CreateEventScreen.advance ms st) = CreateEventScreen.newRule st.
Proof.
  unfold CreateEventScreen.advance.
  destruct (Timeout.elapse ms (CreateEventScreen.timers st)) as [due later].
  set (s0 := {| CreateEventScreen.currentStep := _ |}).
  change (CreateEventScreen.formData st) with (CreateEventScreen.formData s0).
  change (CreateEventScreen.currentStep st) with (CreateEventScreen.currentStep s0).
  change (CreateEventScreen.newRule st) with (CreateEventScreen.newRule s0).
  generalize s0. clear s0. induction due as [| d due IH]; intros s0; [repeat split |].
  cbn [fold_left]. destruct (IH (CreateEventScreen.submitTimeout d s0)) as (H1 & H2 & H3).
  rewrite H1, H2, H3. repeat split.
Qed.

(** The button of the footer leaves the form as it is. *)
Lemma pressFooter_formData (st : CreateEventScreen.t) :
  CreateEventScreen.formData (CreateEventScreen.pressFooter st) = CreateEventScreen.formData st.
Proof.
  unfold CreateEventScreen.pressFooter, CreateEventScreen.handleNext.
  destruct (CreateEventScreen.isSubmitting st); [reflexivity |].
  destruct (_ =? _); [reflexivity |]. cbn. destruct (_ <? _); reflexivity.
Qed.

Lemma handlePrevious_formData (st : CreateEventScreen.t) :
  CreateEventScreen.formData (CreateEventScreen.handlePrevious st) = CreateEventScreen.formData st.
Proof. unfold CreateEventScreen.handlePrevious. destruct (_ <? _); reflexivity. Qed.

(** Every event but the two of the images leaves the images as they are,
    and so on for the rules, the genders and the member limit. *)
Ltac form_frame :=
  cbn [CreateEventScreen.on];
  rewrite ?pressFooter_formData, ?handlePrevious_formData,
    ?(proj1 (CreateEventScreen_advance_frame _ _));
  unfold CreateEventScreen.handleAddImage, CreateEventScreen.handleRemoveImage,
    CreateEventScreen.changeText, CreateEventScreen.pressMemberLimitMinus,
    CreateEventScreen.pressMemberLimitPlus, CreateEventScreen.pressGenderChip,
    CreateEventScreen.toggleGender, CreateEventScreen.pressRequiresApproval,
    CreateEventScreen.pressAddRule, CreateEventScreen.handleAddRule,
    CreateEventScreen.handleRemoveRule;
  repeat match goal with
         | |- context [match ?x with _ => _ end] =>
             lazymatch x with
             | context [match _ with _ => _ end] => fail
             | _ => destruct x
             end
         end;
  cbn [CreateEventScreen.formData CreateEventScreen.updateField CreateEventScreen.impact
       CreateEventScreen.setNewRule CreateEventScreen.withField
       CreateEventScreen.images CreateEventScreen.rules CreateEventScreen.genderAllowed
       CreateEventScreen.memberLimit CreateEventScreen.newRule].

(** Removing by index. *)
Lemma filteri_remove {A} (index i : nat) (l : list A) :
  filteri (fun _ j => negb (Nat.eqb j (i + index))) i l = firstn index l ++ skipn (S index) l.
Proof.
  revert i index. induction l as [| x l IH]; intros i index.
  - destruct index; reflexivity.
  - cbn [filteri]. destruct index as [| index].
    + rewrite Nat.add_0_r, Nat.eqb_refl. cbn [negb firstn skipn app].
      clear IH. revert i. induction l as [| y l IHl]; intros i; [reflexivity |].
      cbn [filteri]. destruct (Nat.eqb_spec (S i) i) as [He | _]; [lia |].
      cbn [negb]. f_equal.
      assert (H : forall k, (i < k)%nat ->
                filteri (fun (_ : A) (j : nat) => negb (Nat.eqb j i)) k l = l).
      { clear. induction l as [| z l IH]; intros k Hk; [reflexivity |]. cbn [filteri].
        destruct (Nat.eqb_spec k i); [lia |]. cbn [negb]. f_equal. apply IH. lia. }
      apply H. lia.
    + destruct (Nat.eqb_spec i (i + S index)); [lia |]. cbn [negb firstn skipn app].
      f_equal. replace (i + S index)%nat with (S i + index)%nat by lia. apply IH.
Qed.


(** A trimmed string starts with no white space and ends with none. *)
Lemma trimStart_fixed (s : jsString) :
  match s with
  | [] => True
  | c :: _ => isWhiteSpace c = false
  end -> trimStart s = s.
Proof. destruct s as [| c s]; [reflexivity |]. cbn. intros ->. reflexivity. Qed.

Lemma trimStart_head (s : jsString) :
  match trimStart s with
  | [] => True
  | c :: _ => isWhiteSpace c = false
  end.
Proof.
  induction s as [| c s IH]; [exact I |]. cbn.
  destruct (isWhiteSpace c) eqn:Hc; [exact IH | exact Hc].
Qed.

Lemma trimStart_idempotent (s : jsString) : trimStart (trimStart s) = trimStart s.
Proof. apply trimStart_fixed, trimStart_head. Qed.

Lemma trimEnd_idempotent (s : jsString) : trimEnd (trimEnd s) = trimEnd s.
Proof. unfold trimEnd. rewrite rev_involutive, trimStart_idempotent. reflexivity. Qed.

(** Trimming the end of a string that starts with no white space leaves a
    string that starts with no white space. *)
Lemma trimEnd_head (s : jsString) :
  match s with
  | [] => True
  | c :: _ => isWhiteSpace c = false
  end ->
  match trimEnd s with
  | [] => True
  | c :: _ => isWhiteSpace c = false
  end.
Proof.
  destruct s as [| c s]; [intros _; exact I |]. intros Hc. unfold trimEnd.
  destruct (trimStart_suffix (rev (c :: s))) as (p & Hp & Hw).
  set (q := trimStart (rev (c :: s))) in *.
  assert (Hu : c :: s = rev q ++ rev p).
  { rewrite <- rev_app_distr, <- Hp, rev_involutive. reflexivity. }
  destruct (rev q) as [| d r] eqn:Hq.
  - cbn [app] in Hu. assert (Hin : In c (rev p)) by (rewrite <- Hu; now left).
    apply in_rev in Hin. rewrite forallb_forall in Hw. rewrite (Hw c Hin) in Hc.
    discriminate Hc.
  - injection Hu as <- _. exact Hc.
Qed.

(** [trim] is idempotent. *)
Lemma trim_idempotent (s : jsString) : trim (trim s) = trim s.
Proof.
  unfold trim. rewrite (trimStart_fixed (trimEnd (trimStart s))).
  - apply trimEnd_idempotent.
  - apply trimEnd_head, trimStart_head.
Qed.

(** X21: from the first render on, whatever happens on the screen, every
    rule of the form is trimmed and not empty.  A new rule that is blank is
    not added, by the button or by the handler; any other is added trimmed,
    at the end, and the input is emptied. *)
Theorem rules_are_trimmed_and_not_blank (events : list CreateEventScreen.Event) :
  let st := CreateEventScreen.run events CreateEventScreen.initial in
  let rules := CreateEventScreen.rules (CreateEventScreen.formData st) in
  let added := CreateEventScreen.pressAddRule st in
  Forall (fun rule => rule <> [] /\ trim rule = rule) rules /\
  (forallb isWhiteSpace (CreateEventScreen.newRule st) = true ->
     added = st /\ CreateEventScreen.handleAddRule st = st) /\
  (forallb isWhiteSpace (CreateEventScreen.newRule st) = false ->
     CreateEventScreen.rules (CreateEventScreen.formData added)
       = rules ++ [trim (CreateEventScreen.newRule st)] /\
     CreateEventScreen.newRule added = []).
Proof.
  intros st rules added. split; [| split].
  - unfold rules, st.
    apply (CreateEventScreen_run_invariant
             (fun s => Forall (fun rule => rule <> [] /\ trim rule = rule)
                         (CreateEventScreen.rules (CreateEventScreen.formData s))));
      [| constructor].
    intros s e H. destruct e; try (form_frame; exact H); cbn [CreateEventScreen.on].
    + unfold CreateEventScreen.pressAddRule, CreateEventScreen.handleAddRule.
      destruct (isEmpty (trim (CreateEventScreen.newRule s))) eqn:He; [exact H |].
      cbn [CreateEventScreen.formData CreateEventScreen.updateField CreateEventScreen.impact
           CreateEventScreen.setNewRule CreateEventScreen.withField CreateEventScreen.rules
           CreateEventScreen.newRule].
      rewrite He. cbn [negb].
      cbn [CreateEventScreen.formData CreateEventScreen.updateField CreateEventScreen.impact
           CreateEventScreen.setNewRule CreateEventScreen.withField CreateEventScreen.rules].
      apply Forall_app. split; [exact H |]. constructor; [| constructor].
      split; [| apply trim_idempotent].
      intros Hnil. rewrite Hnil in He. discriminate He.
    + unfold CreateEventScreen.handleRemoveRule.
      cbn [CreateEventScreen.formData CreateEventScreen.updateField CreateEventScreen.impact
           CreateEventScreen.withField CreateEventScreen.rules].
      rewrite (filteri_remove index 0). apply Forall_app. split.
      * apply Forall_forall. intros r Hr. rewrite Forall_forall in H. apply H.
        eapply in_firstn. exact Hr.
      * apply Forall_forall. intros r Hr. rewrite Forall_forall in H. apply H.
        eapply in_skipn. exact Hr.
  - intros Hb. apply trim_empty in Hb.
    unfold added, CreateEventScreen.pressAddRule, CreateEventScreen.handleAddRule.
    rewrite Hb. split; reflexivity.
  - intros Hb.
    assert (He : isEmpty (trim (CreateEventScreen.newRule st)) = false).
    { destruct (isEmpty (trim (CreateEventScreen.newRule st))) eqn:He; [| reflexivity].
      apply trim_empty in He. congruence. }
    unfold added, CreateEventScreen.pressAddRule, CreateEventScreen.handleAddRule.
    rewrite He.
    cbn [CreateEventScreen.formData CreateEventScreen.updateField CreateEventScreen.impact
         CreateEventScreen.setNewRule CreateEventScreen.withField CreateEventScreen.rules
         CreateEventScreen.newRule].
    rewrite He. split; reflexivity.
Qed.

(** A rule typed between spaces is added without them. *)
Example rule_is_added_trimmed :
  CreateEventScreen.rules
    (CreateEventScreen.formData
       (CreateEventScreen.run
          [CreateEventScreen.ChangeNewRule (lit "  Be on time ");
           CreateEventScreen.PressAdd;
           CreateEventScreen.ChangeNewRule (lit "   ");
           CreateEventScreen.PressAdd]
          CreateEventScreen.initial))
  = [lit "Be on time"].
Proof. reflexivity. Qed.

(** [gender_eqb] decides equality. *)
Lemma gender_eqb_spec (a b : Gender.t) : reflect (a = b) (CreateEventScreen.gender_eqb a b).
Proof. destruct a, b; constructor; congruence. Qed.

Lemma existsb_gender (gender : Gender.t) (l : list Gender.t) :
  existsb (CreateEventScreen.gender_eqb gender) l = true <-> In gender l.
Proof.
  rewrite existsb_exists. split.
  - intros (g & Hin & He). destruct (gender_eqb_spec gender g); [subst; exact Hin | discriminate].
  - intros Hin. exists gender. split; [exact Hin |].
    destruct (gender_eqb_spec gender gender); [reflexivity | contradiction].
Qed.

(** X22: on a selection without duplicates, [toggleGender] leaves a
    selection without duplicates that is not empty; it changes the selection
    of no other gender; the gender toggled ends up selected exactly when it
    was not selected before or was the only one selected (the last gender
    cannot be deselected).  So from the first render on, whatever happens on
    the screen, at least one gender is allowed and none is listed twice. *)
Theorem toggleGender_keeps_a_selection (gender : Gender.t) (st : CreateEventScreen.t)
    (events : list CreateEventScreen.Event) :
  let current := CreateEventScreen.genderAllowed (CreateEventScreen.formData st) in
  let next :=
    CreateEventScreen.genderAllowed
      (CreateEventScreen.formData (CreateEventScreen.toggleGender gender st)) in
  let reached :=
    CreateEventScreen.genderAllowed
      (CreateEventScreen.formData (CreateEventScreen.run events CreateEventScreen.initial)) in
  (NoDup current -> next <> [] /\ NoDup next) /\
  (forall g, g <> gender -> (In g next <-> In g current)) /\
  (In gender next <-> ~ In gender current \/ (List.length current <= 1)%nat) /\
  reached <> [] /\ NoDup reached.
Proof.
  intros current next reached.
  assert (Hstep : forall g s,
    let c := CreateEventScreen.genderAllowed (CreateEventScreen.formData s) in
    let n := CreateEventScreen.genderAllowed
               (CreateEventScreen.formData (CreateEventScreen.toggleGender g s)) in
    (NoDup c -> n <> [] /\ NoDup n) /\ (forall h, h <> g -> (In h n <-> In h c)) /\
    (In g n <-> ~ In g c \/ (List.length c <= 1)%nat)).
  { clear. intros g s c n. unfold n, CreateEventScreen.toggleGender. fold c.
    destruct (existsb (CreateEventScreen.gender_eqb g) c) eqn:Hex.
    - apply existsb_gender in Hex.
      destruct (Nat.ltb_spec 1 (List.length c)) as [Hl | Hl].
      + cbn [CreateEventScreen.formData CreateEventScreen.updateField
             CreateEventScreen.withField CreateEventScreen.genderAllowed].
        set (keep := fun h => negb (CreateEventScreen.gender_eqb h g)).
        assert (Hin : forall h, In h (filter keep c) <-> In h c /\ h <> g).
        { intros h. rewrite filter_In. unfold keep.
          destruct (gender_eqb_spec h g); cbn; intuition congruence. }
        split; [| split].
        * intros Hnd. split; [| apply NoDup_filter; exact Hnd].
          destruct c as [| a [| b c]]; cbn in Hl; try lia.
          assert (Hab : a <> b).
          { inversion Hnd as [| ? ? Hna _]. intros ->. apply Hna. now left. }
          intros Hnil. destruct (gender_eqb_spec a g) as [-> | Ha].
          -- assert (Hk : In b (filter keep (g :: b :: c))).
             { apply Hin. split; [right; now left | congruence]. }
             rewrite Hnil in Hk. destruct Hk.
          -- assert (Hk : In a (filter keep (a :: b :: c))).
             { apply Hin. split; [now left | exact Ha]. }
             rewrite Hnil in Hk. destruct Hk.
        * intros h Hh. rewrite Hin. tauto.
        * rewrite Hin. split; [intros [_ Hne]; contradiction |].
          intros [Hn | Hle]; [contradiction | lia].
      + fold c. split; [| split].
        * intros Hnd. split; [| exact Hnd]. intros Hnil. rewrite Hnil in Hex. destruct Hex.
        * tauto.
        * split; [intros _; right; exact Hl | intros _; exact Hex].
    - assert (Hnin : ~ In g c).
      { intros Hin. apply existsb_gender in Hin. congruence. }
      cbn [CreateEventScreen.formData CreateEventScreen.updateField
           CreateEventScreen.withField CreateEventScreen.genderAllowed].
      split; [| split].
      + intros Hnd. split.
        * intros Hnil. apply app_eq_nil in Hnil. destruct Hnil as [_ Hnil]. discriminate Hnil.
        * apply NoDup_app; [exact Hnd | repeat constructor; intros [] |].
          intros h Hh [<- | []]. contradiction.
      + intros h Hh. rewrite in_app_iff. cbn. intuition congruence.
      + rewrite in_app_iff. cbn. tauto. }
  destruct (Hstep gender st) as (H1 & H2 & H3).
  split; [exact H1 |]. split; [exact H2 |]. split; [exact H3 |].
  unfold reached.
  apply (CreateEventScreen_run_invariant
           (fun s => CreateEventScreen.genderAllowed (CreateEventScreen.formData s) <> [] /\
                     NoDup (CreateEventScreen.genderAllowed (CreateEventScreen.formData s)))).
  - intros s e [Hne Hnd]. destruct e; try (form_frame; split; assumption).
    cbn [CreateEventScreen.on]. unfold CreateEventScreen.pressGenderChip.
    destruct (Hstep gender0 (CreateEventScreen.impact CreateEventScreen.Light s))
      as (G1 & _). apply G1. exact Hnd.
  - cbn. split; [discriminate |]. repeat constructor; cbn; intuition discriminate.
Qed.

(** A number between two finite numbers is finite, and a finite number is
    not [NaN]. *)
Lemma between_finite (lo x hi : float) :
  is_finite lo = true -> is_finite hi = true ->
  (lo <=? x)%float = true -> (x <=? hi)%float = true -> is_finite x = true.
Proof.
  rewrite !is_finite_SF, !leb_spec. unfold SFleb.
  destruct (Prim2SF lo) as [? | ? | | ? ? ?], (Prim2SF hi) as [? | ? | | ? ? ?],
    (Prim2SF x) as [? | [|] | | ? ? ?]; cbn; intros; congruence.
Qed.

Lemma finite_not_nan (x : float) : is_finite x = true -> is_nan x = false.
Proof.
  unfold is_finite. destruct (is_nan x); [discriminate | reflexivity].
Qed.

(** [Math.max] and [Math.min] of two finite numbers are one of the two, the
    one the comparison of the exact values designates. *)
Lemma Math_max_finite (x y : float) :
  is_finite x = true -> is_finite y = true ->
  is_finite (Math_max x y) = true /\ F2Z (Math_max x y) = Z.max (F2Z x) (F2Z y).
Proof.
  intros Hx Hy. unfold Math_max.
  rewrite (finite_not_nan x Hx), (finite_not_nan y Hy). cbn [orb].
  rewrite !ltb_F2Z by assumption.
  destruct (Z.ltb_spec (F2Z x) (F2Z y)); [split; [assumption | lia] |].
  destruct (Z.ltb_spec (F2Z y) (F2Z x)); [split; [assumption | lia] |].
  destruct (get_sign x); split; try assumption; lia.
Qed.

Lemma Math_min_finite (x y : float) :
  is_finite x = true -> is_finite y = true ->
  is_finite (Math_min x y) = true /\ F2Z (Math_min x y) = Z.min (F2Z x) (F2Z y).
Proof.
  intros Hx Hy. unfold Math_min.
  rewrite (finite_not_nan x Hx), (finite_not_nan y Hy). cbn [orb].
  rewrite !ltb_F2Z by assumption.
  destruct (Z.ltb_spec (F2Z x) (F2Z y)); [split; [assumption | lia] |].
  destruct (Z.ltb_spec (F2Z y) (F2Z x)); [split; [assumption | lia] |].
  destruct (get_sign x); split; try assumption; lia.
Qed.

(** The exact values of the literals of the member limit. *)
Lemma F2Z_1_2_100_101 :
  F2Z 1 = 2 ^ 1074 /\ F2Z 2 = 2 * 2 ^ 1074 /\ F2Z 100 = 100 * 2 ^ 1074 /\
  F2Z 101 = 101 * 2 ^ 1074.
Proof. repeat split; vm_compute; reflexivity. Qed.

(** The two buttons of the member limit, on a limit between 2 and 100. *)
Lemma memberLimit_step (m : number) :
  (2 <=? m)%float = true -> (m <=? 100)%float = true ->
  let less := Math_max 2 (m - 1) in
  let more := Math_min 100 (m + 1) in
  ((2 <=? less)%float = true /\ (less <=? m)%float = true) /\
  ((m <=? more)%float = true /\ (more <=? 100)%float = true).
Proof.
  intros H2 H100 less more.
  assert (Hm : is_finite m = true) by (apply (between_finite 2 m 100); auto).
  destruct F2Z_1_2_100_101 as (E1 & E2 & E100 & E101).
  rewrite leb_F2Z in H2, H100 by auto. apply Z.leb_le in H2, H100.
  rewrite E2 in H2. rewrite E100 in H100.
  set (U := 2 ^ 1074) in *. assert (HU : 0 < U) by (unfold U; lia).
  set (M := F2Z m) in *.
  assert (Hs : frounds 0 (M - F2Z 1) (m - 1)).
  { apply sub_frounds with (z := m); auto. fold M. rewrite E1. fold U. lia. }
  assert (Ha : frounds 0 (M + F2Z 1) (m + 1)).
  { apply add_frounds with (z := 101%float); auto. fold M. rewrite E1, E101. fold U. lia. }
  destruct Hs as (Hsf & _ & Hsb). destruct Ha as (Haf & _ & Hab).
  pose proof (Hsb m Hm) as [Hs1 _]. pose proof (Hsb 1%float eq_refl) as [_ Hs2].
  pose proof (Hab m Hm) as [_ Ha1]. pose proof (Hab 101%float eq_refl) as [Ha2 _].
  rewrite Z.pow_0_r, !Z.mul_1_r in *. fold M in Hs1, Ha1. rewrite E1 in *. rewrite E101 in *.
  fold U in Hs1, Hs2, Ha1, Ha2.
  destruct (Math_max_finite 2 (m - 1) eq_refl Hsf) as [Hlf Hlv].
  destruct (Math_min_finite 100 (m + 1) eq_refl Haf) as [Hmf Hmv].
  fold less in Hlf, Hlv. fold more in Hmf, Hmv. rewrite E2 in Hlv. rewrite E100 in Hmv.
  fold U in Hlv, Hmv.
  rewrite !leb_F2Z by auto. rewrite E2, E100. fold U M.
  set (L := F2Z less) in *. set (R := F2Z more) in *.
  set (S := F2Z (m - 1)) in *. set (A := F2Z (m + 1)) in *.
  repeat split; apply Z.leb_le; clear - HU H2 H100 Hs1 Hs2 Ha1 Ha2 Hlv Hmv; lia.
Qed.

(** X23: from the first render on, whatever happens on the screen, the
    member limit is between 2 and 100; the minus button never raises it and
    never takes it below 2, the plus button never lowers it and never takes
    it above 100. *)
Theorem memberLimit_stays_between_2_and_100 (events : list CreateEventScreen.Event) :
  let st := CreateEventScreen.run events CreateEventScreen.initial in
  let m := CreateEventScreen.memberLimit (CreateEventScreen.formData st) in
  let less :=
    CreateEventScreen.memberLimit
      (CreateEventScreen.formData (CreateEventScreen.pressMemberLimitMinus st)) in
  let more :=
    CreateEventScreen.memberLimit
      (CreateEventScreen.formData (CreateEventScreen.pressMemberLimitPlus st)) in
  ((2 <=? m)%float = true /\ (m <=? 100)%float = true) /\
  ((2 <=? less)%float = true /\ (less <=? m)%float = true) /\
  ((m <=? more)%float = true /\ (more <=? 100)%float = true).
Proof.
  intros st m less more.
  assert (Hm : (2 <=? m)%float = true /\ (m <=? 100)%float = true).
  { unfold m, st.
    apply (CreateEventScreen_run_invariant
             (fun s =>
                (2 <=? CreateEventScreen.memberLimit (CreateEventScreen.formData s))%float = true /\
                (CreateEventScreen.memberLimit (CreateEventScreen.formData s) <=? 100)%float = true));
      [| split; reflexivity].
    intros s e [H2 H100]. destruct e; try (form_frame; split; assumption);
      cbn [CreateEventScreen.on];
      unfold CreateEventScreen.pressMemberLimitMinus, CreateEventScreen.pressMemberLimitPlus;
      cbn [CreateEventScreen.formData CreateEventScreen.updateField
           CreateEventScreen.withField CreateEventScreen.memberLimit];
      destruct (memberLimit_step _ H2 H100) as [[L1 L2] [R1 R2]].
    - split; [exact L1 |].
      set (x := CreateEventScreen.memberLimit (CreateEventScreen.formData s)) in *.
      assert (Hx : is_finite x = true) by (apply (between_finite 2 x 100); auto).
      assert (Hl : is_finite (Math_max 2 (x - 1)) = true)
        by (apply (between_finite 2 _ x); auto).
      rewrite leb_F2Z in * by auto. apply Z.leb_le. apply Z.leb_le in L2, H100. lia.
    - split; [| exact R2].
      set (x := CreateEventScreen.memberLimit (CreateEventScreen.formData s)) in *.
      assert (Hx : is_finite x = true) by (apply (between_finite 2 x 100); auto).
      assert (Hr : is_finite (Math_min 100 (x + 1)) = true)
        by (apply (between_finite x _ 100); auto).
      rewrite leb_F2Z in * by auto. apply Z.leb_le. apply Z.leb_le in R1, H2. lia. }
  split; [exact Hm |]. destruct Hm as [H2 H100].
  exact (memberLimit_step m H2 H100).
Qed.

(** At the two ends the buttons do nothing. *)
Example memberLimit_saturates :
  Math_max 2 (2 - 1) = 2%float /\ Math_min 100 (100 + 1) = 100%float /\
  Math_max 2 (20 - 1) = 19%float /\ Math_min 100 (20 + 1) = 21%float.
Proof. repeat split. Qed.

(** X24: from the first render on, whatever happens on the screen, the
    current step is one of the four.  While nothing is being submitted the
    button of the footer moves from each of the first three steps to the
    next, whatever the form holds; the back button moves from each of the
    last three steps to the one before, and on the first step calls
    [onBack] and stays. *)
Theorem steps_stay_within_the_four (events : list CreateEventScreen.Event) :
  let st := CreateEventScreen.run events CreateEventScreen.initial in
  let step := CreateEventScreen.currentStep st in
  0 <= step <= 3 /\
  (CreateEventScreen.isSubmitting st = false -> step < 3 ->
     CreateEventScreen.currentStep (CreateEventScreen.pressFooter st) = step + 1 /\
     CreateEventScreen.timers (CreateEventScreen.pressFooter st) = CreateEventScreen.timers st) /\
  (0 < step ->
     CreateEventScreen.currentStep (CreateEventScreen.handlePrevious st) = step - 1 /\
     CreateEventScreen.effects (CreateEventScreen.handlePrevious st)
       = CreateEventScreen.effects st ++ [CreateEventScreen.Impact CreateEventScreen.Light]) /\
  (step = 0 ->
     CreateEventScreen.currentStep (CreateEventScreen.handlePrevious st) = 0 /\
     CreateEventScreen.effects (CreateEventScreen.handlePrevious st)
       = CreateEventScreen.effects st ++ [CreateEventScreen.OnBack]).
Proof.
  intros st step.
  assert (Hstep : 0 <= step <= 3).
  { unfold step, st.
    apply (CreateEventScreen_run_invariant (fun s => 0 <= CreateEventScreen.currentStep s <= 3));
      [| cbn; lia].
    intros s e H. destruct e; cbn [CreateEventScreen.on];
      try rewrite (proj1 (proj2 (CreateEventScreen_advance_frame _ _)));
      try exact H.
    - unfold CreateEventScreen.handleAddImage. destruct result; exact H.
    - unfold CreateEventScreen.pressGenderChip, CreateEventScreen.toggleGender.
      destruct (existsb _ _); [destruct (_ <? _)%nat |]; exact H.
    - unfold CreateEventScreen.pressAddRule, CreateEventScreen.handleAddRule.
      destruct (isEmpty _); [exact H |]. cbn [CreateEventScreen.newRule CreateEventScreen.impact].
      destruct (negb _); exact H.
    - unfold CreateEventScreen.pressFooter, CreateEventScreen.handleNext.
      destruct (CreateEventScreen.isSubmitting s); [exact H |].
      destruct (_ =? _); [exact H |]. cbn [CreateEventScreen.currentStep CreateEventScreen.impact].
      change (Z.of_nat (List.length CreateEventScreen.steps) - 1) with 3.
      destruct (Z.ltb_spec (CreateEventScreen.currentStep s) 3); cbn; lia.
    - unfold CreateEventScreen.handlePrevious.
      cbn [CreateEventScreen.currentStep CreateEventScreen.impact].
      destruct (Z.ltb_spec 0 (CreateEventScreen.currentStep s)); cbn; lia. }
  split; [exact Hstep |]. fold step in Hstep. split; [| split].
  - intros Hs Hlt. unfold CreateEventScreen.pressFooter, CreateEventScreen.handleNext.
    rewrite Hs. change (Z.of_nat (List.length CreateEventScreen.steps) - 1) with 3.
    fold step. destruct (Z.eqb_spec step 3); [lia |].
    cbn [CreateEventScreen.currentStep CreateEventScreen.impact]. fold step.
    destruct (Z.ltb_spec step 3); [| lia]. split; reflexivity.
  - intros Hpos. unfold CreateEventScreen.handlePrevious. fold step.
    destruct (Z.ltb_spec 0 step); [| lia]. split; reflexivity.
  - intros H0. unfold CreateEventScreen.handlePrevious. fold step.
    destruct (Z.ltb_spec 0 step); [lia |]. split; [exact H0 | reflexivity].
Qed.



(* ================================================================= *)
(** * The event detail screen *)





(** The same participant on the event overbooked by one: the press leaves. *)
Example overbooked_event_can_be_left :
  EventDetailScreen.effects (EventDetailScreen.pressJoin (sampleEventScreen 23 true))
  = [EventDetailScreen.Haptics ImpactLight; EventDetailScreen.OnLeave].
Proof. reflexivity. Qed.

(* ================================================================= *)
(** * The wallet screen: tabs, signs and colours *)

(** Three predicates of which exactly one holds split a list in three. *)
Lemma filter_three {A} (p q r : A -> bool) (l : list A) :
  (forall x, (if p x then 1 else 0) + (if q x then 1 else 0) + (if r x then 1 else 0) = 1)%nat ->
  (List.length (filter p l) + List.length (filter q l) + List.length (filter r l))%nat
  = List.length l.
Proof.
  intros H. induction l as [| x l IH]; [reflexivity |]. cbn [filter].
  specialize (H x). destruct (p x), (q x), (r x); cbn [List.length] in *; lia.
Qed.

(** X27: the tab All shows every transaction; no transaction is shown under
    both Commissions and Dues; the transactions shown under neither are the
    failed withdrawals, which only the tab All shows. *)
Theorem wallet_tabs_split_the_transactions (transactions : list Transaction.t) :
  filteredTransactions tab_all transactions = transactions /\
  (forall t, In t (filteredTransactions tab_commissions transactions) ->
             ~ In t (filteredTransactions tab_dues transactions)) /\
  (forall t, In t transactions ->
     (~ In t (filteredTransactions tab_commissions transactions) /\
      ~ In t (filteredTransactions tab_dues transactions))
     <-> Transaction.type t = withdrawal_failed) /\
  (List.length (filteredTransactions tab_commissions transactions)
   + List.length (filteredTransactions tab_dues transactions)
   + List.length (filter (fun t => TransactionType_eqb (Transaction.type t) withdrawal_failed)
                    transactions))%nat
  = List.length transactions.
Proof.
  unfold filteredTransactions. split; [| split; [| split]].
  - induction transactions as [| t l IH]; [reflexivity |]. cbn. now rewrite IH.
  - intros t. rewrite !filter_In. intros [_ H1] [_ H2].
    destruct (Transaction.type t); discriminate.
  - intros t Hin. rewrite !filter_In. split.
    + intros [H1 H2]. destruct (Transaction.type t); try reflexivity;
        solve [exfalso; apply H1; split; [exact Hin | reflexivity]
              | exfalso; apply H2; split; [exact Hin | reflexivity]].
    + intros ->. split; intros [_ H]; discriminate H.
  - apply filter_three. intros t. destruct (Transaction.type t); reflexivity.
Qed.

(** X28: the sign and the colour of a transaction disagree on two types.  A
    failed withdrawal, and no other transaction, has the error colour next
    to an amount shown as a gain, with a plus sign; a completed withdrawal,
    and no other, has the success colour next to an amount without a plus
    sign.  The warning colour is that of the requested withdrawals. *)
Theorem failed_withdrawal_is_shown_as_a_gain (transaction : Transaction.t) :
  let type := Transaction.type transaction in
  (getTransactionColor type = semantic.error /\ TransactionItem.sign transaction = "+"%string
   <-> type = withdrawal_failed) /\
  (getTransactionColor type = semantic.success /\ TransactionItem.sign transaction = ""%string
   <-> type = withdrawal_completed) /\
  (getTransactionColor type = semantic.warning <-> type = withdrawal_requested).
Proof.
  unfold TransactionItem.sign, TransactionItem.isPositive.
  destruct (Transaction.type transaction); cbn;
    repeat split; intros; try reflexivity; try discriminate;
    repeat match goal with H : _ /\ _ |- _ => destruct H end; try discriminate.
Qed.

(* ================================================================= *)
(** * The application shell *)

(** The three screens of the KYC flow. *)
Lemma not_kyc_eqb (a b : App.AppScreen) :
  App.AppScreen_eqb a b = true -> a = b.
Proof. destruct a, b; cbn; intros H; reflexivity || discriminate H. Qed.

(** X29: no sequence of callbacks, called by the screens at once or late
    from a timeout, brings the application to one of the three screens of
    the KYC flow; each of the fourteen other screens can be reached. *)
Theorem kyc_screens_are_never_shown :
  (forall calls,
     ~ In (App.currentScreen (App.run calls App.initial))
          [App.kycIntro; App.kycSelfie; App.kycSuccess]) /\
  (forall screen,
     ~ In screen [App.kycIntro; App.kycSelfie; App.kycSuccess] ->
     exists calls, App.currentScreen (App.run calls App.initial) = screen).
Proof.
  split.
  - intros calls.
    assert (Hinv : forall st,
      (forall s, In s (App.currentScreen st :: App.rendered st) ->
                 ~ In s [App.kycIntro; App.kycSelfie; App.kycSuccess]) ->
      forall s, In s (App.currentScreen (App.run calls st) :: App.rendered (App.run calls st)) ->
                ~ In s [App.kycIntro; App.kycSelfie; App.kycSuccess]).
    { unfold App.run. induction calls as [| c calls IH]; intros st H; [exact H |].
      cbn [fold_left]. apply IH. clear IH. unfold App.step.
      destruct (existsb (App.AppScreen_eqb (App.owner c)) (App.rendered st)) eqn:Hex; [| exact H].
      apply existsb_exists in Hex. destruct Hex as (o & Ho & Heq).
      apply not_kyc_eqb in Heq. subst o.
      assert (Hown : ~ In (App.owner c) [App.kycIntro; App.kycSelfie; App.kycSuccess])
        by (apply H; now right).
      assert (Hcur : ~ In (App.currentScreen (App.handle c st))
                          [App.kycIntro; App.kycSelfie; App.kycSuccess]).
      { destruct c; cbn in Hown |- *; try (intros [K | [K | [K | []]]]; discriminate K);
          try (exfalso; apply Hown; tauto).
        - unfold App.handleSplashFinish.
          destruct (authStore.isAuthenticated _); [| destruct (authStore.isOnboardingComplete _)];
            cbn; intros [K | [K | [K | []]]]; discriminate K.
        - apply H. now left. }
      assert (Hren : App.rendered (App.handle c st) = App.rendered st).
      { destruct c; cbn; try reflexivity.
        unfold App.handleSplashFinish.
        destruct (authStore.isAuthenticated _); [| destruct (authStore.isOnboardingComplete _)];
          reflexivity. }
      intros s Hs. cbn [App.render App.currentScreen App.rendered] in Hs.
      rewrite Hren in Hs. destruct Hs as [<- | [<- | Hs]]; try exact Hcur.
      apply H. now right. }
    apply (Hinv App.initial).
    + cbn. intros s [<- | [<- | []]]; intros [K | [K | [K | []]]]; discriminate K.
    + now left.
  - intros screen Hnot.
    set (enter := [App.Splash_onFinish; App.Onboarding_onComplete; App.Login_onGoogleLogin;
                   App.CitySelection_onCitySelected "Mumbai" "Maharashtra"
                     "2024-01-15T10:00:00.000Z" "2024-01-15T10:00:00.000Z"]).
    destruct screen.
    + exists []. reflexivity.
    + exists [App.Splash_onFinish]. reflexivity.
    + exists [App.Splash_onFinish; App.Onboarding_onComplete]. reflexivity.
    + exists [App.Splash_onFinish; App.Onboarding_onComplete; App.Login_onSignupPress].
      reflexivity.
    + exists [App.Splash_onFinish; App.Onboarding_onComplete;
              App.Login_onLogin (lit "9876543210") (lit "secret1")]. reflexivity.
    + exists [App.Splash_onFinish; App.Onboarding_onComplete; App.Login_onGoogleLogin].
      reflexivity.
    + exfalso. apply Hnot. now left.
    + exfalso. apply Hnot. right. now left.
    + exfalso. apply Hnot. right. right. now left.
    + exists enter. reflexivity.
    + exists (enter ++ [App.Main_onEventPress "1"]). reflexivity.
    + exists (enter ++ [App.Main_onCreateEvent]). reflexivity.
    + exists (enter ++ [App.Main_onSettings]). reflexivity.
    + exists (enter ++ [App.Main_onNotifications]). reflexivity.
    + exists (enter ++ [App.Main_onWallet]). reflexivity.
    + exists (enter ++ [App.Main_onFriends]). reflexivity.
    + exists (enter ++ [App.Main_onFriendChat "2"]). reflexivity.
Qed.
